(** * PublicPass share-delivery worker: a shallow embedding of
      [serverless/worker.js] and the properties of its request handler.

    The worker is a stateless request handler over three key-value
    namespaces (users, shares/sessions, inbox) and a per-token coordinator
    (the [ShareManager] durable object).  The embedding passes the stores
    explicitly, takes the wall clock and the random bytes of a request as
    inputs, and returns the new stores together with the HTTP response.

    Conventions of the embedding:
    - The numbers held in JSON values (request bodies, stored records) are
      modelled by their integer values ([Num z]) and [NaN]; a JSON number
      with a fraction or beyond the finite range has no value in the
      embedding.  What [Number], [Math.max] and [Math.min] compute is a
      [number]: a whole number, a fraction, an infinity or [NaN].
      Arithmetic is exact: between the magnitude that rounds to zero and
      the one that rounds to an infinity a value is not rounded to double
      precision.  The conversion of a number to a string prints the double
      nearest to it.
    - The stores and the KV interface of the embedding take whole numbers:
      a request that would put a record with an [expirationTtl] or a
      session duration that has a fraction is outside the embedding, which
      answers 500 to it, and [kv.list] is taken to read a fractional
      [limit] by its integer part.
    - JavaScript strings are modelled as sequences of 8-bit code units.
    - ISO-8601 timestamps ([toISOString] / [new Date(s).getTime()]) are
      modelled by the millisecond count they denote; one request reads one
      clock value.
    - A request is given already matched against the routes of [fetch];
      CORS headers are left out of the responses.
    - An exception caught by the [try] of [fetch] is the answer 500; the
      stores keep the value they had when it was raised.
    - Stored JSON keeps its value through [JSON.stringify] and
      [get(key, 'json')]; a KV key that is not a string is used through its
      string conversion.
    - A read of a KV key whose [expirationTtl] has elapsed returns nothing;
      the platform's own validation of [expirationTtl] is not modelled. *)

From Stdlib Require Import ZArith QArith Qround Lia.
From Stdlib Require Import Strings.String Strings.Ascii Strings.Byte.
From Stdlib Require Import Numbers.DecimalString.
From stdpp Require Import gmap strings list fin_maps sorting.

Set Warnings "-register-all".
Local Open Scope string_scope.
Local Open Scope Z_scope.

(** ** JavaScript values *)

Module JS.

Inductive jsnum : Type :=
| NaN
| Num (z : Z).

Inductive jsval : Type :=
| JUndefined
| JNull
| JBool (b : bool)
| JNum (n : jsnum)
| JStr (s : string)
| JArr (items : list jsval)
| JObj (fields : list (string * jsval)).

(** ToBoolean *)
Definition truthy (v : jsval) : bool :=
  match v with
  | JUndefined | JNull => false
  | JBool b => b
  | JNum NaN => false
  | JNum (Num z) => negb (z =? 0)
  | JStr s => negb (String.eqb s "")
  | JArr _ | JObj _ => true
  end.

(** [a || b] *)
Definition or_else (a b : jsval) : jsval := if truthy a then a else b.

(** Own-property read [v.name]; [None] is the TypeError raised on
    [undefined] and [null].  Primitives and arrays have none of the
    property names the worker reads. *)
Fixpoint assoc (name : string) (fields : list (string * jsval)) : jsval :=
  match fields with
  | [] => JUndefined
  | (k, v) :: rest => if String.eqb k name then v else assoc name rest
  end.

Definition prop (v : jsval) (name : string) : option jsval :=
  match v with
  | JUndefined | JNull => None
  | JObj fields => Some (assoc name fields)
  | _ => Some JUndefined
  end.

(** Optional chaining [v?.name] *)
Definition prop_opt (v : jsval) (name : string) : jsval :=
  match prop v name with
  | Some x => x
  | None => JUndefined
  end.

Fixpoint drop_zeros (l : list ascii) : list ascii :=
  match l with
  | "0"%char :: r => drop_zeros r
  | _ => l
  end.

(** The double nearest to a natural number, ties to the even mantissa; the
    numbers below 2^53 are doubles themselves. *)
Definition round_double (z : Z) : Z :=
  let bits := Z.log2 z + 1 in
  if bits <=? 53 then z
  else
    let shift := bits - 53 in
    let mantissa := Z.shiftr z shift in
    let rest := Z.land z (Z.ones shift) in
    let half := Z.shiftl 1 (shift - 1) in
    Z.shiftl
      (if (half <? rest) || (half =? rest) && Z.odd mantissa
       then mantissa + 1 else mantissa)
      shift.

(** The decimal with [k] significant digits that reads as the double [d],
    the nearest one when there are two; [None] when there is none. *)
Definition decimal_of (k : Z) (d : Z) : option Z :=
  let digits := Z.of_nat (String.length (NilZero.string_of_int (Z.to_int d))) in
  let scale := 10 ^ (digits - k) in
  let low := d / scale * scale in
  let high := low + scale in
  match round_double low =? d, round_double high =? d with
  | true, true =>
      if d - low <? high - d then Some low
      else if high - d <? d - low then Some high
      else if Z.even (low / scale) then Some low else Some high
  | true, false => Some low
  | false, true => Some high
  | false, false => None
  end.

(** The shortest decimal that reads as the double [d]: at most 17
    significant digits. *)
Fixpoint shortest_decimal (fuel : nat) (k : Z) (d : Z) : Z :=
  match fuel with
  | O => d
  | S fuel' =>
      match decimal_of k d with
      | Some c => c
      | None => shortest_decimal fuel' (k + 1) d
      end
  end.

(** The exponent form [d.ddde+x] of a natural number: its digits up to the
    last one that is not zero, and the number of digits after the first. *)
Definition exponent_form (z : Z) : string :=
  let digits := list_ascii_of_string (NilZero.string_of_int (Z.to_int z)) in
  match rev (drop_zeros (rev digits)) with
  | [] => "0"
  | [d] => String d ""
  | d :: rest => String d ("." ++ string_of_list_ascii rest)
  end ++ "e+" ++ NilZero.string_of_int (Z.to_int (Z.of_nat (length digits) - 1)).

(** Number-to-string conversion of the double nearest to an integer: the
    shortest decimal that reads as that double, in plain digits below 10^21
    and in the exponent form from there on. *)
Definition string_of_Z (z : Z) : string :=
  let d := round_double (Z.abs z) in
  let c := if d <? 2 ^ 53 then d else shortest_decimal 17 1 d in
  (if z <? 0 then "-" else "")
  ++ (if c <? 10 ^ 21 then NilZero.string_of_int (Z.to_int c) else exponent_form c).

Definition join_strings (sep : string) (l : list string) : string :=
  String.concat sep l.

(** ToString *)
Fixpoint to_string (v : jsval) : string :=
  match v with
  | JUndefined => "undefined"
  | JNull => "null"
  | JBool true => "true"
  | JBool false => "false"
  | JNum NaN => "NaN"
  | JNum (Num z) => string_of_Z z
  | JStr s => s
  | JArr items =>
      join_strings ","
        ((fix elems (l : list jsval) : list string :=
            match l with
            | [] => []
            | JUndefined :: r | JNull :: r => "" :: elems r
            | x :: r => to_string x :: elems r
            end) items)
  | JObj _ => "[object Object]"
  end.

(** White space and line terminators below code unit 256. *)
Definition is_white (c : ascii) : bool :=
  let n := N_of_ascii c in
  ((9 <=? n) && (n <=? 13) || (n =? 32) || (n =? 160))%N.

Fixpoint drop_space (l : list ascii) : list ascii :=
  match l with
  | [] => []
  | c :: r => if is_white c then drop_space r else l
  end.

(** [s.trim()] *)
Definition trim (s : string) : string :=
  string_of_list_ascii
    (rev (drop_space (rev (drop_space (list_ascii_of_string s))))).

Definition is_digit (c : ascii) : bool :=
  let n := N_of_ascii c in ((48 <=? n) && (n <=? 57))%N.

Fixpoint digits_value (acc : Z) (l : list ascii) : Z :=
  match l with
  | [] => acc
  | c :: r => digits_value (10 * acc + (Z.of_N (N_of_ascii c) - 48)) r
  end.

(** A number as [Number], [Math.max] and [Math.min] compute with it: the
    whole numbers and [NaN] of the JSON values and, besides, the fractions
    and the two infinities. *)
Inductive number : Type :=
| Whole (z : Z)
| Fraction (q : Q)
| Infinite (negative : bool)
| NotANumber.

Definition number_of (n : jsnum) : number :=
  match n with
  | NaN => NotANumber
  | Num z => Whole z
  end.

Coercion number_of : jsnum >-> number.

(** The least magnitude that rounds to an infinity, and the greatest one
    that rounds to zero, in double precision. *)
Definition overflow_bound : Z := 2 ^ 1024 - 2 ^ 970.
Definition underflow_bound : Q := 1 # (2 ^ 1075).

(** The number of a sign and a magnitude; a magnitude between the two
    bounds is kept as it is. *)
Definition finite_number (negative : bool) (magnitude : Q) : number :=
  if Qle_bool (inject_Z overflow_bound) magnitude then Infinite negative
  else if Qle_bool magnitude underflow_bound then Whole 0
  else
    let r := Qred (if negative then - magnitude else magnitude) in
    if (Qden r =? 1)%positive then Whole (Qnum r) else Fraction r.

(** The decimal digits at the head of a text, and what follows them. *)
Fixpoint take_digits (l : list ascii) : list ascii * list ascii :=
  match l with
  | [] => ([], [])
  | c :: r =>
      if is_digit c
      then let (digits, rest) := take_digits r in (c :: digits, rest)
      else ([], l)
  end.

(** ExponentPart, or nothing. *)
Definition exponent_part (l : list ascii) : option Z :=
  match l with
  | [] => Some 0
  | c :: r =>
      if Ascii.eqb c "e" || Ascii.eqb c "E"
      then
        let (negative, digits) :=
          match r with
          | "+"%char :: t => (false, t)
          | "-"%char :: t => (true, t)
          | _ => (false, r)
          end in
        match digits with
        | [] => None
        | _ =>
            if forallb is_digit digits
            then Some (if negative then - digits_value 0 digits
                       else digits_value 0 digits)
            else None
        end
      else None
  end.

(** StrUnsignedDecimalLiteral other than [Infinity]: digits with an
    optional fraction and an optional exponent. *)
Definition unsigned_decimal (l : list ascii) : option Q :=
  let (whole, rest) := take_digits l in
  let (fraction, rest) :=
    match rest with
    | "."%char :: r => take_digits r
    | _ => ([], rest)
    end in
  match (whole ++ fraction)%list, exponent_part rest with
  | (_ :: _) as digits, Some e =>
      let power := e - Z.of_nat (length fraction) in
      Some (if 0 <=? power
            then inject_Z (digits_value 0 digits * 10 ^ power)
            else digits_value 0 digits # Z.to_pos (10 ^ (- power)))
  | _, _ => None
  end.

Definition digit_in (radix : Z) (c : ascii) : option Z :=
  let n := Z.of_N (N_of_ascii c) in
  let d :=
    if (48 <=? n) && (n <=? 57) then n - 48
    else if (97 <=? n) && (n <=? 102) then n - 87
    else if (65 <=? n) && (n <=? 70) then n - 55
    else radix in
  if d <? radix then Some d else None.

Fixpoint radix_value (radix acc : Z) (l : list ascii) : option Z :=
  match l with
  | [] => Some acc
  | c :: r =>
      match digit_in radix c with
      | Some d => radix_value radix (radix * acc + d) r
      | None => None
      end
  end.

(** NonDecimalIntegerLiteral: [0x], [0o] or [0b] and digits of that radix. *)
Definition non_decimal (l : list ascii) : option Z :=
  match l with
  | "0"%char :: p :: ((_ :: _) as digits) =>
      if Ascii.eqb p "x" || Ascii.eqb p "X" then radix_value 16 0 digits
      else if Ascii.eqb p "o" || Ascii.eqb p "O" then radix_value 8 0 digits
      else if Ascii.eqb p "b" || Ascii.eqb p "B" then radix_value 2 0 digits
      else None
  | _ => None
  end.

(** StringToNumber: white space around the literal is dropped and the
    empty text is 0; a signed decimal literal, [Infinity] with a sign or
    without, or an unsigned literal of another radix; every other text is
    [NaN]. *)
Definition string_to_number (s : string) : number :=
  match list_ascii_of_string (trim s) with
  | [] => Whole 0
  | l =>
      match non_decimal l with
      | Some z => finite_number false (inject_Z z)
      | None =>
          let (negative, literal) :=
            match l with
            | "+"%char :: r => (false, r)
            | "-"%char :: r => (true, r)
            | _ => (false, l)
            end in
          if String.eqb (string_of_list_ascii literal) "Infinity"
          then Infinite negative
          else
            match unsigned_decimal literal with
            | Some q => finite_number negative q
            | None => NotANumber
            end
      end
  end.

(** [Number(v)] *)
Definition Number (v : jsval) : number :=
  match v with
  | JUndefined => NotANumber
  | JNull => Whole 0
  | JBool true => Whole 1
  | JBool false => Whole 0
  | JNum n => n
  | JStr s => string_to_number s
  | JArr _ | JObj _ => string_to_number (to_string v)
  end.

(** [a <= b] on numbers other than [NaN]. *)
Definition number_leb (a b : number) : bool :=
  match a, b with
  | NotANumber, _ | _, NotANumber => false
  | Infinite true, _ | _, Infinite false => true
  | Infinite false, _ | _, Infinite true => false
  | Whole x, Whole y => x <=? y
  | Whole x, Fraction q => Qle_bool (inject_Z x) q
  | Fraction p, Whole y => Qle_bool p (inject_Z y)
  | Fraction p, Fraction q => Qle_bool p q
  end.

(** [Math.max] and [Math.min] on two arguments. *)
Definition math_max (a b : number) : number :=
  match a, b with
  | NotANumber, _ | _, NotANumber => NotANumber
  | Whole x, Whole y => Whole (Z.max x y)
  | _, _ => if number_leb a b then b else a
  end.

Definition math_min (a b : number) : number :=
  match a, b with
  | NotANumber, _ | _, NotANumber => NotANumber
  | Whole x, Whole y => Whole (Z.min x y)
  | _, _ => if number_leb a b then a else b
  end.

(** [typeof v === 'string'] *)
Definition is_string (v : jsval) : bool :=
  match v with
  | JStr _ => true
  | _ => false
  end.

(** [s.split(sep)] for a one-character separator. *)
Fixpoint split_chars (sep : ascii) (cur : list ascii) (l : list ascii)
  : list string :=
  match l with
  | [] => [string_of_list_ascii (rev cur)]
  | c :: r =>
      if Ascii.eqb c sep
      then string_of_list_ascii (rev cur) :: split_chars sep [] r
      else split_chars sep (c :: cur) r
  end.

Definition split (sep : ascii) (s : string) : list string :=
  split_chars sep [] (list_ascii_of_string s).

(** [arr.includes(x)] on strings *)
Definition includes (l : list string) (x : string) : bool :=
  existsb (String.eqb x) l.

End JS.

Export JS.


(** ** Leaf functions of the worker *)

Definition DEFAULT_MAX_PAYLOAD : Z := 8 * 1024 * 1024.
Definition DEFAULT_MAX_TTL : Z := 60 * 60.
Definition DEFAULT_TTL : Z := 10 * 60.

(** The source of [crypto.getRandomValues]: the bytes it will hand out, in
    order. *)
Definition entropy : Type := nat -> byte.

Definition getRandomValues (n : nat) (e : entropy) : list byte * entropy :=
  (map e (seq 0 n), fun i => e (n + i)%nat).

Definition hex_digit (n : N) : ascii :=
  if (n <? 10)%N then ascii_of_N (48 + n) else ascii_of_N (87 + n).

(** [b.toString(16)] for a byte *)
Definition toString16 (b : byte) : string :=
  let n := Byte.to_N b in
  if (n <? 16)%N then String (hex_digit n) ""
  else String (hex_digit (n / 16)) (String (hex_digit (n mod 16)) "").

(** [s.padStart(target, pad)] for a one-character pad *)
Definition padStart (target : nat) (pad : ascii) (s : string) : string :=
  string_of_list_ascii (repeat pad (target - String.length s)) ++ s.

Definition hex_of_bytes (bytes : list byte) : string :=
  join_strings "" (map (fun b => padStart 2 "0" (toString16 b)) bytes).

Definition generateToken (byteLength : nat) (e : entropy) : string * entropy :=
  let (bytes, e') := getRandomValues byteLength e in
  (hex_of_bytes bytes, e').

Definition is_alnum (c : ascii) : bool :=
  let n := N_of_ascii c in
  ((65 <=? n) && (n <=? 90) || (97 <=? n) && (n <=? 122)
   || (48 <=? n) && (n <=? 57))%N.

Definition is_name_char (c : ascii) : bool :=
  is_alnum c || Ascii.eqb c "_" || Ascii.eqb c "." || Ascii.eqb c "-".

(** [/^[A-Za-z0-9](?:[A-Za-z0-9_.-]{0,63})$/.test(username || '')] *)
Definition validateUsername (username : jsval) : bool :=
  match to_string (or_else username (JStr "")) with
  | EmptyString => false
  | String c rest =>
      is_alnum c && (String.length rest <=? 63)%nat
      && forallb is_name_char (list_ascii_of_string rest)
  end.

(** [parseAdmins]: split on commas, trim, drop the empty entries. *)
Definition parseAdmins (admin_users : string) : list string :=
  filter (fun s => s <> "") (map trim (split "," admin_users)).

Definition base64_char (n : N) : ascii :=
  if (n <? 26)%N then ascii_of_N (65 + n)
  else if (n <? 52)%N then ascii_of_N (97 + (n - 26))
  else if (n <? 62)%N then ascii_of_N (48 + (n - 52))
  else if (n =? 62)%N then "+"%char else "/"%char.

(** [btoa] on a byte sequence *)
Fixpoint btoa (l : list N) : list ascii :=
  match l with
  | [] => []
  | [a] =>
      [base64_char (a / 4); base64_char ((a mod 4) * 16); "="; "="]%char
  | [a; b] =>
      [base64_char (a / 4); base64_char ((a mod 4) * 16 + b / 16);
       base64_char ((b mod 16) * 4); "="]%char
  | a :: b :: c :: r =>
      base64_char (a / 4) :: base64_char ((a mod 4) * 16 + b / 16)
      :: base64_char ((b mod 16) * 4 + c / 64) :: base64_char (c mod 64)
      :: btoa r
  end%N.

Fixpoint drop_eq (l : list ascii) : list ascii :=
  match l with
  | "="%char :: r => drop_eq r
  | _ => l
  end.

(** [randomSecret]: base64 of the random bytes without the trailing [=]. *)
Definition randomSecret (bytes : nat) (e : entropy) : string * entropy :=
  let (array, e') := getRandomValues bytes e in
  (string_of_list_ascii (rev (drop_eq (rev (btoa (map Byte.to_N array))))), e').

(** ** Stored records *)

Record user_record : Type := {
  u_username : string;
  u_publicKey : jsval;
  u_authHash : string;
  u_updatedAt : Z
}.

(** The value stored under a share token: [{cipher, alg, cmp, meta}]. *)
Record share_record : Type := {
  sh_cipher : string;
  sh_alg : jsval;
  sh_cmp : jsval;
  sh_meta : jsval
}.

Record inbox_entry : Type := {
  in_cipher : string;
  in_alg : jsval;
  in_cmp : jsval;
  in_meta : jsval;
  in_createdAt : Z;
  in_expiresAt : Z
}.

Record session_record : Type := {
  session_id : string;
  sender : string;
  recipient : jsval;
  targetOrigin : jsval;
  targetPath : jsval;
  createdAt : Z;
  durationSec : jsval;
  expiresAt : Z;
  acceptedAt : option Z;
  revokedAt : option Z;
  restoredAt : option Z;
  cipher : string;
  alg : jsval;
  cmp : jsval
}.

Record request_record : Type := {
  rq_id : string;
  rq_requester : string;
  rq_origin : string;
  rq_url : jsval;
  rq_createdAt : Z;
  rq_targetAdmin : jsval
}.

(** ** The KV namespaces

    One namespace holds values of several shapes under disjoint key
    prefixes.  An entry remembers the [expirationTtl] (seconds) it was put
    with and the time (milliseconds) of the put. *)

Inductive kv_value : Type :=
| VShare (r : share_record)
| VInbox (e : inbox_entry)
| VSession (s : session_record)
| VIndex
| VRequest (r : request_record).

Record kv_entry : Type := {
  kv_val : kv_value;
  kv_ttl : Z;
  kv_put_at : Z
}.

Definition kv_expires (e : kv_entry) : Z := kv_put_at e + 1000 * kv_ttl e.

Definition kv_live (now : Z) (e : kv_entry) : bool := now <? kv_expires e.

(** [kv.get(key, 'json')] *)
Definition kv_get (now : Z) (key : string) (m : gmap string kv_entry)
  : option kv_value :=
  match m !! key with
  | Some e => if kv_live now e then Some (kv_val e) else None
  | None => None
  end.

(** [kv.put(key, value, { expirationTtl })] *)
Definition kv_put (now : Z) (key : string) (v : kv_value) (ttl : Z)
    (m : gmap string kv_entry) : gmap string kv_entry :=
  <[key := {| kv_val := v; kv_ttl := ttl; kv_put_at := now |}]> m.

(** [kv.delete(key)] *)
Definition kv_delete (key : string) (m : gmap string kv_entry)
  : gmap string kv_entry :=
  delete key m.

Definition string_le (a b : string) : Prop := String.leb a b = true.

#[global] Instance string_le_dec a b : Decision (string_le a b).
Proof. unfold string_le. apply _. Defined.

(** The [limit] handed to [kv.list]: a whole number as it is and a
    fraction by its integer part; a limit that is not a finite number
    leaves the platform default of 1000 keys. *)
Definition list_limit (limit : number) : nat :=
  match limit with
  | Whole z => Z.to_nat z
  | Fraction q => Z.to_nat (Qfloor q)
  | Infinite _ | NotANumber => 1000
  end.

(** The live keys that start with the prefix. *)
Definition matching_keys (now : Z) (prefix : string) (m : gmap string kv_entry)
  : list string :=
  filter (fun k => String.prefix prefix k = true)
    (map fst (map_to_list (filter (fun kv => kv_live now kv.2 = true) m))).

(** [kv.list({ prefix, limit }).keys]: the live keys with the prefix, in
    lexicographic order, cut at the limit. *)
Definition kv_list (now : Z) (prefix : string) (limit : number)
    (m : gmap string kv_entry) : list string :=
  take (list_limit limit) (merge_sort string_le (matching_keys now prefix m)).

(** ** The share coordinator ([ShareManager])

    Every token names its own coordinator instance, whose storage holds the
    record of that token under the token as key; the map below is the
    storage of all instances together.  [tc_expiration] is the option the
    record was put with; no path of the coordinator reads it. *)

Record tc_record : Type := {
  consumed : bool;
  tc_expiresAt : Z;
  tc_recipient : jsval
}.

Record tc_entry : Type := {
  tc_rec : tc_record;
  tc_expiration : option Z
}.

(** ** Responses *)

Record inbox_item : Type := {
  it_id : string;
  it_cipher : string;
  it_alg : jsval;
  it_cmp : jsval;
  it_meta : jsval;
  it_expiresAt : Z
}.

Inductive body : Type :=
| BNone
| BHtml (hint : string)
| BError (error : string)
| BInternal
| BUser (username : string) (publicKey : jsval)
| BRegistered (username : string) (authSecret : option string)
| BShareCreated (token shareUrl : string) (expires : Z)
| BShare (token : string) (r : share_record)
| BInboxCreated (item_id sessionId : string)
| BItems (items : list inbox_item)
| BDeleted (deleted : nat)
| BSessions (sessions : list session_record)
| BOk
| BStatus (live_recipient : jsval)
| BRequestCreated (request_id : string)
| BRequests (items : list request_record).

Record response : Type := {
  status : Z;
  resp_body : body
}.

(** [jsonResponse(status, body)] *)
Definition send (st : Z) (b : body) : response :=
  {| status := st; resp_body := b |}.

Inductive tc_request : Type :=
| TcInit (token : string) (expires : Z) (recip : jsval) (ttl : Z)
| TcStatus (token : string)
| TcConsume (token : string)
| TcOther.

(** [Math.floor(a / b)] for a positive divisor *)
Definition floor_div (a b : Z) : Z := a / b.

(** [ShareManager.fetch] *)
Definition ShareManager_fetch (now : Z) (storage : gmap string tc_entry)
    (req : tc_request) : gmap string tc_entry * response :=
  match req with
  | TcInit token expires recip ttl =>
      match storage !! token with
      | Some _ => (storage, send 409 (BError "Token already exists"))
      | None =>
          let expiration :=
            floor_div now 1000 + (if ttl =? 0 then DEFAULT_TTL else ttl) in
          (<[token := {| tc_rec := {| consumed := false;
                                      tc_expiresAt := expires;
                                      tc_recipient := recip |};
                         tc_expiration := Some expiration |}]> storage,
           send 200 BOk)
      end
  | TcStatus token =>
      match storage !! token with
      | None => (storage, send 404 (BError "Not found"))
      | Some e =>
          if consumed (tc_rec e)
          then (storage, send 410 (BError "Already consumed"))
          else (storage, send 200 (BStatus (tc_recipient (tc_rec e))))
      end
  | TcConsume token =>
      match storage !! token with
      | None => (storage, send 404 (BError "Not found"))
      | Some e =>
          if consumed (tc_rec e)
          then (storage, send 410 (BError "Already consumed"))
          else
            (<[token := {| tc_rec := {| consumed := true;
                                        tc_expiresAt := tc_expiresAt (tc_rec e);
                                        tc_recipient := tc_recipient (tc_rec e) |};
                           tc_expiration := None |}]> storage,
             send 200 BOk)
      end
  | TcOther => (storage, send 405 (BError "Method not allowed"))
  end.

(** ** Configuration, stores and the inputs of a request *)

Record env : Type := {
  ADMIN_USERS : string;
  MAX_PAYLOAD_BYTES : jsval;
  MAX_TTL : jsval;
  BASE_URL : string
}.

(** [INBOX_KV] is [None] when no separate inbox namespace is bound: the
    inbox then lives in [SHARES_KV]. *)
Record state : Type := {
  USERS_KV : gmap string user_record;
  SHARES_KV : gmap string kv_entry;
  INBOX_KV : option (gmap string kv_entry);
  SHARE_MANAGER : gmap string tc_entry
}.

Record world : Type := {
  now : Z;
  random : entropy;
  url_origin : string
}.

Definition set_users (f : gmap string user_record -> gmap string user_record)
    (st : state) : state :=
  {| USERS_KV := f (USERS_KV st); SHARES_KV := SHARES_KV st;
     INBOX_KV := INBOX_KV st; SHARE_MANAGER := SHARE_MANAGER st |}.

Definition set_shares (f : gmap string kv_entry -> gmap string kv_entry)
    (st : state) : state :=
  {| USERS_KV := USERS_KV st; SHARES_KV := f (SHARES_KV st);
     INBOX_KV := INBOX_KV st; SHARE_MANAGER := SHARE_MANAGER st |}.

Definition set_manager (m : gmap string tc_entry) (st : state) : state :=
  {| USERS_KV := USERS_KV st; SHARES_KV := SHARES_KV st;
     INBOX_KV := INBOX_KV st; SHARE_MANAGER := m |}.

(** [const inboxKV = env.INBOX_KV || env.SHARES_KV] *)
Definition inboxKV (st : state) : gmap string kv_entry :=
  match INBOX_KV st with
  | Some m => m
  | None => SHARES_KV st
  end.

Definition set_inboxKV (f : gmap string kv_entry -> gmap string kv_entry)
    (st : state) : state :=
  match INBOX_KV st with
  | Some m =>
      {| USERS_KV := USERS_KV st; SHARES_KV := SHARES_KV st;
         INBOX_KV := Some (f m); SHARE_MANAGER := SHARE_MANAGER st |}
  | None => set_shares f st
  end.

Inductive method : Type := GET | POST | OtherMethod.

(** A request, matched against the routes of [fetch] in the order of its
    chain of tests.  A body is the result of [parseJSON]: the parsed value,
    or [JNull] when the text is not JSON.  Query parameters are given as
    read by [searchParams.get(..) || '']. *)
Inductive request : Type :=
| ReqOptions
| ReqLanding (token : string)
| ReqUsers (m : method) (username : string) (body : jsval)
| ReqSharesPost (body : jsval)
| ReqInboxPost (body : jsval)
| ReqInboxPoll (recipient_param limit_param : string)
| ReqInboxAck (body : jsval)
| ReqSessionsList (sender_param secret_param limit_param : string)
| ReqRevoke (sessionId : string) (body : jsval)
| ReqRestore (sessionId : string) (body : jsval)
| ReqAccepted (sessionId : string)
| ReqDelete (sessionId : string) (body : jsval)
| ReqRequestsPost (body : jsval)
| ReqRequestsPoll (username_param secret_param limit_param : string)
| ReqRequestsAck (body : jsval)
| ReqShare (m : method) (token : string) (consume_suffix : bool)
| ReqUnrouted.

(** [new Date(t).toISOString()]: a RangeError outside the range of time
    values. *)
Definition toISOString (t : Z) : option Z :=
  if (Z.abs t <=? 8640000000000000) then Some t else None.

(** [(v || '').trim()]; [None] is the TypeError of a value without
    [trim]. *)
Definition trim_field (v : jsval) : option string :=
  match or_else v (JStr "") with
  | JStr s => Some (trim s)
  | _ => None
  end.

(** [Number(v || 0) || 0] *)
Definition number_or_zero (v : jsval) : number :=
  match Number (or_else v (JNum (Num 0))) with
  | NotANumber => Whole 0
  | n => n
  end.

(** The value that JSON text gives back for a number written into it:
    [null] for an infinity.  A fraction has no JSON value in the embedding. *)
Definition json_number (n : number) : option jsval :=
  match n with
  | Whole z => Some (JNum (Num z))
  | Infinite _ | NotANumber => Some JNull
  | Fraction _ => None
  end.

(** The stored value of [Number(v || 0) || 0]. *)
Definition stored_duration (v : jsval) : jsval :=
  match json_number (number_or_zero v) with
  | Some d => d
  | None => JNull
  end.

(** [Array.isArray(v) ? v : []] *)
Definition array_or_empty (v : jsval) : list jsval :=
  match v with
  | JArr items => items
  | _ => []
  end.

(** [s.substring(n)] *)
Definition substring_from (n : nat) (s : string) : string :=
  String.substring n (String.length s - n) s.

(** [Number(env.MAX_PAYLOAD_BYTES || DEFAULT_MAX_PAYLOAD)] *)
Definition maxPayload (e : env) : number :=
  Number (or_else (MAX_PAYLOAD_BYTES e) (JNum (Num DEFAULT_MAX_PAYLOAD))).

(** [payload.length * 0.75 > maxPayload] *)
Definition exceeds_max (payload : string) (limit : number) : bool :=
  match limit with
  | Whole m =>
      negb (Qle_bool (inject_Z (Z.of_nat (String.length payload)) * 0.75)
              (inject_Z m))
  | Fraction q =>
      negb (Qle_bool (inject_Z (Z.of_nat (String.length payload)) * 0.75) q)
  | Infinite negative => negative
  | NotANumber => false
  end.

(** [Number(env.MAX_TTL || DEFAULT_MAX_TTL)] *)
Definition max_ttl (e : env) : number :=
  Number (or_else (MAX_TTL e) (JNum (Num DEFAULT_MAX_TTL))).

(** [Number(ttlSec || DEFAULT_TTL)] *)
Definition requested_ttl (ttlSec : jsval) : number :=
  Number (or_else ttlSec (JNum (Num DEFAULT_TTL))).

(** [Math.min(Math.max(Number(ttlSec || DEFAULT_TTL), 60),
             Number(env.MAX_TTL || DEFAULT_MAX_TTL))] *)
Definition clamp_ttl (e : env) (ttlSec : jsval) : number :=
  math_min (math_max (requested_ttl ttlSec) (Num 60)) (max_ttl e).

(** [Math.max(lo, Math.min(hi, Number(param || dflt)))] *)
Definition clamp_limit (lo hi dflt : Z) (param : string) : number :=
  math_max (Num lo)
    (math_min (Num hi) (Number (or_else (JStr param) (JNum (Num dflt))))).

(** [const { ..., meta = {} } = body] *)
Definition meta_of (body : jsval) : jsval :=
  match prop_opt body "meta" with
  | JUndefined => JObj []
  | v => v
  end.

Definition as_share (v : kv_value) : option share_record :=
  match v with VShare r => Some r | _ => None end.

Definition as_inbox (v : kv_value) : option inbox_entry :=
  match v with VInbox e => Some e | _ => None end.

Definition as_session (v : kv_value) : option session_record :=
  match v with VSession s => Some s | _ => None end.

Definition as_request (v : kv_value) : option request_record :=
  match v with VRequest r => Some r | _ => None end.

Definition session_key (sessionId : string) : string :=
  "session:" ++ sessionId.

Definition index_key (sender sessionId : string) : string :=
  "sessionBySender:" ++ sender ++ ":" ++ sessionId.

Definition inbox_key (recipient : jsval) (item_id : string) : string :=
  "inbox:" ++ to_string recipient ++ ":" ++ item_id.

Definition request_key (request_id : string) : string :=
  "request:" ++ request_id.

(** [strict_ne v s] is [v !== s] for a string [s]. *)
Definition strict_ne (v : jsval) (s : string) : bool :=
  match v with
  | JStr t => negb (String.eqb t s)
  | _ => true
  end.

(** ** The request handler *)

Section Worker.

(** SHA-256 of the UTF-8 bytes of a string, in hexadecimal. *)
Variable sha256 : string -> string.

(** [hashSecret] *)
Definition hashSecret (secret : jsval) : string := sha256 (to_string secret).

(** [verifyAuth] *)
Definition verifyAuth (st : state) (username authSecret : string) : bool :=
  if negb (validateUsername (JStr username)) || String.eqb authSecret ""
  then false
  else
    match USERS_KV st !! username with
    | None => false
    | Some record =>
        if String.eqb (u_authHash record) "" then false
        else String.eqb (hashSecret (JStr authSecret)) (u_authHash record)
    end.

(** [requireAdmin] *)
Definition requireAdmin (e : env) (st : state) (user secret : string) : bool :=
  let admins := parseAdmins (ADMIN_USERS e) in
  let wildcard := (length admins =? 0)%nat || includes admins "*" in
  if negb wildcard && negb (includes admins user) then false
  else verifyAuth st user secret.

Definition users_route (w : world) (st : state) (m : method)
    (username : string) (body : jsval) : state * response :=
  if negb (validateUsername (JStr username))
  then (st, send 400 (BError "Invalid username"))
  else
    match m with
    | GET =>
        match USERS_KV st !! username with
        | None => (st, send 404 (BError "Not found"))
        | Some entry => (st, send 200 (BUser username (u_publicKey entry)))
        end
    | POST =>
        if negb (truthy body) || negb (truthy (prop_opt body "publicKey"))
        then (st, send 400 (BError "publicKey is required"))
        else
          let existing := USERS_KV st !! username in
          let authSecret := or_else (prop_opt body "authSecret") (JStr "") in
          let store (secret : jsval) (disclosed : option string) :=
            (set_users
               (insert username
                  {| u_username := username;
                     u_publicKey := prop_opt body "publicKey";
                     u_authHash := hashSecret secret;
                     u_updatedAt := now w |}) st,
             send 200 (BRegistered username disclosed)) in
          match existing with
          | Some record =>
              if negb (truthy authSecret)
              then (st, send 403 (BError "authSecret required to update key"))
              else if negb (String.eqb (hashSecret authSecret) (u_authHash record))
              then (st, send 403 (BError "authSecret mismatch"))
              else store authSecret None
          | None =>
              let secret := fst (randomSecret 32 (random w)) in
              store (JStr secret) (Some secret)
          end
    | OtherMethod => (st, send 405 (BError "Method not allowed"))
    end.

Definition default_alg (v : jsval) : jsval :=
  or_else v (JStr "ecdh-hkdf-aesgcm").

(** The value put under the token:
    [{ cipher: payload, alg: shareMeta.alg, cmp: shareMeta.cmp,
       meta: shareMeta.meta }] *)
Definition stored_share (body meta : jsval) (payload : string) : share_record :=
  {| sh_cipher := payload;
     sh_alg := default_alg (prop_opt body "alg");
     sh_cmp := or_else (prop_opt body "cmp") JNull;
     sh_meta := JObj [
       ("targetOrigin", or_else (prop_opt meta "targetOrigin") JNull);
       ("targetPath", or_else (prop_opt meta "targetPath") (JStr "/"));
       ("comment", or_else (prop_opt meta "comment") JNull);
       ("sender", or_else (prop_opt meta "sender") JNull)] |}.

Definition shares_post (e : env) (w : world) (st : state) (body : jsval)
  : state * response :=
  if negb (truthy body) then (st, send 400 (BError "Invalid JSON body"))
  else
    let recipient := prop_opt body "recipient" in
    let cipher := prop_opt body "cipher" in
    let meta := meta_of body in
    if negb (validateUsername recipient)
    then (st, send 400 (BError "Invalid recipient"))
    else
      let payload := match cipher with JStr c => c | _ => "" end in
      if String.eqb payload ""
      then (st, send 400 (BError "Cipher is required"))
      else if exceeds_max payload (maxPayload e)
      then (st, send 400 (BError "Cipher exceeds maximum size"))
      else
        match USERS_KV st !! to_string recipient with
        | None => (st, send 404 (BError "Recipient not registered"))
        | Some _ =>
            let token := fst (generateToken 24 (random w)) in
            match clamp_ttl e (prop_opt body "ttlSec"), prop meta "targetOrigin" with
            | Whole ttl, Some _ =>
                match toISOString (now w + ttl * 1000) with
                | None => (st, send 500 BInternal)
                | Some expires =>
                    let share := stored_share body meta payload in
                    let st1 := set_shares (kv_put (now w) token (VShare share) ttl) st in
                    let manager :=
                      fst (ShareManager_fetch (now w) (SHARE_MANAGER st1)
                             (TcInit token expires recipient ttl)) in
                    (set_manager manager st1,
                     send 201
                       (BShareCreated token
                          ((if String.eqb (BASE_URL e) "" then url_origin w
                            else BASE_URL e) ++ "/session/" ++ token)
                          expires))
                end
            | _, _ => (st, send 500 BInternal)
            end
        end.

(** [(meta.sender || '').trim()]: the empty string stands for the [null]
    that [... || null] makes of it; [None] is a TypeError ([meta] is
    [null], or [meta.sender] has no [trim]). *)
Definition sender_of (meta : jsval) : option string :=
  match prop meta "sender" with
  | Some v => trim_field v
  | None => None
  end.

(** The inbox entry of POST /v1/inbox; [sender] is the trimmed
    [meta.sender], empty for [null]. *)
Definition share_entry (body meta : jsval) (payload sender sessionId : string)
    (t expires : Z) : inbox_entry :=
  {| in_cipher := payload;
     in_alg := default_alg (prop_opt body "alg");
     in_cmp := or_else (prop_opt body "cmp") JNull;
     in_meta := JObj [
       ("targetOrigin", or_else (prop_opt meta "targetOrigin") JNull);
       ("targetPath", or_else (prop_opt meta "targetPath") (JStr "/"));
       ("comment", or_else (prop_opt meta "comment") JNull);
       ("sender", if String.eqb sender "" then JNull else JStr sender);
       ("sessionDurationSec",
        stored_duration (prop_opt meta "sessionDurationSec"));
       ("sessionId", JStr sessionId);
       ("type", JStr "share")];
     in_createdAt := t;
     in_expiresAt := expires |}.

(** The [sessionRecord] of POST /v1/inbox. *)
Definition new_session (body meta recipient : jsval)
    (payload sender sessionId : string) (t expires : Z) : session_record :=
  {| session_id := sessionId;
     sender := sender;
     recipient := recipient;
     targetOrigin := or_else (prop_opt meta "targetOrigin") JNull;
     targetPath := or_else (prop_opt meta "targetPath") (JStr "/");
     createdAt := t;
     durationSec := stored_duration (prop_opt meta "sessionDurationSec");
     expiresAt := expires;
     acceptedAt := None;
     revokedAt := None;
     restoredAt := None;
     cipher := payload;
     alg := default_alg (prop_opt body "alg");
     cmp := or_else (prop_opt body "cmp") JNull |}.

Definition inbox_post (e : env) (w : world) (st : state) (body : jsval)
  : state * response :=
  if negb (truthy body) then (st, send 400 (BError "Invalid JSON body"))
  else
    let recipient := prop_opt body "recipient" in
    let cipher := prop_opt body "cipher" in
    let meta := meta_of body in
    if negb (validateUsername recipient)
    then (st, send 400 (BError "Invalid recipient"))
    else
      let payload := match cipher with JStr c => c | _ => "" end in
      if String.eqb payload ""
      then (st, send 400 (BError "Cipher is required"))
      else if exceeds_max payload (maxPayload e)
      then (st, send 400 (BError "Cipher exceeds maximum size"))
      else
        match USERS_KV st !! to_string recipient with
        | None => (st, send 404 (BError "Recipient not registered"))
        | Some _ =>
            let (item_id, e1) := generateToken 20 (random w) in
            let sessionId := fst (generateToken 20 e1) in
            match clamp_ttl e (prop_opt body "ttlSec"), sender_of meta with
            | Whole ttl, Some sender =>
                match toISOString (now w + ttl * 1000),
                      json_number
                        (number_or_zero (prop_opt meta "sessionDurationSec")) with
                | None, _ | _, None => (st, send 500 BInternal)
                | Some expires, Some _ =>
                    let entry :=
                      share_entry body meta payload sender sessionId (now w) expires in
                    let st1 :=
                      set_inboxKV
                        (kv_put (now w) (inbox_key recipient item_id) (VInbox entry) ttl)
                        st in
                    let st2 :=
                      if String.eqb sender "" then st1
                      else
                        let sessionRecord :=
                          new_session body meta recipient payload sender sessionId
                            (now w) expires in
                        set_shares
                          (kv_put (now w) (index_key sender sessionId) VIndex ttl)
                          (set_shares
                             (kv_put (now w) (session_key sessionId)
                                (VSession sessionRecord) ttl) st1) in
                    (st2, send 201 (BInboxCreated item_id sessionId))
                end
            | _, _ => (st, send 500 BInternal)
            end
        end.

Definition inbox_poll (w : world) (st : state)
    (recipient_param limit_param : string) : state * response :=
  let recipient := trim recipient_param in
  let limit := clamp_limit 1 25 10 limit_param in
  if negb (validateUsername (JStr recipient))
  then (st, send 400 (BError "Invalid recipient"))
  else
    let prefix := "inbox:" ++ recipient ++ ":" in
    let keys := kv_list (now w) prefix limit (inboxKV st) in
    let items :=
      omap (fun k =>
              match kv_get (now w) k (inboxKV st) with
              | Some (VInbox stored) =>
                  Some {| it_id := substring_from (String.length prefix) k;
                          it_cipher := in_cipher stored;
                          it_alg := in_alg stored;
                          it_cmp := in_cmp stored;
                          it_meta := in_meta stored;
                          it_expiresAt := in_expiresAt stored |}
              | _ => None
              end) keys in
    (st, send 200 (BItems items)).

Definition inbox_ack (st : state) (body : jsval) : state * response :=
  match trim_field (prop_opt body "recipient") with
  | None => (st, send 500 BInternal)
  | Some recipient =>
      let ids := array_or_empty (prop_opt body "ids") in
      if negb (validateUsername (JStr recipient))
      then (st, send 400 (BError "Invalid recipient"))
      else if (length ids =? 0)%nat
      then (st, send 400 (BError "ids is required"))
      else
        let prefix := "inbox:" ++ recipient ++ ":" in
        (fold_left
           (fun acc item => set_inboxKV (kv_delete (prefix ++ to_string item)) acc)
           ids st,
         send 200 (BDeleted (length ids)))
  end.

Definition sessions_list (e : env) (w : world) (st : state)
    (sender_param secret_param limit_param : string) : state * response :=
  let sender := trim sender_param in
  let authSecret := trim secret_param in
  let limit := clamp_limit 1 100 50 limit_param in
  if negb (validateUsername (JStr sender))
  then (st, send 400 (BError "Invalid sender"))
  else if negb (requireAdmin e st sender authSecret)
  then (st, send 403 (BError "Forbidden"))
  else
    let prefix := "sessionBySender:" ++ sender ++ ":" in
    let keys := kv_list (now w) prefix limit (SHARES_KV st) in
    let sessions :=
      omap (fun k =>
              match kv_get (now w)
                      (session_key (substring_from (String.length prefix) k))
                      (SHARES_KV st) with
              | Some v => as_session v
              | None => None
              end) keys in
    (st, send 200 (BSessions sessions)).

(** The checks shared by revoke, restore and delete, up to the ownership
    test; the continuation receives the admin and the session record. *)
Definition with_owned_session (e : env) (w : world) (st : state)
    (sessionId : string) (body : jsval)
    (k : string -> session_record -> state * response) : state * response :=
  match trim_field (prop_opt body "username"),
        trim_field (prop_opt body "authSecret") with
  | Some adminUser, Some authSecret =>
      if String.eqb sessionId "" || negb (validateUsername (JStr adminUser))
      then (st, send 400 (BError "Bad request"))
      else if negb (requireAdmin e st adminUser authSecret)
      then (st, send 403 (BError "Forbidden"))
      else
        match kv_get (now w) (session_key sessionId) (SHARES_KV st) with
        | Some (VSession session) =>
            if negb (String.eqb (sender session) adminUser)
            then (st, send 403 (BError "Forbidden"))
            else k adminUser session
        | _ => (st, send 404 (BError "Not found"))
        end
  | _, _ => (st, send 500 BInternal)
  end.

(** [Math.floor((new Date(session.expiresAt).getTime() - Date.now()) / 1000)] *)
Definition remaining_sec (w : world) (session : session_record) : Z :=
  floor_div (expiresAt session - now w) 1000.

Definition set_revokedAt (t : Z) (s : session_record) : session_record :=
  {| session_id := session_id s; sender := sender s; recipient := recipient s;
     targetOrigin := targetOrigin s; targetPath := targetPath s;
     createdAt := createdAt s; durationSec := durationSec s;
     expiresAt := expiresAt s; acceptedAt := acceptedAt s;
     revokedAt := Some t; restoredAt := restoredAt s;
     cipher := cipher s; alg := alg s; cmp := cmp s |}.

Definition set_restoredAt (t : Z) (s : session_record) : session_record :=
  {| session_id := session_id s; sender := sender s; recipient := recipient s;
     targetOrigin := targetOrigin s; targetPath := targetPath s;
     createdAt := createdAt s; durationSec := durationSec s;
     expiresAt := expiresAt s; acceptedAt := acceptedAt s;
     revokedAt := revokedAt s; restoredAt := Some t;
     cipher := cipher s; alg := alg s; cmp := cmp s |}.

Definition set_acceptedAt (t : Z) (s : session_record) : session_record :=
  {| session_id := session_id s; sender := sender s; recipient := recipient s;
     targetOrigin := targetOrigin s; targetPath := targetPath s;
     createdAt := createdAt s; durationSec := durationSec s;
     expiresAt := expiresAt s; acceptedAt := Some t;
     revokedAt := revokedAt s; restoredAt := restoredAt s;
     cipher := cipher s; alg := alg s; cmp := cmp s |}.

(** The control message of revoke. *)
Definition revoke_entry (sessionId adminUser : string) (session : session_record)
    (t : Z) : inbox_entry :=
  {| in_cipher := "";
     in_alg := JNull;
     in_cmp := JNull;
     in_meta := JObj [
       ("type", JStr "revoke");
       ("sessionId", JStr sessionId);
       ("targetOrigin", or_else (targetOrigin session) JNull);
       ("sender", JStr adminUser)];
     in_createdAt := t;
     in_expiresAt := expiresAt session |}.

(** The original share, enqueued again by restore; the duration of a
    stored session is a whole number or [null]. *)
Definition restore_entry (session : session_record) (t : Z) : inbox_entry :=
  {| in_cipher := cipher session;
     in_alg := default_alg (alg session);
     in_cmp := or_else (cmp session) JNull;
     in_meta := JObj [
       ("targetOrigin", or_else (targetOrigin session) JNull);
       ("targetPath", or_else (targetPath session) (JStr "/"));
       ("comment", JNull);
       ("sender", JStr (sender session));
       ("sessionDurationSec", stored_duration (durationSec session));
       ("sessionId", JStr (session_id session));
       ("type", JStr "share")];
     in_createdAt := t;
     in_expiresAt := expiresAt session |}.

Definition session_revoke (e : env) (w : world) (st : state)
    (sessionId : string) (body : jsval) : state * response :=
  with_owned_session e w st sessionId body (fun adminUser session =>
    let inboxId := fst (generateToken 16 (random w)) in
    let inboxKey := inbox_key (recipient session) inboxId in
    let ttlLeftSec := Z.max 60 (remaining_sec w session) in
    let entry := revoke_entry sessionId adminUser session (now w) in
    let st1 := set_inboxKV (kv_put (now w) inboxKey (VInbox entry) ttlLeftSec) st in
    (set_shares
       (kv_put (now w) (session_key sessionId)
          (VSession (set_revokedAt (now w) session)) ttlLeftSec) st1,
     send 200 BOk)).

Definition session_restore (e : env) (w : world) (st : state)
    (sessionId : string) (body : jsval) : state * response :=
  with_owned_session e w st sessionId body (fun adminUser session =>
    let ttlLeftSec := remaining_sec w session in
    if negb (60 <? ttlLeftSec)
    then (st, send 410 (BError "Session expired"))
    else if String.eqb (cipher session) ""
    then (st, send 409 (BError "Original payload unavailable"))
    else
      let inboxId := fst (generateToken 16 (random w)) in
      let inboxKey := inbox_key (recipient session) inboxId in
      let entry := restore_entry session (now w) in
      let st1 := set_inboxKV (kv_put (now w) inboxKey (VInbox entry) ttlLeftSec) st in
      (set_shares
         (kv_put (now w) (session_key sessionId)
            (VSession (set_restoredAt (now w) session)) ttlLeftSec) st1,
       send 200 BOk)).

Definition session_accepted (w : world) (st : state) (sessionId : string)
  : state * response :=
  if String.eqb sessionId "" then (st, send 400 (BError "Bad request"))
  else
    match kv_get (now w) (session_key sessionId) (SHARES_KV st) with
    | Some (VSession session) =>
        match acceptedAt session with
        | Some _ => (st, send 200 BOk)
        | None =>
            let ttlLeftSec := Z.max 60 (remaining_sec w session) in
            (set_shares
               (kv_put (now w) (session_key sessionId)
                  (VSession (set_acceptedAt (now w) session)) ttlLeftSec) st,
             send 200 BOk)
        end
    | _ => (st, send 404 (BError "Not found"))
    end.

Definition session_delete (e : env) (w : world) (st : state)
    (sessionId : string) (body : jsval) : state * response :=
  with_owned_session e w st sessionId body (fun adminUser session =>
    (set_shares (kv_delete (index_key (sender session) sessionId))
       (set_shares (kv_delete (session_key sessionId)) st),
     send 200 BOk)).

Definition requests_post (e : env) (w : world) (st : state) (body : jsval)
  : state * response :=
  match trim_field (prop_opt body "username"),
        trim_field (prop_opt body "authSecret"),
        trim_field (prop_opt body "origin"),
        trim_field (prop_opt body "url"),
        trim_field (prop_opt body "targetAdmin") with
  | Some requester, Some authSecret, Some origin, Some pageUrl, Some targetAdmin =>
      if negb (validateUsername (JStr requester)) || String.eqb origin ""
      then (st, send 400 (BError "Bad request"))
      else if negb (validateUsername (JStr targetAdmin))
      then (st, send 400
                  (BError "targetAdmin is required and must be a valid username"))
      else
        let allowedAdmins := parseAdmins (ADMIN_USERS e) in
        let wildcardAdmins :=
          (length allowedAdmins =? 0)%nat || includes allowedAdmins "*" in
        if negb wildcardAdmins && negb (includes allowedAdmins targetAdmin)
        then (st, send 403 (BError "Admin not allowed"))
        else if negb (verifyAuth st requester authSecret)
        then (st, send 403 (BError "Forbidden"))
        else
          let request_id := fst (generateToken 16 (random w)) in
          let ttl := 15 * 60 in
          let rec := {|
            rq_id := request_id;
            rq_requester := requester;
            rq_origin := origin;
            rq_url := or_else (JStr pageUrl) JNull;
            rq_createdAt := now w;
            rq_targetAdmin := or_else (JStr targetAdmin) JNull |} in
          (set_shares (kv_put (now w) (request_key request_id) (VRequest rec) ttl) st,
           send 201 (BRequestCreated request_id))
  | _, _, _, _, _ => (st, send 500 BInternal)
  end.

(** The test of the polling loop:
    [rec.targetAdmin && rec.targetAdmin !== adminUser] skips the record. *)
Definition hidden_from (adminUser : string) (rec : request_record) : bool :=
  truthy (rq_targetAdmin rec) && strict_ne (rq_targetAdmin rec) adminUser.

(** A request record stored and live under a [request:] key. *)
Definition stored_request (w : world) (st : state) (rec : request_record) : Prop :=
  exists k e,
    String.prefix "request:" k = true
    /\ SHARES_KV st !! k = Some e
    /\ kv_live (now w) e = true
    /\ kv_val e = VRequest rec.

(** The records read back for the listed keys ([if (!rec) continue]). *)
Definition listed_requests (w : world) (st : state) (limit : number)
  : list request_record :=
  omap (fun k =>
          match kv_get (now w) k (SHARES_KV st) with
          | Some v => as_request v
          | None => None
          end)
       (kv_list (now w) "request:" limit (SHARES_KV st)).

Definition requests_poll (e : env) (w : world) (st : state)
    (username_param secret_param limit_param : string) : state * response :=
  let adminUser := trim username_param in
  let authSecret := trim secret_param in
  let limit := clamp_limit 1 100 25 limit_param in
  if negb (requireAdmin e st adminUser authSecret)
  then (st, send 403 (BError "Forbidden"))
  else
    (st, send 200
           (BRequests
              (filter (fun rec => hidden_from adminUser rec = false)
                 (listed_requests w st limit)))).

Definition requests_ack (e : env) (st : state) (body : jsval)
  : state * response :=
  match trim_field (prop_opt body "username"),
        trim_field (prop_opt body "authSecret") with
  | Some adminUser, Some authSecret =>
      let ids := array_or_empty (prop_opt body "ids") in
      if negb (requireAdmin e st adminUser authSecret)
      then (st, send 403 (BError "Forbidden"))
      else if (length ids =? 0)%nat
      then (st, send 400 (BError "ids is required"))
      else
        (fold_left
           (fun acc item => set_shares (kv_delete ("request:" ++ to_string item)) acc)
           ids st,
         send 200 (BDeleted (length ids)))
  | _, _ => (st, send 500 BInternal)
  end.

(** The routes under [/v1/shares/]: status through the coordinator, then
    the stored cipher (GET), or the single consume (POST .../consume). *)
Definition share_route (w : world) (st : state) (m : method) (token : string)
    (consume_suffix : bool) : state * response :=
  if String.eqb token "" then (st, send 400 (BError "Token required"))
  else
    match m, consume_suffix with
    | GET, _ =>
        let (manager, doResp) :=
          ShareManager_fetch (now w) (SHARE_MANAGER st) (TcStatus token) in
        let st1 := set_manager manager st in
        if negb (status doResp =? 200)
        then (st1, send (status doResp) (resp_body doResp))
        else
          match kv_get (now w) token (SHARES_KV st1) with
          | Some (VShare stored) => (st1, send 200 (BShare token stored))
          | _ => (st1, send 404 (BError "Not found"))
          end
    | POST, true =>
        let (manager, doResp) :=
          ShareManager_fetch (now w) (SHARE_MANAGER st) (TcConsume token) in
        let st1 := set_manager manager st in
        if negb (status doResp =? 200)
        then (st1, send (status doResp) (resp_body doResp))
        else (set_shares (kv_delete token) st1, send 204 BNone)
    | _, _ => (st, send 405 (BError "Method not allowed"))
    end.

(** [token ? token.slice(0, 8) + '…' : 'unknown'] *)
Definition landing_hint (token : string) : string :=
  if String.eqb token "" then "unknown"
  else String.substring 0 8 token ++ "…".

(** [fetch] *)
Definition fetch (e : env) (w : world) (st : state) (req : request)
  : state * response :=
  match req with
  | ReqOptions => (st, send 204 BNone)
  | ReqLanding token => (st, send 200 (BHtml (landing_hint token)))
  | ReqUsers m username body => users_route w st m username body
  | ReqSharesPost body => shares_post e w st body
  | ReqInboxPost body => inbox_post e w st body
  | ReqInboxPoll recipient_param limit_param =>
      inbox_poll w st recipient_param limit_param
  | ReqInboxAck body => inbox_ack st body
  | ReqSessionsList sender_param secret_param limit_param =>
      sessions_list e w st sender_param secret_param limit_param
  | ReqRevoke sessionId body => session_revoke e w st sessionId body
  | ReqRestore sessionId body => session_restore e w st sessionId body
  | ReqAccepted sessionId => session_accepted w st sessionId
  | ReqDelete sessionId body => session_delete e w st sessionId body
  | ReqRequestsPost body => requests_post e w st body
  | ReqRequestsPoll username_param secret_param limit_param =>
      requests_poll e w st username_param secret_param limit_param
  | ReqRequestsAck body => requests_ack e st body
  | ReqShare m token consume_suffix => share_route w st m token consume_suffix
  | ReqUnrouted => (st, send 404 (BError "Not found"))
  end.

(** Running the worker over a sequence of requests, each with the clock and
    the random bytes it observes. *)
Fixpoint run (e : env) (st : state) (reqs : list (world * request))
  : state * list response :=
  match reqs with
  | [] => (st, [])
  | (w, req) :: rest =>
      let (st1, r) := fetch e w st req in
      let (st2, rs) := run e st1 rest in
      (st2, r :: rs)
  end.

End Worker.

(** ** Traces of the coordinator *)

(** The coordinator run over a sequence of calls, each with its clock. *)
Fixpoint tc_run (storage : gmap string tc_entry) (calls : list (Z * tc_request))
  : gmap string tc_entry * list response :=
  match calls with
  | [] => (storage, [])
  | (t, req) :: rest =>
      let (s1, r) := ShareManager_fetch t storage req in
      let (s2, rs) := tc_run s1 rest in
      (s2, r :: rs)
  end.

Definition is_consume_of (token : string) (call : Z * tc_request) : bool :=
  match call.2 with
  | TcConsume t => String.eqb t token
  | _ => false
  end.

(** The number of consume calls on [token] in the trace answered by 200. *)
Definition consume_successes (token : string) (storage : gmap string tc_entry)
    (calls : list (Z * tc_request)) : nat :=
  length
    (filter (fun cr => is_consume_of token cr.1 = true /\ status cr.2 = 200)
       (zip calls (tc_run storage calls).2)).

Definition tc_consumed (storage : gmap string tc_entry) (token : string) : Prop :=
  exists e, storage !! token = Some e /\ consumed (tc_rec e) = true.

(** ** Identifier formats *)

Definition is_hex (c : ascii) : bool :=
  let n := N_of_ascii c in
  ((48 <=? n) && (n <=? 57) || (97 <=? n) && (n <=? 102))%N.

Definition all_hex (s : string) : bool :=
  forallb is_hex (list_ascii_of_string s).

(** [s] is [n] hexadecimal characters. *)
Definition hex_id (n : nat) (s : string) : Prop :=
  String.length s = n /\ all_hex s = true.

(** ** Reachable states

    A deployment starts with empty stores, with or without a separate inbox
    namespace, and moves by requests.  A run has new identifiers when every
    share token drawn is unknown to the coordinator and every session id
    drawn has no record yet. *)

Definition initial (separate_inbox : bool) : state :=
  {| USERS_KV := ∅;
     SHARES_KV := ∅;
     INBOX_KV := if separate_inbox then Some ∅ else None;
     SHARE_MANAGER := ∅ |}.

Definition new_ids (st : state) (w : world) (req : request) : bool :=
  match req with
  | ReqSharesPost _ =>
      bool_decide (SHARE_MANAGER st !! (generateToken 24 (random w)).1 = None)
  | ReqInboxPost _ =>
      bool_decide
        (SHARES_KV st
           !! session_key (generateToken 20 (generateToken 20 (random w)).2).1
         = None)
  | _ => true
  end.

Section Reachability.

Variable sha256 : string -> string.

(** The states reached from an empty deployment; with [fresh] set, by
    runs with new identifiers only. *)
Inductive reachable (fresh : bool) (e : env) : state -> Prop :=
| reachable_initial separate_inbox : reachable fresh e (initial separate_inbox)
| reachable_step st w req :
    reachable fresh e st ->
    (fresh = true -> new_ids st w req = true) ->
    reachable fresh e (fetch sha256 e w st req).1.

(** The check that a run has new identifiers. *)
Fixpoint new_ids_run (e : env) (st : state) (reqs : list (world * request))
  : bool :=
  match reqs with
  | [] => true
  | (w, req) :: rest =>
      new_ids st w req && new_ids_run e (fetch sha256 e w st req).1 rest
  end.

End Reachability.

(** The view of a state the invariants speak about: the shares namespace
    and the coordinator storage. *)
Definition stores : Type := gmap string kv_entry * gmap string tc_entry.

Definition stores_of (st : state) : stores := (SHARES_KV st, SHARE_MANAGER st).

(** A key that starts with a hexadecimal character, as share tokens do
    and the prefixed keys do not. *)
Definition hex_headed (k : string) : Prop :=
  match k with
  | String c _ => is_hex c = true
  | EmptyString => False
  end.

(** A key of an inbox item or of an access request. *)
Definition plain_key (k : string) : Prop :=
  String.prefix "inbox:" k = true \/ String.prefix "request:" k = true.

(** An inbox entry under an [inbox:] key, or a request under a [request:]
    key. *)
Definition plain_pair (k : string) (v : kv_value) : Prop :=
  match v with
  | VInbox _ => String.prefix "inbox:" k = true
  | VRequest _ => String.prefix "request:" k = true
  | _ => False
  end.

(** The ways in which a request changes the two stores.  With [fresh] set,
    a new share comes with a token the coordinator does not know, and a new
    session with an id that has no record. *)
Inductive update (fresh : bool) : stores -> stores -> Prop :=
| up_put m tc t k v ttl :
    plain_pair k v ->
    update fresh (m, tc) (kv_put t k v ttl m, tc)
| up_delete m tc k :
    plain_key k ->
    update fresh (m, tc) (kv_delete k m, tc)
| up_share m tc t token r ttl recip :
    hex_headed token ->
    (fresh = true -> tc !! token = None) ->
    update fresh (m, tc)
      (kv_put t token (VShare r) ttl m,
       (ShareManager_fetch t tc (TcInit token (t + ttl * 1000) recip ttl)).1)
| up_consume m tc t token :
    status (ShareManager_fetch t tc (TcConsume token)).2 = 200 ->
    update fresh (m, tc)
      (kv_delete token m, (ShareManager_fetch t tc (TcConsume token)).1)
| up_session m tc t x s ttl :
    hex_id 40 x -> session_id s = x -> sender s <> "" ->
    expiresAt s = t + ttl * 1000 ->
    (fresh = true -> m !! session_key x = None) ->
    update fresh (m, tc)
      (kv_put t (index_key (sender s) x) VIndex ttl
         (kv_put t (session_key x) (VSession s) ttl m), tc)
| up_rewrite m tc t x e0 s0 s' ttl :
    m !! session_key x = Some e0 -> kv_val e0 = VSession s0 ->
    session_id s' = session_id s0 -> sender s' = sender s0 ->
    expiresAt s' = expiresAt s0 ->
    expiresAt s0 - 1000 < t + 1000 * ttl ->
    update fresh (m, tc) (kv_put t (session_key x) (VSession s') ttl m, tc)
| up_forget m tc x e0 s0 :
    m !! session_key x = Some e0 -> kv_val e0 = VSession s0 ->
    update fresh (m, tc)
      (kv_delete (index_key (sender s0) x) (kv_delete (session_key x) m), tc).

(** Every stored session record sits under its own key, has a 40-hex id
    and a sender, and has its index entry; the index entry expires at the
    session's [expiresAt], the record itself later than one second before
    that. *)
Definition sessions_ok (m : gmap string kv_entry) : Prop :=
  forall k e s,
    m !! k = Some e -> kv_val e = VSession s ->
    k = session_key (session_id s)
    /\ hex_id 40 (session_id s)
    /\ sender s <> ""
    /\ expiresAt s - 1000 < kv_expires e
    /\ exists ie,
         m !! index_key (sender s) (session_id s) = Some ie
         /\ kv_val ie = VIndex
         /\ kv_expires ie = expiresAt s.

(** Every index entry belongs to a stored session of that sender. *)
Definition indexes_ok (m : gmap string kv_entry) : Prop :=
  forall a x ie,
    hex_id 40 x ->
    m !! index_key a x = Some ie -> kv_val ie = VIndex ->
    exists e s,
      m !! session_key x = Some e /\ kv_val e = VSession s /\ sender s = a.

(** Keys hold values of their own shape. *)
Definition typed_ok (m : gmap string kv_entry) : Prop :=
  forall k e,
    m !! k = Some e ->
    match kv_val e with
    | VShare _ => hex_headed k
    | VInbox _ | VRequest _ => plain_pair k (kv_val e)
    | VSession s => k = session_key (session_id s)
    | VIndex => exists a x, k = index_key a x /\ hex_id 40 x
    end.

(** The coordinator knows hex-headed tokens only. *)
Definition tokens_ok (tc : gmap string tc_entry) : Prop :=
  forall token te, tc !! token = Some te -> hex_headed token.

(** The share record of a token is stored iff the token is known to the
    coordinator and not consumed; it expires at the token's [expiresAt]. *)
Definition shares_ok (m : gmap string kv_entry) (tc : gmap string tc_entry)
  : Prop :=
  (forall token te,
      tc !! token = Some te ->
      if consumed (tc_rec te) then m !! token = None
      else exists e r,
          m !! token = Some e /\ kv_val e = VShare r
          /\ kv_expires e = tc_expiresAt (tc_rec te))
  /\ (forall k e r,
        m !! k = Some e -> kv_val e = VShare r -> is_Some (tc !! k)).

(** The invariant of the stores: for every run, tokens, sessions and the
    typing of keys; for runs with new identifiers, also the index entries
    and the share records. *)
Definition store_invariant (fresh : bool) (σ : stores) : Prop :=
  tokens_ok σ.2 /\ sessions_ok σ.1 /\ typed_ok σ.1
  /\ (fresh = true -> indexes_ok σ.1 /\ shares_ok σ.1 σ.2).

(** ** CORS headers *)

(** [corsHeaders(env, origin)]: [allowed_origins] is
    [env.ALLOWED_ORIGINS || ''], [origin] the [Origin] header of the
    request, [None] when there is none ([headers.get] gives [null]).  The
    result lists the properties of the returned object in order. *)
Definition corsHeaders (allowed_origins : string) (origin : option string)
  : list (string * string) :=
  let allowed :=
    filter (fun o => o <> "") (map trim (split "," allowed_origins)) in
  if includes allowed "*"
  then
    [("Access-Control-Allow-Origin",
      match origin with
      | Some o => if String.eqb o "" then "*" else o
      | None => "*"
      end);
     ("Access-Control-Allow-Credentials", "true")]
  else
    match origin with
    | Some o =>
        if negb (String.eqb o "") && includes allowed o
        then [("Access-Control-Allow-Origin", o);
              ("Access-Control-Allow-Credentials", "true")]
        else []
    | None => []
    end.

(** The characters of the base64 alphabet. *)
Definition is_base64 (c : ascii) : bool :=
  is_alnum c || Ascii.eqb c "+" || Ascii.eqb c "/".

(** ** The encoding helpers of the extensions' crypto module *)

(** [bufferToBase64(buffer)]: [btoa] of the bytes as a binary string,
    without the trailing [=]. *)
Definition bufferToBase64 (bytes : list byte) : string :=
  string_of_list_ascii (rev (drop_eq (rev (btoa (map Byte.to_N bytes))))).

(** ASCII white space: TAB, LF, FF, CR and SPACE. *)
Definition is_ascii_space (c : ascii) : bool :=
  let n := N_of_ascii c in
  ((n =? 9) || (n =? 10) || (n =? 12) || (n =? 13) || (n =? 32))%N.

(** The value of a character of the base64 alphabet. *)
Definition b64_value (c : ascii) : option N :=
  let n := N_of_ascii c in
  if ((65 <=? n) && (n <=? 90))%N then Some (n - 65)%N
  else if ((97 <=? n) && (n <=? 122))%N then Some (n - 71)%N
  else if ((48 <=? n) && (n <=? 57))%N then Some (n + 4)%N
  else if (n =? 43)%N then Some 62%N
  else if (n =? 47)%N then Some 63%N
  else None.

(** One or two [=] at the end are removed. *)
Definition strip_padding (data : list ascii) : list ascii :=
  match rev data with
  | "="%char :: "="%char :: r => rev r
  | "="%char :: r => rev r
  | _ => data
  end.

(** Groups of four 6-bit values give three bytes; a rest of three gives
    two bytes and a rest of two gives one, the spare bits dropped. *)
Fixpoint b64_bytes (sextets : list N) : list N :=
  match sextets with
  | a :: b :: c :: d :: r =>
      (a * 4 + b / 16) :: ((b mod 16) * 16 + c / 4) :: ((c mod 4) * 64 + d)
      :: b64_bytes r
  | [a; b; c] => [a * 4 + b / 16; (b mod 16) * 16 + c / 4]
  | [a; b] => [a * 4 + b / 16]
  | _ => []
  end%N.

(** [atob(s)], the forgiving base64 decoding of the platform: white space
    is dropped, padding is removed from a length that is a multiple of
    four, a length of 1 modulo 4 or a character outside the alphabet is an
    error ([None], the InvalidCharacterError).  The result is the binary
    string, as its character codes. *)
Definition atob (s : string) : option (list N) :=
  let data :=
    List.filter (fun c => negb (is_ascii_space c)) (list_ascii_of_string s) in
  let data :=
    if (length data mod 4 =? 0)%nat then strip_padding data else data in
  if (length data mod 4 =? 1)%nat then None
  else
    match mapM b64_value data with
    | Some sextets => Some (b64_bytes sextets)
    | None => None
    end.

(** [base64ToUint8(base64)]: the character codes of [atob(base64)] as
    bytes. *)
Definition base64ToUint8 (base64 : string) : option (list byte) :=
  match atob base64 with
  | Some binary =>
      Some (map (fun n => default x00 (Byte.of_N (n mod 256))) binary)
  | None => None
  end.

(** ** Stored payloads *)

(** What a share record and a session record hold when they are written:
    a cipher that is not empty. *)
Definition payload_ok (v : kv_value) : Prop :=
  match v with
  | VShare r => sh_cipher r <> ""
  | VSession s => cipher s <> ""
  | _ => True
  end.

Definition payloads_ok (m : gmap string kv_entry) : Prop :=
  forall k e, m !! k = Some e -> payload_ok (kv_val e).

(** ** A concrete deployment

    A stand-in for SHA-256, a configuration, an empty deployment and a few
    requests, for running the handler on concrete inputs. *)

Module Scenario.

Definition digest (s : string) : string := "sha256(" ++ s ++ ")".

(** Random bytes k, k+1, k+2, ... *)
Definition counting (k : nat) : entropy :=
  fun i =>
    match Byte.of_N (N.of_nat ((i + k) mod 256)) with
    | Some b => b
    | None => x00
    end.

Definition at_time (t : Z) (k : nat) : world :=
  {| now := t; random := counting k; url_origin := "https://pp.example" |}.

Definition config : env :=
  {| ADMIN_USERS := "alice,dave";
     MAX_PAYLOAD_BYTES := JUndefined;
     MAX_TTL := JUndefined;
     BASE_URL := "" |}.

(** The same with a ceiling of 30 seconds on the TTL. *)
Definition short_config : env :=
  {| ADMIN_USERS := "alice,dave";
     MAX_PAYLOAD_BYTES := JUndefined;
     MAX_TTL := JStr "30";
     BASE_URL := "" |}.

(** The same with a payload limit of 3 bytes. *)
Definition tight_config : env :=
  {| ADMIN_USERS := "alice,dave";
     MAX_PAYLOAD_BYTES := JStr "3";
     MAX_TTL := JUndefined;
     BASE_URL := "" |}.

Definition empty : state := initial false.

Definition register (user : string) (k : nat) : world * request :=
  (at_time 0 k,
   ReqUsers POST user (JObj [("publicKey", JStr ("PUBK-" ++ user))])).

(** The bearer secrets handed out by [register "alice" 0],
    [register "dave" 64] and [register "carol" 150]. *)
Definition alice_secret : string :=
  "AAECAwQFBgcICQoLDA0ODxAREhMUFRYXGBkaGxwdHh8".

Definition dave_secret : string :=
  "QEFCQ0RFRkdISUpLTE1OT1BRUlNUVVZXWFlaW1xdXl8".

Definition carol_secret : string :=
  "lpeYmZqbnJ2en6ChoqOkpaanqKmqq6ytrq+wsbKztLU".

Definition credentials (user secret : string) : jsval :=
  JObj [("username", JStr user); ("authSecret", JStr secret)].

Definition share_for_bob (payload : string) : jsval :=
  JObj [("recipient", JStr "bob"); ("cipher", JStr payload)].

(** alice and bob register; alice sends bob an inbox share that lives 120
    seconds; [session1] is the session id it is given. *)
Definition delivered : list (world * request) :=
  [register "alice" 0; register "bob" 100;
   (at_time 1000 7,
    ReqInboxPost
      (JObj [("recipient", JStr "bob"); ("cipher", JStr "Y2lwaA");
             ("meta", JObj [("sender", JStr " alice ")]);
             ("ttlSec", JNum (Num 120))]))].

Definition session1 : string := "1b1c1d1e1f202122232425262728292a2b2c2d2e".

(** ... and alice revokes it 100 seconds later. *)
Definition revoked : list (world * request) :=
  (delivered ++
   [(at_time 101000 50, ReqRevoke session1 (credentials "alice" alice_secret))])%list.

(** carol asks admin alice for the credentials of a page. *)
Definition ask (t : Z) (k : nat) : world * request :=
  (at_time t k,
   ReqRequestsPost
     (JObj [("username", JStr "carol"); ("authSecret", JStr carol_secret);
            ("origin", JStr "https://bank.example");
            ("targetAdmin", JStr "alice")])).

(** alice, dave and carol register; carol asks alice twice. *)
Definition asked : list (world * request) :=
  [register "alice" 0; register "dave" 64; register "carol" 150;
   ask 1000 10; ask 2000 90].

(** bob registers and is sent a share link that lives 120 seconds;
    [token1] is its token. *)
Definition shared : list (world * request) :=
  [register "bob" 100;
   (at_time 1000 7,
    ReqSharesPost
      (JObj [("recipient", JStr "bob"); ("cipher", JStr "Y2lwaA");
             ("ttlSec", JNum (Num 120))]))].

Definition token1 : string := "0708090a0b0c0d0e0f101112131415161718191a1b1c1d1e".

End Scenario.

(** * Properties *)

(** ** Numbers read from text and written as text *)

Lemma string_to_number_samples :
  map string_to_number
    ["1e3"; "1.0"; "0x10"; " 12 "; ""; "-12"; "+12"; "00012"; "1.5e1"; "5."; ".5";
     "100e-2"; "0b101"; "0o17"; "0X1f"; "-0"; "1e-400"]
  = [Whole 1000; Whole 1; Whole 16; Whole 12; Whole 0; Whole (-12); Whole 12;
     Whole 12; Whole 15; Whole 5; Fraction (1 # 2); Whole 1; Whole 5; Whole 15;
     Whole 31; Whole 0; Whole 0]
  /\ map string_to_number ["Infinity"; "+Infinity"; "-Infinity"; "1e400"; "-1e309"]
     = [Infinite false; Infinite false; Infinite true; Infinite false; Infinite true]
  /\ map string_to_number
       ["abc"; "."; "e5"; ".e5"; "1e"; "1e+"; "+-12"; "- 1"; "0x"; "-0x10"; "1_000";
        "12px"; "infinity"; "0x1G"; "1 2"; "1e1.5"]
     = repeat NotANumber 16.
Proof. vm_compute. repeat split. Qed.

Lemma string_of_Z_samples :
  map string_of_Z
    [0; 120; -7; 2 ^ 53; 2 ^ 53 + 1; 2 ^ 53 + 2; 2 ^ 60; 2 ^ 64;
     12345678901234567890; 10 ^ 21 - 1; 10 ^ 21; 12 * 10 ^ 20; - 10 ^ 21; 2 ^ 70;
     10 ^ 23]
  = ["0"; "120"; "-7"; "9007199254740992"; "9007199254740992"; "9007199254740994";
     "1152921504606847000"; "18446744073709552000"; "12345678901234567000";
     "1e+21"; "1e+21"; "1.2e+21"; "-1e+21"; "1.1805916207174113e+21"; "1e+23"].
Proof. vm_compute. reflexivity. Qed.

Lemma clamp_samples :
  map (fun s => math_max (Num 1) (math_min (Num 100) (string_to_number s)))
    ["1.0"; "0"; "250"; "Infinity"; "-Infinity"; "0.5"; "100.5"]
  = [Whole 1; Whole 1; Whole 100; Whole 100; Whole 1; Whole 1; Whole 100]
  /\ math_min (math_max (string_to_number "30.5") (Num 60)) (Num 3600) = Num 60
  /\ math_min (math_max (string_to_number "Infinity") (Num 60)) (Num 3600) = Num 3600
  /\ math_min (math_max (string_to_number "90.5") (Num 60)) (Num 3600)
     = Fraction (181 # 2)
  /\ math_min (math_max (string_to_number "soon") (Num 60)) (Num 3600) = NaN.
Proof. vm_compute. repeat split. Qed.

(** ** The coordinator: at most one consume per token *)

Section Coordinator.

Implicit Types (storage : gmap string tc_entry) (token : string).

Lemma tc_step_keeps storage t req token e :
  storage !! token = Some e ->
  exists e', (ShareManager_fetch t storage req).1 !! token = Some e'
    /\ tc_expiresAt (tc_rec e') = tc_expiresAt (tc_rec e)
    /\ tc_recipient (tc_rec e') = tc_recipient (tc_rec e)
    /\ (consumed (tc_rec e) = true -> consumed (tc_rec e') = true).
Proof.
  intros He. destruct req as [tok ex rc ttl | tok | tok | ]; simpl.
  - destruct (storage !! tok) eqn:Ht; simpl; [eauto |].
    destruct (decide (tok = token)) as [-> | Hne]; [congruence |].
    rewrite lookup_insert_ne by done. eauto.
  - destruct (storage !! tok) as [e0|]; [destruct (consumed (tc_rec e0)) |]; simpl; eauto.
  - destruct (storage !! tok) as [e0|] eqn:Ht; simpl; [| eauto].
    destruct (consumed (tc_rec e0)) eqn:Hc; simpl; [eauto |].
    destruct (decide (tok = token)) as [-> | Hne].
    + rewrite lookup_insert_eq. eexists; repeat split; simpl; try congruence; done.
    + rewrite lookup_insert_ne by done. eauto.
  - eauto.
Qed.

Lemma tc_step_consumed storage t req token :
  tc_consumed storage token ->
  tc_consumed (ShareManager_fetch t storage req).1 token.
Proof.
  intros (e & He & Hc).
  destruct (tc_step_keeps storage t req token e He) as (e' & He' & _ & _ & Hm).
  exists e'. auto.
Qed.

Lemma tc_run_consumed storage calls token :
  tc_consumed storage token -> tc_consumed (tc_run storage calls).1 token.
Proof.
  revert storage. induction calls as [| [t req] rest IH]; intros storage Hc; [done |].
  simpl. pose proof (tc_step_consumed storage t req token Hc) as H1.
  destruct (ShareManager_fetch t storage req) as [s1 r]. simpl in H1.
  specialize (IH s1 H1). destruct (tc_run s1 rest) as [s2 rs]. done.
Qed.

Lemma tc_consume_status storage t token :
  status (ShareManager_fetch t storage (TcConsume token)).2 =
    match storage !! token with
    | None => 404
    | Some e => if consumed (tc_rec e) then 410 else 200
    end.
Proof.
  simpl. destruct (storage !! token) as [e|]; [destruct (consumed (tc_rec e)) |]; done.
Qed.

Lemma tc_consume_success storage t token :
  status (ShareManager_fetch t storage (TcConsume token)).2 = 200 ->
  tc_consumed (ShareManager_fetch t storage (TcConsume token)).1 token.
Proof.
  simpl. destruct (storage !! token) as [e|] eqn:He; simpl; [| done].
  destruct (consumed (tc_rec e)); simpl; [done |].
  intros _. eexists. rewrite lookup_insert_eq. done.
Qed.

Lemma consume_successes_cons token storage t req rest :
  consume_successes token storage ((t, req) :: rest) =
    Nat.add
      (if bool_decide (is_consume_of token (t, req) = true
                       /\ status (ShareManager_fetch t storage req).2 = 200)
       then 1%nat else 0%nat)
      (consume_successes token (ShareManager_fetch t storage req).1 rest).
Proof.
  unfold consume_successes. simpl.
  destruct (ShareManager_fetch t storage req) as [s1 r] eqn:Hf.
  destruct (tc_run s1 rest) as [s2 rs] eqn:Hr. simpl.
  rewrite filter_cons. simpl.
  case_bool_decide; case_decide; rewrite ?Hr; simpl; try done; tauto.
Qed.

Lemma consume_successes_after storage calls token :
  tc_consumed storage token -> consume_successes token storage calls = 0%nat.
Proof.
  revert storage. induction calls as [| [t req] rest IH]; intros storage Hc; [done |].
  rewrite consume_successes_cons.
  rewrite IH by (by apply tc_step_consumed).
  case_bool_decide as Hs; [| done].
  destruct Hs as [Hq Hs]. unfold is_consume_of in Hq. simpl in Hq.
  destruct req as [| | tok |]; try done.
  apply String.eqb_eq in Hq as ->.
  rewrite tc_consume_status in Hs. destruct Hc as (e & He & Hc).
  rewrite He, Hc in Hs. done.
Qed.

Lemma consume_successes_le_1 storage calls token :
  (consume_successes token storage calls <= 1)%nat.
Proof.
  revert storage. induction calls as [| [t req] rest IH]; intros storage.
  - unfold consume_successes. simpl. lia.
  - rewrite consume_successes_cons. case_bool_decide as Hs.
    + destruct Hs as [Hq Hs]. unfold is_consume_of in Hq. simpl in Hq.
      destruct req as [| | tok |]; try done.
      apply String.eqb_eq in Hq as ->.
      rewrite consume_successes_after; [lia |]. by apply tc_consume_success.
    + specialize (IH (ShareManager_fetch t storage req).1). lia.
Qed.

End Coordinator.

(** C1.  For every token the coordinator's [consumed] flag only moves
    from false to true (a stored record is never removed and a set flag is
    never cleared, and a consume answered 200 is the step that sets it);
    over any sequence of coordinator calls at most one consume of the token
    is answered 200; every consume issued after a successful one, whatever
    calls come in between, is answered 410; and a consume of an unknown
    token is answered 404 and changes nothing. *)
Theorem consume_at_most_once :
  (forall (storage : gmap string tc_entry) t req token e,
      storage !! token = Some e ->
      exists e', (ShareManager_fetch t storage req).1 !! token = Some e'
        /\ (consumed (tc_rec e) = true -> consumed (tc_rec e') = true))
  /\ (forall (storage : gmap string tc_entry) t token,
        status (ShareManager_fetch t storage (TcConsume token)).2 = 200 ->
        (exists e, storage !! token = Some e /\ consumed (tc_rec e) = false)
        /\ tc_consumed (ShareManager_fetch t storage (TcConsume token)).1 token)
  /\ (forall (storage : gmap string tc_entry) calls token,
        (consume_successes token storage calls <= 1)%nat)
  /\ (forall (storage : gmap string tc_entry) t token later t',
        status (ShareManager_fetch t storage (TcConsume token)).2 = 200 ->
        status
          (ShareManager_fetch t'
             (tc_run (ShareManager_fetch t storage (TcConsume token)).1 later).1
             (TcConsume token)).2 = 410)
  /\ (forall (storage : gmap string tc_entry) t token,
        storage !! token = None ->
        ShareManager_fetch t storage (TcConsume token)
        = (storage, send 404 (BError "Not found"))).
Proof.
  repeat split.
  - intros storage t req token e He.
    destruct (tc_step_keeps storage t req token e He) as (e' & ? & _ & _ & ?).
    eauto.
  - rewrite tc_consume_status in H.
    destruct (storage !! token) as [e|]; [| done].
    destruct (consumed (tc_rec e)) eqn:Hc; [done | eauto].
  - by apply tc_consume_success.
  - intros. apply consume_successes_le_1.
  - intros storage t token later t' Hs.
    rewrite tc_consume_status.
    destruct (tc_run_consumed _ later token (tc_consume_success _ _ _ Hs))
      as (e & -> & ->).
    done.
  - intros storage t token Hn. simpl. by rewrite Hn.
Qed.

Lemma consume_at_most_once_witness :
  let storage :=
    (ShareManager_fetch 0 ∅ (TcInit "00ab" 60000 (JStr "bob") 60)).1 in
  status (ShareManager_fetch 5 storage (TcConsume "00ab")).2 = 200
  /\ status
       (ShareManager_fetch 9
          (tc_run (ShareManager_fetch 5 storage (TcConsume "00ab")).1
             [(6, TcStatus "00ab"); (7, TcInit "00ab" 70000 (JStr "eve") 60)]).1
          (TcConsume "00ab")).2 = 410.
Proof.
  intros storage. split; [vm_compute; reflexivity |].
  destruct consume_at_most_once as (_ & _ & _ & Hlater & _).
  apply Hlater. vm_compute. reflexivity.
Defined.

(** ** Hexadecimal rendering *)

Section Identifiers.

Lemma is_hex_digit n : (n < 16)%N -> is_hex (hex_digit n) = true.
Proof.
  intros Hn.
  assert (Hcases : In n [0; 1; 2; 3; 4; 5; 6; 7; 8; 9; 10; 11; 12; 13; 14; 15]%N).
  { simpl. lia. }
  simpl in Hcases. intuition (subst; reflexivity || done).
Qed.

Lemma byte_hex_pair b :
  exists h l, padStart 2 "0" (toString16 b) = String h (String l "")
    /\ is_hex h = true /\ is_hex l = true.
Proof.
  pose proof (Byte.to_N_bounded b) as Hb. unfold toString16.
  destruct (Byte.to_N b <? 16)%N eqn:Hlt.
  - apply N.ltb_lt in Hlt. exists "0"%char, (hex_digit (Byte.to_N b)).
    repeat split; [by apply is_hex_digit].
  - apply N.ltb_ge in Hlt.
    exists (hex_digit (Byte.to_N b / 16)), (hex_digit (Byte.to_N b mod 16)).
    repeat split; apply is_hex_digit.
    + apply N.Div0.div_lt_upper_bound. lia.
    + apply N.mod_lt. lia.
Qed.

Lemma append_String c s t : String c s ++ t = String c (s ++ t).
Proof. reflexivity. Qed.

Lemma append_empty t : "" ++ t = t.
Proof. reflexivity. Qed.

Lemma length_list_ascii s : length (list_ascii_of_string s) = String.length s.
Proof. induction s; simpl; congruence. Qed.

Lemma list_ascii_app s1 s2 :
  list_ascii_of_string (s1 ++ s2)
  = (list_ascii_of_string s1 ++ list_ascii_of_string s2)%list.
Proof.
  induction s1; [done |]. rewrite append_String. simpl. congruence.
Qed.

Lemma string_length_app s1 s2 :
  String.length (s1 ++ s2) = (String.length s1 + String.length s2)%nat.
Proof.
  induction s1; [done |]. rewrite append_String. simpl. congruence.
Qed.

Lemma all_hex_app s1 s2 :
  all_hex (s1 ++ s2) = all_hex s1 && all_hex s2.
Proof. unfold all_hex. by rewrite list_ascii_app, forallb_app. Qed.

Lemma join_empty_cons x l : join_strings "" (x :: l) = x ++ join_strings "" l.
Proof.
  unfold join_strings. destruct l as [| y l]; simpl; [| done].
  induction x; [done |]. rewrite append_String. congruence.
Qed.

Lemma hex_of_bytes_format bytes :
  hex_id (2 * length bytes) (hex_of_bytes bytes).
Proof.
  unfold hex_id, hex_of_bytes. induction bytes as [| b bytes [IHl IHh]]; [done |].
  cbn [map]. rewrite join_empty_cons.
  destruct (byte_hex_pair b) as (h & l & -> & Hh & Hl).
  rewrite string_length_app, all_hex_app, IHl, IHh.
  split; [simpl; lia |].
  unfold all_hex. simpl. by rewrite Hh, Hl.
Qed.

Lemma generateToken_format n e : hex_id (2 * n) (generateToken n e).1.
Proof.
  unfold generateToken, getRandomValues. simpl.
  pose proof (hex_of_bytes_format (map e (seq 0 n))) as H.
  by rewrite length_map, length_seq in H.
Qed.

End Identifiers.

(** ** What the handlers do when they succeed *)

Section SuccessPaths.

Variable sha256 : string -> string.

Lemma shares_post_created e w st body :
  status (shares_post e w st body).2 = 201 ->
  exists url expires,
    (shares_post e w st body).2
    = send 201 (BShareCreated (generateToken 24 (random w)).1 url expires).
Proof.
  unfold shares_post. repeat case_match; simpl; try done; eauto.
Qed.

Lemma inbox_post_created e w st body :
  status (inbox_post e w st body).2 = 201 ->
  (inbox_post e w st body).2
  = send 201
      (BInboxCreated (generateToken 20 (random w)).1
         (generateToken 20 (generateToken 20 (random w)).2).1).
Proof.
  unfold inbox_post. repeat case_match; simpl; try done.
  all: intros _; repeat f_equal; congruence.
Qed.

Lemma requests_post_created e w st body :
  status (requests_post sha256 e w st body).2 = 201 ->
  (requests_post sha256 e w st body).2
  = send 201 (BRequestCreated (generateToken 16 (random w)).1).
Proof.
  unfold requests_post. repeat case_match; simpl; done.
Qed.

Lemma session_revoke_ok e w st sessionId body :
  status (session_revoke sha256 e w st sessionId body).2 = 200 ->
  exists adminUser session,
    kv_get (now w) (session_key sessionId) (SHARES_KV st) = Some (VSession session)
    /\ sender session = adminUser
    /\ sessionId <> ""
    /\ session_revoke sha256 e w st sessionId body =
       (let inboxId := (generateToken 16 (random w)).1 in
        let ttlLeftSec := Z.max 60 (remaining_sec w session) in
        (set_shares
           (kv_put (now w) (session_key sessionId)
              (VSession (set_revokedAt (now w) session)) ttlLeftSec)
           (set_inboxKV
              (kv_put (now w) (inbox_key (recipient session) inboxId)
                 (VInbox (revoke_entry sessionId adminUser session (now w)))
                 ttlLeftSec) st),
         send 200 BOk)).
Proof.
  unfold session_revoke, with_owned_session.
  repeat case_match; simpl; try done. intros _.
  match goal with H : negb (String.eqb (sender _) _) = false |- _ =>
    apply negb_false_iff, String.eqb_eq in H end.
  match goal with H : (String.eqb sessionId "" || _) = false |- _ =>
    apply orb_false_iff in H as [H%String.eqb_neq _] end.
  eauto 10.
Qed.

Lemma session_restore_ok e w st sessionId body :
  status (session_restore sha256 e w st sessionId body).2 = 200 ->
  exists session,
    kv_get (now w) (session_key sessionId) (SHARES_KV st) = Some (VSession session)
    /\ sessionId <> ""
    /\ 60 < remaining_sec w session
    /\ session_restore sha256 e w st sessionId body =
       (let inboxId := (generateToken 16 (random w)).1 in
        let ttlLeftSec := remaining_sec w session in
        (set_shares
           (kv_put (now w) (session_key sessionId)
              (VSession (set_restoredAt (now w) session)) ttlLeftSec)
           (set_inboxKV
              (kv_put (now w) (inbox_key (recipient session) inboxId)
                 (VInbox (restore_entry session (now w))) ttlLeftSec) st),
         send 200 BOk)).
Proof.
  unfold session_restore, with_owned_session.
  repeat case_match; simpl; try done. intros _.
  match goal with H : negb (60 <? _) = false |- _ =>
    apply negb_false_iff, Z.ltb_lt in H end.
  match goal with H : (String.eqb sessionId "" || _) = false |- _ =>
    apply orb_false_iff in H as [H%String.eqb_neq _] end.
  eauto 10.
Qed.

Lemma toISOString_some t x : toISOString t = Some x -> x = t.
Proof. unfold toISOString. case_match; congruence. Qed.

Lemma shares_post_ok e w st body :
  status (shares_post e w st body).2 = 201 ->
  exists payload ttl,
    truthy body = true
    /\ validateUsername (prop_opt body "recipient") = true
    /\ prop_opt body "cipher" = JStr payload
    /\ payload <> ""
    /\ exceeds_max payload (maxPayload e) = false
    /\ is_Some (USERS_KV st !! to_string (prop_opt body "recipient"))
    /\ clamp_ttl e (prop_opt body "ttlSec") = Num ttl
    /\ toISOString (now w + ttl * 1000) = Some (now w + ttl * 1000)
    /\ shares_post e w st body =
       (let token := (generateToken 24 (random w)).1 in
        let expires := now w + ttl * 1000 in
        let st1 :=
          set_shares
            (kv_put (now w) token
               (VShare (stored_share body (meta_of body) payload)) ttl) st in
        (set_manager
           (ShareManager_fetch (now w) (SHARE_MANAGER st1)
              (TcInit token expires (prop_opt body "recipient") ttl)).1 st1,
         send 201
           (BShareCreated token
              ((if String.eqb (BASE_URL e) "" then url_origin w else BASE_URL e)
               ++ "/session/" ++ token) expires))).
Proof.
  unfold shares_post.
  destruct (truthy body) eqn:Hb; simpl; [| done].
  destruct (validateUsername (prop_opt body "recipient")) eqn:Hv; simpl; [| done].
  destruct (prop_opt body "cipher") as [| | | | payload | |] eqn:Hc; simpl; try done.
  destruct (String.eqb payload "") eqn:Hp; [done |].
  destruct (exceeds_max payload (maxPayload e)) eqn:Hx; [done |].
  destruct (USERS_KV st !! to_string (prop_opt body "recipient")) eqn:Hu; [| done].
  destruct (clamp_ttl e (prop_opt body "ttlSec")) as [ttl | | |] eqn:Ht; try done.
  destruct (prop (meta_of body) "targetOrigin") eqn:Hm; [| done].
  destruct (toISOString (now w + ttl * 1000)) as [expires|] eqn:Hd; [| done].
  apply toISOString_some in Hd as Hd'. subst expires.
  intros _. apply String.eqb_neq in Hp.
  exists payload, ttl. repeat split; eauto.
Qed.

Lemma inbox_post_ok e w st body :
  status (inbox_post e w st body).2 = 201 ->
  exists payload ttl sender,
    truthy body = true
    /\ validateUsername (prop_opt body "recipient") = true
    /\ prop_opt body "cipher" = JStr payload
    /\ payload <> ""
    /\ exceeds_max payload (maxPayload e) = false
    /\ is_Some (USERS_KV st !! to_string (prop_opt body "recipient"))
    /\ clamp_ttl e (prop_opt body "ttlSec") = Num ttl
    /\ sender_of (meta_of body) = Some sender
    /\ toISOString (now w + ttl * 1000) = Some (now w + ttl * 1000)
    /\ inbox_post e w st body =
       (let item_id := (generateToken 20 (random w)).1 in
        let sessionId := (generateToken 20 (generateToken 20 (random w)).2).1 in
        let expires := now w + ttl * 1000 in
        let recipient := prop_opt body "recipient" in
        let st1 :=
          set_inboxKV
            (kv_put (now w) (inbox_key recipient item_id)
               (VInbox (share_entry body (meta_of body) payload sender sessionId
                          (now w) expires)) ttl) st in
        (if String.eqb sender "" then st1
         else
           set_shares (kv_put (now w) (index_key sender sessionId) VIndex ttl)
             (set_shares
                (kv_put (now w) (session_key sessionId)
                   (VSession (new_session body (meta_of body) recipient payload
                                sender sessionId (now w) expires)) ttl) st1),
         send 201 (BInboxCreated item_id sessionId))).
Proof.
  unfold inbox_post.
  destruct (truthy body) eqn:Hb; simpl; [| done].
  destruct (validateUsername (prop_opt body "recipient")) eqn:Hv; simpl; [| done].
  destruct (prop_opt body "cipher") as [| | | | payload | |] eqn:Hc; simpl; try done.
  destruct (String.eqb payload "") eqn:Hp; [done |].
  destruct (exceeds_max payload (maxPayload e)) eqn:Hx; [done |].
  destruct (USERS_KV st !! to_string (prop_opt body "recipient")) eqn:Hu; [| done].
  destruct (generateToken 20 (random w)) as [item_id e1] eqn:Hg. simpl.
  destruct (clamp_ttl e (prop_opt body "ttlSec")) as [ttl | | |] eqn:Ht; try done.
  destruct (sender_of (meta_of body)) as [sender|] eqn:Hm; [| done].
  destruct (toISOString (now w + ttl * 1000)) as [expires|] eqn:Hd; [| done].
  destruct (json_number _) as [duration |]; [| done].
  apply toISOString_some in Hd as Hd'. subst expires.
  intros _. apply String.eqb_neq in Hp.
  exists payload, ttl, sender. repeat split; eauto.
Qed.

End SuccessPaths.

(** ** Reading the stores after an update *)

Section StateLemmas.

Lemma shares_set_shares f st : SHARES_KV (set_shares f st) = f (SHARES_KV st).
Proof. reflexivity. Qed.

Lemma kv_put_eq t k v ttl (m : gmap string kv_entry) :
  kv_put t k v ttl m !! k = Some {| kv_val := v; kv_ttl := ttl; kv_put_at := t |}.
Proof. unfold kv_put. by rewrite lookup_insert_eq. Qed.

Lemma kv_put_ne t k v ttl (m : gmap string kv_entry) k' :
  k <> k' -> kv_put t k v ttl m !! k' = m !! k'.
Proof. intros Hne. unfold kv_put. by rewrite lookup_insert_ne. Qed.

Lemma inboxKV_set_inboxKV f st : inboxKV (set_inboxKV f st) = f (inboxKV st).
Proof. unfold inboxKV, set_inboxKV. destruct (INBOX_KV st) eqn:E; simpl; by rewrite ?E. Qed.

Lemma shares_set_inboxKV f st :
  SHARES_KV (set_inboxKV f st)
  = match INBOX_KV st with Some _ => SHARES_KV st | None => f (SHARES_KV st) end.
Proof. unfold set_inboxKV. destruct (INBOX_KV st); reflexivity. Qed.

Lemma inboxKV_set_shares f st :
  inboxKV (set_shares f st)
  = match INBOX_KV st with Some m => m | None => f (SHARES_KV st) end.
Proof. unfold inboxKV, set_shares. simpl. destruct (INBOX_KV st); reflexivity. Qed.

Lemma manager_set_inboxKV f st :
  SHARE_MANAGER (set_inboxKV f st) = SHARE_MANAGER st.
Proof. unfold set_inboxKV. destruct (INBOX_KV st); reflexivity. Qed.

Lemma users_set_inboxKV f st : USERS_KV (set_inboxKV f st) = USERS_KV st.
Proof. unfold set_inboxKV. destruct (INBOX_KV st); reflexivity. Qed.

Lemma inbox_session_key_ne r i s : inbox_key r i <> session_key s.
Proof. unfold inbox_key, session_key. rewrite !append_String. congruence. Qed.

Lemma inbox_index_key_ne r i a s : inbox_key r i <> index_key a s.
Proof. unfold inbox_key, index_key. rewrite !append_String. congruence. Qed.

Lemma session_index_key_ne s a s' : session_key s <> index_key a s'.
Proof. unfold session_key, index_key. rewrite !append_String. congruence. Qed.

Lemma index_session_key_ne a s' s : index_key a s' <> session_key s.
Proof. apply not_eq_sym, session_index_key_ne. Qed.

Lemma request_session_key_ne r s : request_key r <> session_key s.
Proof. unfold request_key, session_key. rewrite !append_String. congruence. Qed.

Lemma request_index_key_ne r a s : request_key r <> index_key a s.
Proof. unfold request_key, index_key. rewrite !append_String. congruence. Qed.

Lemma request_inbox_key_ne r a s : request_key r <> inbox_key a s.
Proof. unfold request_key, inbox_key. rewrite !append_String. congruence. Qed.

Lemma inbox_lookup_after_rewrite t k1 v1 t1 k2 v2 t2 st :
  k1 <> k2 ->
  inboxKV (set_shares (kv_put t k2 v2 t2) (set_inboxKV (kv_put t k1 v1 t1) st)) !! k1
  = Some {| kv_val := v1; kv_ttl := t1; kv_put_at := t |}.
Proof.
  intros Hne. unfold inboxKV, set_shares, set_inboxKV, kv_put.
  destruct (INBOX_KV st) eqn:Hi; simpl; rewrite ?Hi; simpl.
  - by rewrite lookup_insert_eq.
  - rewrite lookup_insert_ne by done. by rewrite lookup_insert_eq.
Qed.

Lemma inboxKV_put_shares_ne t k v ttl st k' :
  k <> k' ->
  inboxKV (set_shares (kv_put t k v ttl) st) !! k' = inboxKV st !! k'.
Proof.
  intros Hne. unfold inboxKV, set_shares, kv_put. simpl.
  destruct (INBOX_KV st); [done |]. by rewrite lookup_insert_ne.
Qed.

Lemma inboxKV_put_eq t k v ttl st :
  inboxKV (set_inboxKV (kv_put t k v ttl) st) !! k
  = Some {| kv_val := v; kv_ttl := ttl; kv_put_at := t |}.
Proof. rewrite inboxKV_set_inboxKV. unfold kv_put. by rewrite lookup_insert_eq. Qed.

Lemma append_inj_l p a b : p ++ a = p ++ b -> a = b.
Proof.
  induction p as [| c p IH]; [done |]. rewrite !append_String.
  intros H. injection H. done.
Qed.

Lemma session_key_inj a b : session_key a = session_key b -> a = b.
Proof. apply append_inj_l. Qed.

End StateLemmas.

(** ** C7: identifier formats *)

Section IdentifierClaim.

Variable sha256 : string -> string.

(** C7 (as amended).  Identifiers are the hexadecimal rendering of the
    random bytes drawn: share tokens are 48 hex characters, the inbox item
    id and the session id issued by POST /v1/inbox are 40 hex characters
    each, request ids are 32 hex characters, and the inbox item ids issued
    by revoke and by restore are 32 hex characters (16 random bytes). *)
Theorem identifier_formats :
  (forall n rnd, hex_id (2 * n) (generateToken n rnd).1)
  /\ (forall e w st body,
        status (shares_post e w st body).2 = 201 ->
        exists token url expires,
          (shares_post e w st body).2 = send 201 (BShareCreated token url expires)
          /\ hex_id 48 token)
  /\ (forall e w st body,
        status (inbox_post e w st body).2 = 201 ->
        exists item_id sessionId,
          (inbox_post e w st body).2 = send 201 (BInboxCreated item_id sessionId)
          /\ hex_id 40 item_id /\ hex_id 40 sessionId)
  /\ (forall e w st body,
        status (requests_post sha256 e w st body).2 = 201 ->
        exists request_id,
          (requests_post sha256 e w st body).2 = send 201 (BRequestCreated request_id)
          /\ hex_id 32 request_id)
  /\ (forall e w st sessionId body,
        status (session_revoke sha256 e w st sessionId body).2 = 200 ->
        exists session inboxId item,
          kv_get (now w) (session_key sessionId) (SHARES_KV st) = Some (VSession session)
          /\ hex_id 32 inboxId
          /\ in_meta item =
               JObj [("type", JStr "revoke"); ("sessionId", JStr sessionId);
                     ("targetOrigin", or_else (targetOrigin session) JNull);
                     ("sender", JStr (sender session))]
          /\ kv_val <$> inboxKV (session_revoke sha256 e w st sessionId body).1
                          !! inbox_key (recipient session) inboxId
             = Some (VInbox item))
  /\ (forall e w st sessionId body,
        status (session_restore sha256 e w st sessionId body).2 = 200 ->
        exists session inboxId item,
          kv_get (now w) (session_key sessionId) (SHARES_KV st) = Some (VSession session)
          /\ hex_id 32 inboxId
          /\ in_cipher item = cipher session
          /\ kv_val <$> inboxKV (session_restore sha256 e w st sessionId body).1
                          !! inbox_key (recipient session) inboxId
             = Some (VInbox item)).
Proof.
  split; [intros; apply generateToken_format |].
  split.
  { intros e w st body H. destruct (shares_post_created e w st body H) as (url & ex & ->).
    eexists _, _, _. split; [done |]. apply (generateToken_format 24). }
  split.
  { intros e w st body H. rewrite (inbox_post_created e w st body H).
    eexists _, _. split; [done |]. split; apply (generateToken_format 20). }
  split.
  { intros e w st body H. rewrite (requests_post_created sha256 e w st body H).
    eexists. split; [done |]. apply (generateToken_format 16). }
  split.
  - intros e w st sessionId body H.
    destruct (session_revoke_ok sha256 e w st sessionId body H)
      as (adminUser & session & Hget & Hs & _ & ->).
    eexists session, _, _.
    refine (conj Hget (conj (generateToken_format 16 _) (conj _ _))).
    2:{ cbn zeta. cbn [fst]. rewrite inbox_lookup_after_rewrite
          by apply inbox_session_key_ne. simpl. reflexivity. }
    simpl. by rewrite Hs.
  - intros e w st sessionId body H.
    destruct (session_restore_ok sha256 e w st sessionId body H)
      as (session & Hget & _ & _ & ->).
    eexists session, _, _.
    refine (conj Hget (conj (generateToken_format 16 _) (conj _ _))).
    2:{ cbn zeta. cbn [fst]. rewrite inbox_lookup_after_rewrite
          by apply inbox_session_key_ne. simpl. reflexivity. }
    reflexivity.
Qed.

End IdentifierClaim.

(** C7, counterexample to the claim as stated: alice revokes the session
    she sent to bob; bob's next poll returns the share (40 hex characters)
    and the revoke message, whose id has 32 characters. *)
Lemma revoke_inbox_id_counterexample :
  exists shared revoke_item,
    (inbox_poll (Scenario.at_time 102000 0)
       (run Scenario.digest Scenario.config Scenario.empty Scenario.revoked).1
       "bob" "").2
    = send 200 (BItems [shared; revoke_item])
    /\ it_meta revoke_item
       = JObj [("type", JStr "revoke"); ("sessionId", JStr Scenario.session1);
               ("targetOrigin", JNull); ("sender", JStr "alice")]
    /\ it_id revoke_item = "32333435363738393a3b3c3d3e3f4041"
    /\ String.length (it_id revoke_item) = 32%nat
    /\ String.length (it_id revoke_item) <> 40%nat.
Proof.
  eexists _, _. split; [vm_compute; reflexivity |].
  repeat split; try reflexivity. simpl. lia.
Qed.

Lemma identifier_formats_witness :
  exists session inboxId item,
    hex_id 32 inboxId
    /\ in_cipher item = cipher session
    /\ kv_val <$> inboxKV
         (session_restore Scenario.digest Scenario.config (Scenario.at_time 30000 9)
            (run Scenario.digest Scenario.config Scenario.empty Scenario.delivered).1
            Scenario.session1
            (Scenario.credentials "alice" Scenario.alice_secret)).1
         !! inbox_key (recipient session) inboxId
       = Some (VInbox item).
Proof.
  destruct (identifier_formats Scenario.digest) as (_ & _ & _ & _ & _ & Hrestore).
  destruct (Hrestore Scenario.config (Scenario.at_time 30000 9)
              (run Scenario.digest Scenario.config Scenario.empty Scenario.delivered).1
              Scenario.session1
              (Scenario.credentials "alice" Scenario.alice_secret))
    as (session & inboxId & item & _ & Hhex & Hc & Hl).
  { vm_compute. reflexivity. }
  exists session, inboxId, item. auto.
Defined.

(** ** C3: key rotation needs the bearer secret *)

Section Rotation.

Variable sha256 : string -> string.

(** C3.  For a registered username, a POST /v1/users/:username whose
    [authSecret] is empty or missing, or hashes to something else than the
    stored [authHash], leaves every store unchanged and is answered 403
    (when the body carries a [publicKey]; 400 otherwise).  With the right
    secret the answer is 200 [{ok, username}] without [authSecret], and the
    record keeps its [authHash], takes the new [publicKey] and the current
    time as [updatedAt]. *)
Theorem rotation_requires_secret w st username body record :
  USERS_KV st !! username = Some record ->
  validateUsername (JStr username) = true ->
  let authSecret := or_else (prop_opt body "authSecret") (JStr "") in
  let result := users_route sha256 w st POST username body in
  ((truthy authSecret = false \/ hashSecret sha256 authSecret <> u_authHash record) ->
     result.1 = st
     /\ (status result.2 = 403 \/ status result.2 = 400)
     /\ (truthy body = true -> truthy (prop_opt body "publicKey") = true ->
         status result.2 = 403))
  /\ (truthy authSecret = true ->
      hashSecret sha256 authSecret = u_authHash record ->
      truthy body = true -> truthy (prop_opt body "publicKey") = true ->
      result.2 = send 200 (BRegistered username None)
      /\ USERS_KV result.1 !! username
         = Some {| u_username := username;
                   u_publicKey := prop_opt body "publicKey";
                   u_authHash := u_authHash record;
                   u_updatedAt := now w |}
      /\ (forall other, other <> username ->
            USERS_KV result.1 !! other = USERS_KV st !! other)
      /\ SHARES_KV result.1 = SHARES_KV st
      /\ INBOX_KV result.1 = INBOX_KV st
      /\ SHARE_MANAGER result.1 = SHARE_MANAGER st).
Proof.
  intros Hrec Hvalid authSecret result. subst result. unfold users_route.
  rewrite Hvalid, Hrec. fold authSecret. simpl negb at 1. cbn iota.
  split.
  - intros Hwrong.
    destruct (negb (truthy body) || negb (truthy (prop_opt body "publicKey")))
      eqn:Hbody.
    + simpl. split; [done |]. split; [by right |].
      intros Hb Hp. by rewrite Hb, Hp in Hbody.
    + destruct (truthy authSecret) eqn:Ht; simpl.
      * destruct Hwrong as [? | Hne]; [done |].
        destruct (String.eqb (hashSecret sha256 authSecret) (u_authHash record))
          eqn:Heq; [by apply String.eqb_eq in Heq |].
        simpl. auto.
      * auto.
  - intros Ht Hh Hb Hp. rewrite Hb, Hp, Ht. simpl.
    rewrite Hh, String.eqb_refl. simpl.
    repeat split; try done.
    + by rewrite lookup_insert_eq.
    + intros other Hne. by rewrite lookup_insert_ne.
Qed.

End Rotation.

Lemma rotation_requires_secret_witness :
  let st := (run Scenario.digest Scenario.config Scenario.empty
               [Scenario.register "alice" 0]).1 in
  status
    (users_route Scenario.digest (Scenario.at_time 5000 9) st POST "alice"
       (JObj [("publicKey", JStr "PUBK2"); ("authSecret", JStr "wrong")])).2 = 403
  /\ (users_route Scenario.digest (Scenario.at_time 5000 9) st POST "alice"
        (JObj [("publicKey", JStr "PUBK2");
               ("authSecret", JStr Scenario.alice_secret)])).2
     = send 200 (BRegistered "alice" None).
Proof.
  intros st.
  assert (Hrec : USERS_KV st !! "alice"
                 = Some {| u_username := "alice";
                           u_publicKey := JStr "PUBK-alice";
                           u_authHash := Scenario.digest Scenario.alice_secret;
                           u_updatedAt := 0 |}) by (vm_compute; reflexivity).
  split.
  - refine (proj2 (proj2 (proj1
      (rotation_requires_secret Scenario.digest (Scenario.at_time 5000 9) st "alice"
         (JObj [("publicKey", JStr "PUBK2"); ("authSecret", JStr "wrong")])
         _ Hrec eq_refl) _)) eq_refl eq_refl).
    right. vm_compute. discriminate.
  - refine (proj1 (proj2
      (rotation_requires_secret Scenario.digest (Scenario.at_time 5000 9) st "alice"
         (JObj [("publicKey", JStr "PUBK2");
                ("authSecret", JStr Scenario.alice_secret)])
         _ Hrec eq_refl) eq_refl _ eq_refl eq_refl)).
    vm_compute. reflexivity.
Defined.

(** ** C4: the TTL clamp *)

Section TtlClamp.

Lemma or_else_falsy a b : truthy a = false -> or_else a b = b.
Proof. unfold or_else. by intros ->. Qed.

Lemma or_else_truthy a b : truthy a = true -> or_else a b = a.
Proof. unfold or_else. by intros ->. Qed.

Lemma or_else_num z b : z <> 0 -> or_else (JNum (Num z)) b = JNum (Num z).
Proof. intros Hz. apply or_else_truthy. simpl. by apply negb_true_iff, Z.eqb_neq. Qed.

Lemma or_else_str s b : s <> "" -> or_else (JStr s) b = JStr s.
Proof. intros Hs. apply or_else_truthy. simpl. by apply negb_true_iff, String.eqb_neq. Qed.

(** C4 (as amended).  Whenever POST /v1/shares or POST /v1/inbox accepts
    a request (201), the [expirationTtl] stored with the share (with the
    inbox item, and with the session record and its sender index when they
    are written) is the whole number
    [Math.min(Math.max(Number(ttlSec || DEFAULT_TTL), 60),
              Number(env.MAX_TTL || DEFAULT_MAX_TTL))].
    For a requested value t and a ceiling M that are whole numbers this is
    min(max(t, 60), M): it lies in [60, M] when M is at least 60, and it is
    M when M is below 60.  The requested value is 600 for a [ttlSec] that is
    absent, 0 or empty, the number itself for another number, and the
    number a text reads as; the ceiling is read from [env.MAX_TTL] in the
    same way, with 3600 by default.  With a ceiling M of at least 60,
    ttlSec = 30 gives 60, and with any ceiling M, ttlSec = M + 1 gives M. *)
Theorem ttl_clamp e w st body :
  let requested :=
    Number (or_else (prop_opt body "ttlSec") (JNum (Num DEFAULT_TTL))) in
  let ceiling := Number (or_else (MAX_TTL e) (JNum (Num DEFAULT_MAX_TTL))) in
  let clamped := math_min (math_max requested (Num 60)) ceiling in
  (status (shares_post e w st body).2 = 201 ->
   exists ttl,
     clamped = Num ttl
     /\ kv_ttl <$> SHARES_KV (shares_post e w st body).1
                      !! (generateToken 24 (random w)).1
        = Some ttl)
  /\ (status (inbox_post e w st body).2 = 201 ->
      exists ttl,
        clamped = Num ttl
        /\ kv_ttl <$> inboxKV (inbox_post e w st body).1
                         !! inbox_key (prop_opt body "recipient")
                              (generateToken 20 (random w)).1
           = Some ttl
        /\ (forall sender,
              sender_of (meta_of body) = Some sender -> sender <> "" ->
              let sessionId := (generateToken 20 (generateToken 20 (random w)).2).1 in
              kv_ttl <$> SHARES_KV (inbox_post e w st body).1 !! session_key sessionId
              = Some ttl
              /\ kv_ttl <$> SHARES_KV (inbox_post e w st body).1
                               !! index_key sender sessionId
                 = Some ttl))
  /\ (forall t M,
        requested = Num t -> ceiling = Num M ->
        clamped = Num (Z.min (Z.max t 60) M)
        /\ (60 <= M -> 60 <= Z.min (Z.max t 60) M <= M)
        /\ (M < 60 -> Z.min (Z.max t 60) M = M))
  /\ (forall M, requested = Infinite false -> ceiling = Num M -> clamped = Num M)
  /\ (truthy (prop_opt body "ttlSec") = false -> requested = Num 600)
  /\ (forall t, prop_opt body "ttlSec" = JNum (Num t) -> t <> 0 -> requested = Num t)
  /\ (forall s,
        prop_opt body "ttlSec" = JStr s -> s <> "" -> requested = string_to_number s)
  /\ (truthy (MAX_TTL e) = false -> ceiling = Num 3600)
  /\ (forall M, MAX_TTL e = JNum (Num M) -> M <> 0 -> ceiling = Num M)
  /\ (forall s, MAX_TTL e = JStr s -> s <> "" -> ceiling = string_to_number s)
  /\ (forall M, ceiling = Num M -> 60 <= M -> clamp_ttl e (JNum (Num 30)) = Num 60)
  /\ (forall M, ceiling = Num M -> clamp_ttl e (JNum (Num (M + 1))) = Num M).
Proof.
  intros requested ceiling clamped.
  assert (Hclamp : clamp_ttl e (prop_opt body "ttlSec") = clamped) by reflexivity.
  split_and!.
  - intros H.
    destruct (shares_post_ok e w st body H)
      as (payload & ttl & _ & _ & _ & _ & _ & _ & Ht & _ & ->).
    exists ttl. split; [by rewrite <- Hclamp |].
    cbn zeta. cbn [fst]. unfold set_manager, set_shares, kv_put. simpl.
    by rewrite lookup_insert_eq.
  - intros H.
    destruct (inbox_post_ok e w st body H)
      as (payload & ttl & sender & _ & _ & _ & _ & _ & _ & Ht & Hs & _ & ->).
    exists ttl. cbn zeta. cbn [fst].
    split; [by rewrite <- Hclamp |]. split.
    + destruct (String.eqb sender ""); [by rewrite inboxKV_put_eq |].
      rewrite !inboxKV_put_shares_ne, inboxKV_put_eq; [done | |].
      * apply not_eq_sym, inbox_session_key_ne.
      * apply not_eq_sym, inbox_index_key_ne.
    + intros sender' Hs' Hne. rewrite Hs in Hs'. injection Hs' as <-.
      apply String.eqb_neq in Hne. rewrite Hne.
      unfold set_shares, kv_put. simpl. split.
      * rewrite lookup_insert_ne by apply not_eq_sym, session_index_key_ne.
        by rewrite lookup_insert_eq.
      * by rewrite lookup_insert_eq.
  - intros t M Hr HM. subst clamped. rewrite Hr, HM. split; [reflexivity | lia].
  - intros M Hr HM. subst clamped. rewrite Hr, HM. reflexivity.
  - intros Hf. subst requested. by rewrite or_else_falsy.
  - intros t Ht Hz. subst requested. by rewrite Ht, or_else_num.
  - intros s Hs Hne. subst requested. by rewrite Hs, or_else_str.
  - intros Hf. subst ceiling. by rewrite or_else_falsy.
  - intros M HM Hz. subst ceiling. by rewrite HM, or_else_num.
  - intros s Hs Hne. subst ceiling. by rewrite Hs, or_else_str.
  - intros M HM Hle. unfold clamp_ttl, max_ttl, requested_ttl. fold ceiling.
    rewrite HM, or_else_num by done. cbn. f_equal. lia.
  - intros M HM. unfold clamp_ttl, max_ttl, requested_ttl. fold ceiling. rewrite HM.
    destruct (decide (M + 1 = 0)) as [Hz | Hz].
    + rewrite Hz, or_else_falsy by done. cbn. f_equal. unfold DEFAULT_TTL. lia.
    + rewrite or_else_num by done. cbn. f_equal. lia.
Qed.

End TtlClamp.

(** C4, counterexample to the claim as stated: with [MAX_TTL] set to 30 a
    share posted with [ttlSec = 30] is accepted and stored with a TTL of 30
    seconds, which is neither 60 nor within [60, MAX_TTL]. *)
Lemma ttl_below_floor_counterexample :
  let e := Scenario.short_config in
  let w := Scenario.at_time 2000 33 in
  let st := (run Scenario.digest e Scenario.empty Scenario.delivered).1 in
  let body := JObj [("recipient", JStr "bob"); ("cipher", JStr "Y2lwaA");
                    ("ttlSec", JNum (Num 30))] in
  status (shares_post e w st body).2 = 201
  /\ Number (or_else (MAX_TTL e) (JNum (Num DEFAULT_MAX_TTL))) = Num 30
  /\ kv_ttl <$> SHARES_KV (shares_post e w st body).1
                   !! "2122232425262728292a2b2c2d2e2f303132333435363738"
     = Some 30
  /\ ~ 60 <= 30 <= 30.
Proof.
  intros e w st body. split_and!; try (vm_compute; reflexivity). lia.
Qed.

Lemma ttl_clamp_witness :
  let body := JObj [("recipient", JStr "bob"); ("cipher", JStr "Y2lwaA");
                    ("ttlSec", JStr " 1e3 ")] in
  kv_ttl <$> SHARES_KV
     (shares_post Scenario.config (Scenario.at_time 2000 33)
        (run Scenario.digest Scenario.config Scenario.empty Scenario.delivered).1
        body).1
     !! "2122232425262728292a2b2c2d2e2f303132333435363738"
  = Some 1000
  /\ clamp_ttl Scenario.config (JNum (Num 30)) = Num 60.
Proof.
  intros body.
  destruct (ttl_clamp Scenario.config (Scenario.at_time 2000 33)
              (run Scenario.digest Scenario.config Scenario.empty Scenario.delivered).1
              body) as (Hshares & _ & _ & _ & _ & _ & _ & _ & _ & _ & Hlow & _).
  split.
  - destruct Hshares as (ttl & Ht & Hstored); [vm_compute; reflexivity |].
    vm_compute in Ht. injection Ht as <-. exact Hstored.
  - apply (Hlow 3600); [vm_compute; reflexivity | lia].
Defined.

(** ** C6: the payload size guard *)

Section PayloadGuard.

Lemma exceeds_max_spec c M :
  exceeds_max c (Num M) = true
  <-> (inject_Z M < inject_Z (Z.of_nat (String.length c)) * 0.75)%Q.
Proof.
  unfold exceeds_max, number_of.
  rewrite negb_true_iff, <- not_true_iff_false, Qle_bool_iff.
  split; [apply Qnot_le_lt | apply Qlt_not_le].
Qed.

Lemma floor_bound_accepts c M :
  Z.of_nat (String.length c) = Qfloor (inject_Z M / 0.75) ->
  exceeds_max c (Num M) = false.
Proof.
  intros Hlen. apply not_true_iff_false. rewrite exceeds_max_spec.
  apply Qle_not_lt. rewrite Hlen.
  unfold Qle, Qfloor, Qdiv, Qmult, Qinv, inject_Z. simpl.
  rewrite !Pos.mul_1_l.
  pose proof (Z.mul_div_le (M * 100) 75). lia.
Qed.

Lemma floor_bound_rejects c M :
  Z.of_nat (String.length c) = Qfloor (inject_Z M / 0.75) + 1 ->
  exceeds_max c (Num M) = true.
Proof.
  intros Hlen. rewrite exceeds_max_spec, Hlen.
  unfold Qlt, Qfloor, Qdiv, Qmult, Qinv, inject_Z. simpl.
  rewrite !Pos.mul_1_l.
  pose proof (Z.mul_succ_div_gt (M * 100) 75). lia.
Qed.

Lemma shares_post_size e w st body c :
  truthy body = true ->
  validateUsername (prop_opt body "recipient") = true ->
  prop_opt body "cipher" = JStr c -> c <> "" ->
  (shares_post e w st body).2 = send 400 (BError "Cipher exceeds maximum size")
  <-> exceeds_max c (maxPayload e) = true.
Proof.
  intros Hb Hv Hc Hne. unfold shares_post. rewrite Hb, Hv, Hc. simpl.
  apply String.eqb_neq in Hne. rewrite Hne.
  destruct (exceeds_max c (maxPayload e)); [done |].
  split; [| done]. repeat case_match; simpl; done.
Qed.

Lemma inbox_post_size e w st body c :
  truthy body = true ->
  validateUsername (prop_opt body "recipient") = true ->
  prop_opt body "cipher" = JStr c -> c <> "" ->
  (inbox_post e w st body).2 = send 400 (BError "Cipher exceeds maximum size")
  <-> exceeds_max c (maxPayload e) = true.
Proof.
  intros Hb Hv Hc Hne. unfold inbox_post. rewrite Hb, Hv, Hc. simpl.
  apply String.eqb_neq in Hne. rewrite Hne.
  destruct (exceeds_max c (maxPayload e)); [done |].
  split; [| done]. repeat case_match; simpl; done.
Qed.

Lemma oversize_is_400 e w st body c :
  prop_opt body "cipher" = JStr c ->
  exceeds_max c (maxPayload e) = true ->
  status (shares_post e w st body).2 = 400
  /\ (shares_post e w st body).1 = st
  /\ status (inbox_post e w st body).2 = 400
  /\ (inbox_post e w st body).1 = st.
Proof.
  intros Hc Hx. unfold shares_post, inbox_post. rewrite Hc, Hx.
  repeat case_match; done.
Qed.


End PayloadGuard.


(** ** C8: [accepted] is idempotent *)

Section Accepted.

Lemma accepted_again w st sessionId e session t :
  SHARES_KV st !! session_key sessionId = Some e ->
  kv_val e = VSession session ->
  acceptedAt session = Some t ->
  (session_accepted w st sessionId).1 = st
  /\ (sessionId <> "" -> kv_live (now w) e = true ->
      (session_accepted w st sessionId).2 = send 200 BOk).
Proof.
  intros He Hv Ha. unfold session_accepted, kv_get. rewrite He, Hv.
  destruct (String.eqb sessionId "") eqn:Hs; simpl.
  - split; [done |]. intros Hne. by apply String.eqb_eq in Hs.
  - destruct (kv_live (now w) e); simpl; rewrite ?Ha; simpl; split; done.
Qed.

(** The state after a sequence of further invocations. *)
Lemma accepted_repeat st sessionId e session t (later : list world) :
  SHARES_KV st !! session_key sessionId = Some e ->
  kv_val e = VSession session ->
  acceptedAt session = Some t ->
  fold_left (fun s w' => (session_accepted w' s sessionId).1) later st = st.
Proof.
  intros He Hv Ha. induction later as [| w' later IH]; [done |].
  simpl. by rewrite (proj1 (accepted_again w' st sessionId e session t He Hv Ha)).
Qed.

(** C8.  For an existing session that has not been accepted, the first
    POST /v1/sessions/:id/accepted answers [{ok}] and rewrites the record
    with [acceptedAt] set to the current time (TTL max(60, remaining)).
    Every later invocation, at any time and however many, leaves every
    store as the first one left it, so the record keeps the [acceptedAt] of
    the first invocation; while the record is stored the answer is
    [{ok}]. *)
Theorem accepted_idempotent w st sessionId session :
  sessionId <> "" ->
  kv_get (now w) (session_key sessionId) (SHARES_KV st) = Some (VSession session) ->
  acceptedAt session = None ->
  let first := session_accepted w st sessionId in
  let rewritten :=
    {| kv_val := VSession (set_acceptedAt (now w) session);
       kv_ttl := Z.max 60 (remaining_sec w session);
       kv_put_at := now w |} in
  first.2 = send 200 BOk
  /\ first.1 = set_shares (insert (session_key sessionId) rewritten) st
  /\ SHARES_KV first.1 !! session_key sessionId = Some rewritten
  /\ (forall later : list world,
        fold_left (fun s w' => (session_accepted w' s sessionId).1) later first.1
        = first.1)
  /\ (forall (later : list world) w',
        kv_live (now w') rewritten = true ->
        session_accepted w'
          (fold_left (fun s w' => (session_accepted w' s sessionId).1) later first.1)
          sessionId
        = (first.1, send 200 BOk)).
Proof.
  intros Hne Hget Hacc first rewritten.
  assert (Hfirst : first = (set_shares (insert (session_key sessionId) rewritten) st,
                            send 200 BOk)).
  { subst first. unfold session_accepted. rewrite Hget, Hacc.
    apply String.eqb_neq in Hne. by rewrite Hne. }
  assert (Hl : SHARES_KV first.1 !! session_key sessionId = Some rewritten).
  { rewrite Hfirst. simpl. by rewrite lookup_insert_eq. }
  assert (Hrep : forall later : list world,
            fold_left (fun s w' => (session_accepted w' s sessionId).1) later first.1
            = first.1).
  { intros later.
    by apply (accepted_repeat _ _ rewritten (set_acceptedAt (now w) session) (now w)). }
  split; [by rewrite Hfirst |]. split; [by rewrite Hfirst |].
  split; [done |]. split; [done |].
  intros later w' Hlive. rewrite Hrep.
  destruct (accepted_again w' first.1 sessionId rewritten
              (set_acceptedAt (now w) session) (now w) Hl eq_refl eq_refl)
    as [Hst Hresp].
  specialize (Hresp Hne Hlive).
  destruct (session_accepted w' first.1 sessionId); simpl in *; congruence.
Qed.

End Accepted.

Lemma accepted_idempotent_witness :
  let st := (run Scenario.digest Scenario.config Scenario.empty Scenario.delivered).1 in
  let first := session_accepted (Scenario.at_time 5000 0) st Scenario.session1 in
  (acceptedAt <$> (kv_get 9000 (session_key Scenario.session1) (SHARES_KV first.1)
                     ≫= as_session)) = Some (Some 5000)
  /\ session_accepted (Scenario.at_time 9000 0)
       (fold_left (fun s w' => (session_accepted w' s Scenario.session1).1)
          [Scenario.at_time 6000 0; Scenario.at_time 7000 0] first.1)
       Scenario.session1
     = (first.1, send 200 BOk).
Proof.
  intros st first. split; [vm_compute; reflexivity |].
  eapply (accepted_idempotent (Scenario.at_time 5000 0) st Scenario.session1);
    [discriminate | vm_compute; reflexivity | reflexivity | vm_compute; reflexivity].
Defined.

(** ** C9: who sees an access request *)

Section RequestsPoll.

Variable sha256 : string -> string.

Lemma hidden_from_false adminUser rec :
  hidden_from adminUser rec = false
  <-> truthy (rq_targetAdmin rec) = false \/ rq_targetAdmin rec = JStr adminUser.
Proof.
  unfold hidden_from, strict_ne. rewrite andb_false_iff.
  split; (intros [H | H]; [by left | right]).
  - destruct (rq_targetAdmin rec); try done.
    apply negb_false_iff, String.eqb_eq in H. by subst.
  - rewrite H. by rewrite String.eqb_refl.
Qed.

Lemma matching_keys_spec t prefix (m : gmap string kv_entry) k :
  k ∈ matching_keys t prefix m
  <-> String.prefix prefix k = true
      /\ exists e, m !! k = Some e /\ kv_live t e = true.
Proof.
  unfold matching_keys. rewrite list_elem_of_filter, list_elem_of_fmap.
  split.
  - intros (Hp & [k' e] & -> & Hin). split; [done |].
    apply elem_of_map_to_list, map_lookup_filter_Some in Hin. simpl in *. eauto.
  - intros (Hp & e & He & Hl). split; [done |]. exists (k, e). split; [done |].
    apply elem_of_map_to_list, map_lookup_filter_Some. done.
Qed.

Lemma kv_list_sub t prefix limit (m : gmap string kv_entry) k :
  k ∈ kv_list t prefix limit m -> k ∈ matching_keys t prefix m.
Proof.
  unfold kv_list. intros Hin%subseteq_take.
  by rewrite merge_sort_Permutation in Hin.
Qed.

Lemma kv_list_length t prefix limit (m : gmap string kv_entry) :
  (length (kv_list t prefix limit m) <= list_limit limit)%nat.
Proof. unfold kv_list. rewrite length_take. lia. Qed.

Lemma kv_list_all t prefix limit (m : gmap string kv_entry) k :
  (length (matching_keys t prefix m) <= list_limit limit)%nat ->
  k ∈ kv_list t prefix limit m <-> k ∈ matching_keys t prefix m.
Proof.
  intros Hlen. unfold kv_list. rewrite take_ge.
  - by rewrite merge_sort_Permutation.
  - by rewrite merge_sort_Permutation.
Qed.

Lemma omap_length_le {A B} (f : A -> option B) (l : list A) :
  (length (omap f l) <= length l)%nat.
Proof. induction l as [| x l IH]; csimpl; [lia |]. destruct (f x); simpl; lia. Qed.

Lemma listed_requests_spec w st limit rec :
  rec ∈ listed_requests w st limit
  <-> exists k, k ∈ kv_list (now w) "request:" limit (SHARES_KV st)
        /\ kv_get (now w) k (SHARES_KV st) = Some (VRequest rec).
Proof.
  unfold listed_requests. rewrite list_elem_of_omap. split.
  - intros (k & Hk & Hget). exists k. split; [done |].
    destruct (kv_get (now w) k (SHARES_KV st)) as [[]|]; simpl in *; congruence.
  - intros (k & Hk & Hget). exists k. by rewrite Hget.
Qed.

Lemma listed_are_stored w st limit rec :
  rec ∈ listed_requests w st limit -> stored_request w st rec.
Proof.
  rewrite listed_requests_spec. intros (k & Hk & Hget).
  apply kv_list_sub, matching_keys_spec in Hk as (Hp & e & He & Hl).
  unfold kv_get in Hget. rewrite He, Hl in Hget. injection Hget as Hv.
  exists k, e. done.
Qed.

Lemma stored_are_listed w st limit rec :
  (length (matching_keys (now w) "request:" (SHARES_KV st)) <= list_limit limit)%nat ->
  stored_request w st rec -> rec ∈ listed_requests w st limit.
Proof.
  intros Hlen (k & e & Hp & He & Hl & Hv). apply listed_requests_spec.
  exists k. split.
  - apply kv_list_all; [done |]. apply matching_keys_spec. eauto.
  - unfold kv_get. by rewrite He, Hl, Hv.
Qed.

(** The limit of a poll: [NaN] when the parameter reads as no number, and
    otherwise a number that makes [kv.list] read between [lo] and [hi]
    keys. *)
Lemma clamp_limit_range lo hi (x : number) :
  0 <= lo <= hi ->
  let limit := math_max (Num lo) (math_min (Num hi) x) in
  (x = NaN -> limit = NaN)
  /\ (x <> NaN -> (Z.to_nat lo <= list_limit limit <= Z.to_nat hi)%nat)
  /\ (forall n, x = Num n -> limit = Num (Z.max lo (Z.min hi n))).
Proof.
  intros Hlo limit. subst limit. split; [by intros -> |].
  split; [| by intros n ->].
  intros Hx. destruct x as [n | q | [] |]; [| | | | done].
  - cbn. lia.
  - cbn. destruct (Qle_bool (inject_Z hi) q) eqn:Hhi; cbn; [lia |].
    destruct (Qle_bool (inject_Z lo) q) eqn:Hq; cbn; [| lia].
    apply Qle_bool_iff in Hq. apply not_true_iff_false in Hhi.
    rewrite Qle_bool_iff in Hhi. apply Qnot_le_lt in Hhi.
    assert (lo <= Qfloor q).
    { rewrite <- (Qfloor_Z lo). by apply Qfloor_resp_le. }
    assert (Qfloor q < hi).
    { rewrite Zlt_Qlt. eapply Qle_lt_trans; [apply Qfloor_le | done]. }
    lia.
  - cbn. lia.
  - cbn. lia.
Qed.

(** C9 (as amended).  A poll by a caller who is not an authenticated admin
    is answered 403.  For an admin A, a request record is in the answer iff
    it is one of the records read for the keys the poll lists and its
    [targetAdmin] is falsy or equal to A; so a request addressed to another
    admin is never returned to A.  The poll lists the live [request:] keys
    in key order up to the limit it hands to [kv.list],
    [Math.max(1, Math.min(100, Number(limit || 25)))]: between 1 and 100
    keys whenever the limit parameter reads as a number, 25 when it is
    absent, and max(1, min(100, n)) when it reads as the whole number n;
    a parameter that reads as no number makes the limit [NaN].  When no
    more requests are stored than the poll lists, every stored request is
    listed, and then a stored request is in the answer iff its
    [targetAdmin] is falsy or equal to A. *)
Theorem poll_filter e w st username_param secret_param limit_param :
  let adminUser := trim username_param in
  let limit := clamp_limit 1 100 25 limit_param in
  let answer := requests_poll sha256 e w st username_param secret_param limit_param in
  (requireAdmin sha256 e st adminUser (trim secret_param) = false ->
   answer = (st, send 403 (BError "Forbidden")))
  /\ (requireAdmin sha256 e st adminUser (trim secret_param) = true ->
      exists items,
        answer = (st, send 200 (BRequests items))
        /\ (forall rec,
              rec ∈ items
              <-> rec ∈ listed_requests w st limit
                  /\ (truthy (rq_targetAdmin rec) = false
                      \/ rq_targetAdmin rec = JStr adminUser))
        /\ (forall rec, rec ∈ items -> stored_request w st rec)
        /\ (forall rec other,
              rq_targetAdmin rec = JStr other -> other <> "" ->
              other <> adminUser -> rec ∉ items)
        /\ (length items <= list_limit limit)%nat
        /\ ((length (matching_keys (now w) "request:" (SHARES_KV st))
              <= list_limit limit)%nat ->
            forall rec,
              rec ∈ items
              <-> stored_request w st rec
                  /\ (truthy (rq_targetAdmin rec) = false
                      \/ rq_targetAdmin rec = JStr adminUser)))
  /\ (Number (or_else (JStr limit_param) (JNum (Num 25))) <> NaN ->
      (1 <= list_limit limit <= 100)%nat)
  /\ (limit_param = "" -> limit = Num 25)
  /\ (forall n,
        limit_param <> "" -> string_to_number limit_param = Num n ->
        limit = Num (Z.max 1 (Z.min 100 n)))
  /\ (Number (or_else (JStr limit_param) (JNum (Num 25))) = NaN -> limit = NaN).
Proof.
  intros adminUser limit answer. subst answer. unfold requests_poll.
  fold adminUser limit.
  destruct (clamp_limit_range 1 100
              (Number (or_else (JStr limit_param) (JNum (Num 25)))))
    as (Hnan & Hrange & Hwhole); [lia |]. fold (clamp_limit 1 100 25 limit_param) in *.
  fold limit in Hnan, Hrange, Hwhole.
  split; [intros ->; done |]. split.
  - intros ->. simpl. eexists. split; [done |].
    assert (Hiff : forall rec,
      rec ∈ filter (fun rec => hidden_from adminUser rec = false)
              (listed_requests w st limit)
      <-> rec ∈ listed_requests w st limit
          /\ (truthy (rq_targetAdmin rec) = false
              \/ rq_targetAdmin rec = JStr adminUser)).
    { intros rec. rewrite list_elem_of_filter, hidden_from_false. tauto. }
    split; [done |]. split; [| split; [| split]].
    + intros rec [Hl _]%Hiff. by apply (listed_are_stored w st limit).
    + intros rec other Hta Hne Hother [_ Hin]%Hiff. rewrite Hta in Hin.
      destruct Hin as [Hf | [= ->]]; [| done].
      simpl in Hf. apply negb_false_iff, String.eqb_eq in Hf. done.
    + etrans; [apply length_filter |].
      unfold listed_requests. etrans; [apply omap_length_le |].
      apply kv_list_length.
    + intros Hlen rec. rewrite Hiff. split; intros [Hs Hf]; (split; [| done]).
      * by apply (listed_are_stored w st limit).
      * by apply stored_are_listed.
  - split_and!.
    + intros Hx. by apply Hrange.
    + intros ->. by apply (Hwhole 25).
    + intros n Hne Hn. apply Hwhole. by rewrite or_else_str.
    + exact Hnan.
Qed.

End RequestsPoll.

(** C9, counterexample to the claim as stated: carol has two requests
    stored for admin alice; alice polls with [limit=1] and is returned the
    first one only, although the second is stored with
    [targetAdmin = "alice"] as well. *)
Lemma poll_limit_counterexample :
  let st := (run Scenario.digest Scenario.config Scenario.empty Scenario.asked).1 in
  let w := Scenario.at_time 3000 0 in
  let second :=
    {| rq_id := "5a5b5c5d5e5f60616263646566676869";
       rq_requester := "carol";
       rq_origin := "https://bank.example";
       rq_url := JNull;
       rq_createdAt := 2000;
       rq_targetAdmin := JStr "alice" |} in
  exists first,
    requests_poll Scenario.digest Scenario.config w st "alice" Scenario.alice_secret "1"
    = (st, send 200 (BRequests [first]))
    /\ rq_id first = "0a0b0c0d0e0f10111213141516171819"
    /\ stored_request w st second
    /\ rq_targetAdmin second = JStr "alice"
    /\ second ∉ [first].
Proof.
  intros st w second. eexists. split; [vm_compute; reflexivity |].
  split; [reflexivity |]. split; [| split; [reflexivity |]].
  - exists (request_key (rq_id second)),
      {| kv_val := VRequest second; kv_ttl := 900; kv_put_at := 2000 |}.
    repeat split; vm_compute; reflexivity.
  - intros Hin. apply list_elem_of_singleton in Hin. discriminate Hin.
Qed.

Lemma poll_filter_witness :
  let st := (run Scenario.digest Scenario.config Scenario.empty Scenario.asked).1 in
  let w := Scenario.at_time 3000 0 in
  exists items,
    requests_poll Scenario.digest Scenario.config w st "dave" Scenario.dave_secret ""
    = (st, send 200 (BRequests items))
    /\ (forall rec other,
          rq_targetAdmin rec = JStr other -> other <> "" -> other <> "dave" ->
          rec ∉ items).
Proof.
  intros st w.
  destruct (poll_filter Scenario.digest Scenario.config w st
              "dave" Scenario.dave_secret "") as (_ & Hadmin & _).
  destruct Hadmin as (items & Hanswer & _ & _ & Hother & _);
    [vm_compute; reflexivity |].
  exists items. split; [exact Hanswer | exact Hother].
Defined.

(** ** C10: an inbox share without a sender has no session *)

Section InboxWithoutSender.

Variable sha256 : string -> string.

Lemma sender_of_blank meta v :
  prop meta "sender" = Some v ->
  truthy v = false \/ (exists s, v = JStr s /\ trim s = "") ->
  sender_of meta = Some "".
Proof.
  intros Hp Hv. unfold sender_of, trim_field, or_else. rewrite Hp.
  destruct Hv as [-> | (s & -> & Ht)]; [done |].
  simpl. destruct (String.eqb s ""); simpl; [done | by rewrite Ht].
Qed.

Lemma shares_after_inbox_put t k v ttl st k' :
  k <> k' ->
  SHARES_KV (set_inboxKV (kv_put t k v ttl) st) !! k' = SHARES_KV st !! k'.
Proof.
  intros Hne. rewrite shares_set_inboxKV.
  destruct (INBOX_KV st); [done |]. unfold kv_put. by rewrite lookup_insert_ne.
Qed.

Lemma kv_get_none t k (m : gmap string kv_entry) :
  m !! k = None -> kv_get t k m = None.
Proof. unfold kv_get. by intros ->. Qed.

Lemma accepted_missing w st sessionId :
  sessionId <> "" ->
  kv_get (now w) (session_key sessionId) (SHARES_KV st) = None ->
  session_accepted w st sessionId = (st, send 404 (BError "Not found")).
Proof.
  intros Hne Hget. unfold session_accepted. rewrite Hget.
  apply String.eqb_neq in Hne. by rewrite Hne.
Qed.

Lemma owned_session_missing e w st sessionId body k :
  kv_get (now w) (session_key sessionId) (SHARES_KV st) = None ->
  (with_owned_session sha256 e w st sessionId body k).1 = st
  /\ status (with_owned_session sha256 e w st sessionId body k).2 <> 200
  /\ (forall adminUser authSecret,
        trim_field (prop_opt body "username") = Some adminUser ->
        trim_field (prop_opt body "authSecret") = Some authSecret ->
        sessionId <> "" ->
        validateUsername (JStr adminUser) = true ->
        requireAdmin sha256 e st adminUser authSecret = true ->
        with_owned_session sha256 e w st sessionId body k
        = (st, send 404 (BError "Not found"))).
Proof.
  intros Hget. unfold with_owned_session. rewrite Hget.
  split; [repeat case_match; done |]. split; [repeat case_match; done |].
  intros adminUser authSecret -> -> Hne Hv Ha.
  apply String.eqb_neq in Hne. by rewrite Hne, Hv, Ha.
Qed.


End InboxWithoutSender.


(** ** Invariants of the stores *)

Section Keys.

Lemma prefix_cons a p c k :
  String.prefix (String a p) (String c k)
  = if ascii_dec a c then String.prefix p k else false.
Proof. reflexivity. Qed.

Lemma prefix_append p s : String.prefix p (p ++ s) = true.
Proof.
  induction p as [| c p IH]; [by destruct s |].
  rewrite append_String, prefix_cons. by destruct (ascii_dec c c).
Qed.

Lemma prefix_head a p k :
  String.prefix (String a p) k = true -> exists k', k = String a k'.
Proof.
  destruct k as [| c k]; [done |]. rewrite prefix_cons.
  destruct (ascii_dec a c) as [-> |]; [eauto | done].
Qed.

Lemma plain_inbox_key r i : plain_key (inbox_key r i).
Proof. left. apply prefix_append. Qed.

Lemma plain_request_key x : plain_key (request_key x).
Proof. right. apply prefix_append. Qed.

Lemma plain_pair_key k v : plain_pair k v -> plain_key k.
Proof. destruct v; simpl; try done; [by left | by right]. Qed.

Lemma plain_not_hex k : plain_key k -> ~ hex_headed k.
Proof.
  intros [H | H] Hh; apply prefix_head in H as [k' ->]; done.
Qed.

Lemma plain_not_session k x : plain_key k -> k <> session_key x.
Proof.
  intros [H | H] ->; apply prefix_head in H as [k' H];
    unfold session_key in H; rewrite append_String in H; done.
Qed.

Lemma plain_not_index k a x : plain_key k -> k <> index_key a x.
Proof.
  intros [H | H] ->; apply prefix_head in H as [k' H];
    unfold index_key in H; rewrite append_String in H; done.
Qed.

Lemma hex_not_session k x : hex_headed k -> k <> session_key x.
Proof. intros H ->. unfold session_key in H. by rewrite append_String in H. Qed.

Lemma hex_not_index k a x : hex_headed k -> k <> index_key a x.
Proof. intros H ->. unfold index_key in H. by rewrite append_String in H. Qed.

Lemma session_key_not_hex x : ~ hex_headed (session_key x).
Proof. intros H. by apply (hex_not_session _ x) in H. Qed.

Lemma index_key_not_hex a x : ~ hex_headed (index_key a x).
Proof. intros H. by apply (hex_not_index _ a x) in H. Qed.

Lemma hex_id_headed n s : hex_id (S n) s -> hex_headed s.
Proof.
  intros [Hlen Hall]. destruct s as [| c s]; [done |].
  unfold all_hex in Hall. simpl in Hall. by apply andb_true_iff in Hall as [? _].
Qed.

Lemma append_eq_same_length u v x y :
  u ++ x = v ++ y -> String.length x = String.length y -> u = v /\ x = y.
Proof.
  revert v. induction u as [| c u IH]; intros v Heq Hlen.
  - destruct v as [| d v]; [done |]. rewrite append_empty in Heq.
    apply (f_equal String.length) in Heq.
    rewrite string_length_app in Heq. simpl in Heq. lia.
  - destruct v as [| d v].
    + rewrite append_empty in Heq. apply (f_equal String.length) in Heq.
      rewrite string_length_app in Heq. simpl in Heq. lia.
    + rewrite !append_String in Heq. injection Heq as -> Heq.
      destruct (IH v Heq Hlen) as [-> ->]. done.
Qed.

Lemma index_key_inj a x b y :
  index_key a x = index_key b y -> String.length x = String.length y ->
  a = b /\ x = y.
Proof.
  unfold index_key. intros Heq%append_inj_l Hlen.
  destruct (append_eq_same_length a b (":" ++ x) (":" ++ y) Heq) as [-> Hxy].
  - rewrite !append_String, !append_empty. simpl. by rewrite Hlen.
  - split; [done |]. by apply (append_inj_l ":").
Qed.

Lemma kv_expires_put t v ttl :
  kv_expires {| kv_val := v; kv_ttl := ttl; kv_put_at := t |} = t + 1000 * ttl.
Proof. reflexivity. Qed.

End Keys.

Section StoreInvariants.

Implicit Types (m : gmap string kv_entry) (tc : gmap string tc_entry).

Lemma consume_200 tc t token :
  status (ShareManager_fetch t tc (TcConsume token)).2 = 200 ->
  exists te, tc !! token = Some te /\ consumed (tc_rec te) = false.
Proof.
  rewrite tc_consume_status. destruct (tc !! token) as [te|]; [| done].
  destruct (consumed (tc_rec te)) eqn:Hc; [done | eauto].
Qed.

Lemma tokens_ok_update fresh (σ σ' : stores) :
  update fresh σ σ' -> tokens_ok σ.2 -> tokens_ok σ'.2.
Proof.
  intros Hup Htc. destruct Hup; cbn [fst snd] in *; try done.
  - intros k te. simpl. destruct (tc !! token) eqn:Ht; simpl; [apply Htc |].
    destruct (decide (token = k)) as [<- | Hne]; [done |].
    rewrite lookup_insert_ne by done. apply Htc.
  - destruct (consume_200 _ _ _ H) as (te & Ht & Hc).
    simpl. rewrite Ht, Hc. simpl. intros k te'.
    destruct (decide (token = k)) as [<- | Hne]; [intros _; by eapply Htc |].
    rewrite lookup_insert_ne by done. apply Htc.
Qed.

Lemma sessions_ok_put_foreign t k0 v ttl m :
  (forall a x, k0 <> index_key a x) -> (forall s, v <> VSession s) ->
  sessions_ok m -> sessions_ok (kv_put t k0 v ttl m).
Proof.
  intros Hk Hv Hm k e s He Hs. unfold kv_put in *.
  destruct (decide (k0 = k)) as [-> | Hne].
  - rewrite lookup_insert_eq in He. injection He as <-. simpl in Hs.
    exfalso. by apply (Hv s).
  - rewrite lookup_insert_ne in He by done.
    destruct (Hm k e s He Hs) as (H1 & H2 & H3 & H4 & ie & H5 & H6 & H7).
    split_and!; try done. exists ie. rewrite lookup_insert_ne; [done | apply Hk].
Qed.

Lemma sessions_ok_delete_foreign k0 m :
  (forall a x, k0 <> index_key a x) ->
  sessions_ok m -> sessions_ok (kv_delete k0 m).
Proof.
  intros Hk Hm k e s He Hs. unfold kv_delete in *.
  apply lookup_delete_Some in He as [Hne He].
  destruct (Hm k e s He Hs) as (H1 & H2 & H3 & H4 & ie & H5 & H6 & H7).
  split_and!; try done. exists ie. rewrite lookup_delete_ne; [done | apply Hk].
Qed.

Lemma sessions_ok_update fresh (σ σ' : stores) :
  update fresh σ σ' -> tokens_ok σ.2 -> sessions_ok σ.1 -> sessions_ok σ'.1.
Proof.
  intros Hup Htc Hm. destruct Hup; cbn [fst snd] in *.
  - apply sessions_ok_put_foreign; [| by destruct v | done].
    intros a x. by apply plain_not_index, (plain_pair_key _ v).
  - apply sessions_ok_delete_foreign; [| done].
    intros a x. by apply plain_not_index.
  - apply sessions_ok_put_foreign; [| done | done].
    intros a x. by apply hex_not_index.
  - apply sessions_ok_delete_foreign; [| done].
    destruct (consume_200 _ _ _ H) as (te & Ht & _).
    intros a x. eapply hex_not_index, Htc, Ht.
  - intros k e s1 He Hs. unfold kv_put in *.
    destruct (decide (k = index_key (sender s) x)) as [-> | Hni].
    { rewrite lookup_insert_eq in He. injection He as <-. done. }
    rewrite lookup_insert_ne in He by done.
    destruct (decide (k = session_key x)) as [-> | Hns].
    + rewrite lookup_insert_eq in He. injection He as <-. simpl in Hs.
      injection Hs as <-. rewrite H0. split_and!; try done.
      { rewrite kv_expires_put. lia. }
      eexists. rewrite lookup_insert_eq. split_and!; try done. rewrite kv_expires_put. lia.
    + rewrite lookup_insert_ne in He by done.
      destruct (Hm k e s1 He Hs) as (H5 & H6 & H7 & H8 & ie & H9 & H10 & H11).
      split_and!; try done. exists ie. split; [| done].
      rewrite lookup_insert_ne.
      * rewrite lookup_insert_ne by apply session_index_key_ne. done.
      * intros Heq. apply index_key_inj in Heq as [_ Heq].
        -- subst k. by rewrite Heq in Hns.
        -- destruct H as [-> _], H6 as [-> _]. done.
  - intros k e s1 He Hs. unfold kv_put in *.
    destruct (Hm _ _ _ H H0) as (H5 & H6 & H7 & H8 & ie & H9 & H10 & H11).
    destruct (decide (k = session_key x)) as [-> | Hns].
    + rewrite lookup_insert_eq in He. injection He as <-. simpl in Hs.
      injection Hs as <-. rewrite H1, H2, H3.
      split_and!; try done.
      exists ie. split; [| done].
      rewrite lookup_insert_ne by apply session_index_key_ne. done.
    + rewrite lookup_insert_ne in He by done.
      destruct (Hm k e s1 He Hs) as (G5 & G6 & G7 & G8 & ie' & G9 & G10 & G11).
      split_and!; try done. exists ie'. split; [| done].
      rewrite lookup_insert_ne by apply session_index_key_ne. done.
  - intros k e s1 He Hs. unfold kv_delete in *.
    apply lookup_delete_Some in He as [Hni He].
    apply lookup_delete_Some in He as [Hns He].
    destruct (Hm _ _ _ H H0) as (H5 & H6 & _).
    apply session_key_inj in H5.
    destruct (Hm k e s1 He Hs) as (G5 & G6 & G7 & G8 & ie' & G9 & G10 & G11).
    split_and!; try done. exists ie'. split; [| done].
    rewrite lookup_delete_ne.
    + rewrite lookup_delete_ne by apply session_index_key_ne. done.
    + intros Heq. apply index_key_inj in Heq as [_ Heq].
      * subst k. by rewrite <- Heq in Hns.
      * rewrite H5. destruct H6 as [-> _], G6 as [-> _]. done.
Qed.

Lemma indexes_ok_put_foreign t k0 v ttl m :
  (forall a x, k0 <> index_key a x) -> (forall x, k0 <> session_key x) ->
  indexes_ok m -> indexes_ok (kv_put t k0 v ttl m).
Proof.
  intros Hi Hs Hm a x ie Hx He Hv. unfold kv_put in *.
  rewrite lookup_insert_ne in He by apply Hi.
  destruct (Hm a x ie Hx He Hv) as (e & s & H1 & H2 & H3).
  exists e, s. rewrite lookup_insert_ne by apply Hs. done.
Qed.

Lemma indexes_ok_delete_foreign k0 m :
  (forall x, k0 <> session_key x) ->
  indexes_ok m -> indexes_ok (kv_delete k0 m).
Proof.
  intros Hs Hm a x ie Hx He Hv. unfold kv_delete in *.
  apply lookup_delete_Some in He as [_ He].
  destruct (Hm a x ie Hx He Hv) as (e & s & H1 & H2 & H3).
  exists e, s. rewrite lookup_delete_ne by apply Hs. done.
Qed.

Lemma indexes_ok_update (σ σ' : stores) :
  update true σ σ' -> tokens_ok σ.2 -> sessions_ok σ.1 ->
  indexes_ok σ.1 -> indexes_ok σ'.1.
Proof.
  intros Hup Htc Hss Hm. destruct Hup; cbn [fst snd] in *.
  - apply indexes_ok_put_foreign; [| | done]; intros;
      [apply plain_not_index | apply plain_not_session]; by apply (plain_pair_key _ v).
  - apply indexes_ok_delete_foreign; [| done]. intros. by apply plain_not_session.
  - apply indexes_ok_put_foreign; [| | done]; intros;
      [by apply hex_not_index | by apply hex_not_session].
  - apply indexes_ok_delete_foreign; [| done].
    destruct (consume_200 _ _ _ H) as (te & Ht & _).
    intros x. eapply hex_not_session, Htc, Ht.
  - intros a y ie Hy He Hv. unfold kv_put in *.
    destruct (decide (index_key (sender s) x = index_key a y)) as [Heq | Hne].
    + apply index_key_inj in Heq as [<- <-];
        [| destruct H as [-> _], Hy as [-> _]; done].
      eexists _, s. rewrite lookup_insert_ne by apply index_session_key_ne.
      rewrite lookup_insert_eq. done.
    + rewrite lookup_insert_ne in He by done.
      rewrite lookup_insert_ne in He by apply session_index_key_ne.
      destruct (Hm a y ie Hy He Hv) as (e & s1 & H5 & H6 & H7).
      exists e, s1. split; [| done].
      rewrite lookup_insert_ne by apply index_session_key_ne.
      rewrite lookup_insert_ne; [done |].
      intros Hk%session_key_inj. subst y.
      rewrite (H3 eq_refl) in H5. done.
  - intros a y ie Hy He Hv. unfold kv_put in *.
    rewrite lookup_insert_ne in He by apply session_index_key_ne.
    destruct (Hm a y ie Hy He Hv) as (e & s1 & H5 & H6 & H7).
    destruct (decide (session_key x = session_key y)) as [Heq | Hne].
    + rewrite <- Heq in *. rewrite H in H5. injection H5 as <-.
      rewrite H0 in H6. injection H6 as <-.
      eexists _, s'. rewrite lookup_insert_eq. split_and!; try done. congruence.
    + exists e, s1. rewrite lookup_insert_ne by done. done.
  - intros a y ie Hy He Hv. unfold kv_delete in *.
    apply lookup_delete_Some in He as [Hni He].
    rewrite lookup_delete_ne in He by apply session_index_key_ne.
    destruct (Hm a y ie Hy He Hv) as (e & s1 & H5 & H6 & H7).
    exists e, s1. split; [| done].
    rewrite lookup_delete_ne by apply index_session_key_ne.
    rewrite lookup_delete_ne; [done |].
    intros Hk%session_key_inj. subst y.
    rewrite H in H5. injection H5 as <-. rewrite H0 in H6. injection H6 as <-.
    by subst a.
Qed.

Lemma shares_ok_foreign m m' tc :
  (forall k, hex_headed k -> m' !! k = m !! k) ->
  (forall k e r, m' !! k = Some e -> kv_val e = VShare r -> m !! k = Some e) ->
  tokens_ok tc -> shares_ok m tc -> shares_ok m' tc.
Proof.
  intros Hsame Hnew Htc [H1 H2]. split.
  - intros token te Ht. rewrite (Hsame token) by (eapply Htc, Ht). by apply H1.
  - intros k e r He Hv. eapply H2; [by eapply Hnew | done].
Qed.

Lemma shares_ok_update (σ σ' : stores) :
  update true σ σ' -> tokens_ok σ.2 -> shares_ok σ.1 σ.2 -> shares_ok σ'.1 σ'.2.
Proof.
  intros Hup Htc Hm. destruct Hup; cbn [fst snd] in *.
  - apply (shares_ok_foreign m); try done; unfold kv_put.
    + intros k' Hh. rewrite lookup_insert_ne; [done |].
      intros ->. apply (plain_not_hex k'); [by apply (plain_pair_key _ v) | done].
    + intros k' e r He Hv. destruct (decide (k = k')) as [-> | Hne].
      * rewrite lookup_insert_eq in He. injection He as <-. simpl in Hv.
        subst v. done.
      * by rewrite lookup_insert_ne in He.
  - apply (shares_ok_foreign m); try done; unfold kv_delete.
    + intros k' Hh. rewrite lookup_delete_ne; [done |].
      intros ->. by apply (plain_not_hex k').
    + intros k' e r He Hv. by apply lookup_delete_Some in He as [_ He].
  - specialize (H0 eq_refl). destruct Hm as [H1 H2]. simpl. rewrite H0.
    unfold kv_put. simpl. split.
    + intros k te. destruct (decide (token = k)) as [<- | Hne].
      * rewrite lookup_insert_eq. intros [= <-]. simpl.
        eexists _, r. rewrite lookup_insert_eq. split_and!; try done.
        rewrite kv_expires_put. lia.
      * rewrite !lookup_insert_ne by done. apply H1.
    + intros k e r' He Hv. destruct (decide (token = k)) as [<- | Hne].
      * by rewrite lookup_insert_eq.
      * rewrite lookup_insert_ne in He by done. rewrite lookup_insert_ne by done.
        by eapply H2.
  - destruct (consume_200 _ _ _ H) as (te & Ht & Hc). destruct Hm as [H1 H2].
    simpl. rewrite Ht, Hc. simpl. unfold kv_delete. split.
    + intros k te'. destruct (decide (token = k)) as [<- | Hne].
      * rewrite lookup_insert_eq. intros [= <-]. simpl. by rewrite lookup_delete_eq.
      * rewrite lookup_insert_ne, lookup_delete_ne by done. apply H1.
    + intros k e r He Hv. apply lookup_delete_Some in He as [Hne He].
      rewrite lookup_insert_ne by done. by eapply H2.
  - apply (shares_ok_foreign m); try done; unfold kv_put.
    + intros k' Hh.
      rewrite lookup_insert_ne by (apply not_eq_sym; by apply hex_not_index).
      rewrite lookup_insert_ne by (apply not_eq_sym; by apply hex_not_session).
      done.
    + intros k' e r He Hv.
      destruct (decide (index_key (sender s) x = k')) as [<- | Hni].
      { rewrite lookup_insert_eq in He. by injection He as <-. }
      rewrite lookup_insert_ne in He by done.
      destruct (decide (session_key x = k')) as [<- | Hns].
      { rewrite lookup_insert_eq in He. by injection He as <-. }
      by rewrite lookup_insert_ne in He.
  - apply (shares_ok_foreign m); try done; unfold kv_put.
    + intros k' Hh.
      rewrite lookup_insert_ne by (apply not_eq_sym; by apply hex_not_session).
      done.
    + intros k' e r He Hv.
      destruct (decide (session_key x = k')) as [<- | Hns].
      { rewrite lookup_insert_eq in He. by injection He as <-. }
      by rewrite lookup_insert_ne in He.
  - apply (shares_ok_foreign m); try done; unfold kv_delete.
    + intros k' Hh.
      rewrite lookup_delete_ne by (apply not_eq_sym; by apply hex_not_index).
      rewrite lookup_delete_ne by (apply not_eq_sym; by apply hex_not_session).
      done.
    + intros k' e r He Hv. apply lookup_delete_Some in He as [_ He].
      by apply lookup_delete_Some in He as [_ He].
Qed.

Lemma typed_ok_update fresh (σ σ' : stores) :
  update fresh σ σ' -> typed_ok σ.1 -> typed_ok σ'.1.
Proof.
  intros Hup Hm. destruct Hup; cbn [fst snd] in *; unfold kv_put, kv_delete.
  - intros k' e He. destruct (decide (k = k')) as [<- | Hne].
    + rewrite lookup_insert_eq in He. injection He as <-. simpl. by destruct v.
    + rewrite lookup_insert_ne in He by done. by apply Hm.
  - intros k' e He. apply lookup_delete_Some in He as [_ He]. by apply Hm.
  - intros k' e He. destruct (decide (token = k')) as [<- | Hne].
    + rewrite lookup_insert_eq in He. by injection He as <-.
    + rewrite lookup_insert_ne in He by done. by apply Hm.
  - intros k' e He. apply lookup_delete_Some in He as [_ He]. by apply Hm.
  - intros k' e He.
    destruct (decide (index_key (sender s) x = k')) as [<- | Hni].
    { rewrite lookup_insert_eq in He. injection He as <-. simpl. eauto. }
    rewrite lookup_insert_ne in He by done.
    destruct (decide (session_key x = k')) as [<- | Hns].
    { rewrite lookup_insert_eq in He. injection He as <-. simpl. by rewrite H0. }
    rewrite lookup_insert_ne in He by done. by apply Hm.
  - intros k' e He. destruct (decide (session_key x = k')) as [<- | Hns].
    + rewrite lookup_insert_eq in He. injection He as <-. simpl.
      pose proof (Hm _ _ H) as Ht. rewrite H0 in Ht. by rewrite H1.
    + rewrite lookup_insert_ne in He by done. by apply Hm.
  - intros k' e He. apply lookup_delete_Some in He as [_ He].
    apply lookup_delete_Some in He as [_ He]. by apply Hm.
Qed.

End StoreInvariants.

(** ** Every request changes the stores by updates *)

Section Refinement.

Variable sha256 : string -> string.

Lemma append_assoc (a b c : string) : (a ++ b) ++ c = a ++ (b ++ c).
Proof. induction a as [| x a IH]; [done |]. rewrite !append_String. by rewrite IH. Qed.

Lemma put_inbox_steps fresh t k v ttl st :
  plain_pair k v ->
  rtc (update fresh) (stores_of st) (stores_of (set_inboxKV (kv_put t k v ttl) st)).
Proof.
  intros Hp. unfold stores_of. rewrite shares_set_inboxKV, manager_set_inboxKV.
  destruct (INBOX_KV st); [apply rtc_refl |]. by apply rtc_once, up_put.
Qed.

Lemma delete_inbox_steps fresh k st :
  plain_key k ->
  rtc (update fresh) (stores_of st) (stores_of (set_inboxKV (kv_delete k) st)).
Proof.
  intros Hp. unfold stores_of. rewrite shares_set_inboxKV, manager_set_inboxKV.
  destruct (INBOX_KV st); [apply rtc_refl |]. by apply rtc_once, up_delete.
Qed.

Lemma kv_get_some t k (m : gmap string kv_entry) v :
  kv_get t k m = Some v ->
  exists e, m !! k = Some e /\ kv_live t e = true /\ kv_val e = v.
Proof.
  unfold kv_get. destruct (m !! k) as [e|]; [| done].
  destruct (kv_live t e) eqn:Hl; [| done]. intros [= <-]. eauto.
Qed.

Lemma remaining_bound w session :
  expiresAt session - 1000 < now w + 1000 * remaining_sec w session.
Proof.
  unfold remaining_sec, floor_div.
  pose proof (Z.mul_succ_div_gt (expiresAt session - now w) 1000). lia.
Qed.

Lemma shares_post_unchanged e w st body :
  status (shares_post e w st body).2 <> 201 -> (shares_post e w st body).1 = st.
Proof. unfold shares_post. repeat case_match; simpl; done. Qed.

Lemma inbox_post_unchanged e w st body :
  status (inbox_post e w st body).2 <> 201 -> (inbox_post e w st body).1 = st.
Proof. unfold inbox_post. repeat case_match; simpl; done. Qed.

Lemma session_revoke_unchanged e w st sessionId body :
  status (session_revoke sha256 e w st sessionId body).2 <> 200 ->
  (session_revoke sha256 e w st sessionId body).1 = st.
Proof. unfold session_revoke, with_owned_session. repeat case_match; simpl; done. Qed.

Lemma session_restore_unchanged e w st sessionId body :
  status (session_restore sha256 e w st sessionId body).2 <> 200 ->
  (session_restore sha256 e w st sessionId body).1 = st.
Proof. unfold session_restore, with_owned_session. repeat case_match; simpl; done. Qed.

Lemma session_delete_cases e w st sessionId body :
  (session_delete sha256 e w st sessionId body).1 = st
  \/ exists session,
       kv_get (now w) (session_key sessionId) (SHARES_KV st) = Some (VSession session)
       /\ (session_delete sha256 e w st sessionId body).1
          = set_shares (kv_delete (index_key (sender session) sessionId))
              (set_shares (kv_delete (session_key sessionId)) st).
Proof.
  unfold session_delete, with_owned_session.
  repeat case_match; simpl; eauto.
Qed.

Lemma session_accepted_cases w st sessionId :
  (session_accepted w st sessionId).1 = st
  \/ exists session,
       kv_get (now w) (session_key sessionId) (SHARES_KV st) = Some (VSession session)
       /\ (session_accepted w st sessionId).1
          = set_shares
              (kv_put (now w) (session_key sessionId)
                 (VSession (set_acceptedAt (now w) session))
                 (Z.max 60 (remaining_sec w session))) st.
Proof.
  unfold session_accepted. repeat case_match; simpl; eauto.
Qed.

Lemma requests_post_cases e w st body :
  (requests_post sha256 e w st body).1 = st
  \/ exists rec,
       (requests_post sha256 e w st body).1
       = set_shares
           (kv_put (now w) (request_key (generateToken 16 (random w)).1)
              (VRequest rec) (15 * 60)) st.
Proof.
  unfold requests_post. repeat case_match; simpl; eauto.
Qed.

Lemma delete_shares_steps fresh k st :
  plain_key k ->
  rtc (update fresh) (stores_of st) (stores_of (set_shares (kv_delete k) st)).
Proof. intros Hp. by apply rtc_once, up_delete. Qed.

Lemma fold_inbox_delete_steps fresh (key : jsval -> string) ids st :
  (forall item, plain_key (key item)) ->
  rtc (update fresh) (stores_of st)
    (stores_of
       (fold_left (fun acc item => set_inboxKV (kv_delete (key item)) acc) ids st)).
Proof.
  intros Hp. revert st. induction ids as [| item ids IH]; intros st; [apply rtc_refl |].
  simpl. etrans; [| apply IH]. by apply delete_inbox_steps.
Qed.

Lemma fold_shares_delete_steps fresh (key : jsval -> string) ids st :
  (forall item, plain_key (key item)) ->
  rtc (update fresh) (stores_of st)
    (stores_of
       (fold_left (fun acc item => set_shares (kv_delete (key item)) acc) ids st)).
Proof.
  intros Hp. revert st. induction ids as [| item ids IH]; intros st; [apply rtc_refl |].
  simpl. etrans; [| apply IH]. by apply delete_shares_steps.
Qed.

Lemma inbox_ack_steps fresh st body :
  rtc (update fresh) (stores_of st) (stores_of (inbox_ack st body).1).
Proof.
  unfold inbox_ack. repeat case_match; simpl; try apply rtc_refl.
  apply (fold_inbox_delete_steps fresh
           (fun item => (("inbox:" ++ _ ++ ":") ++ to_string item))).
  intros item. left. rewrite append_assoc. apply prefix_append.
Qed.

Lemma requests_ack_steps fresh e st body :
  rtc (update fresh) (stores_of st) (stores_of (requests_ack sha256 e st body).1).
Proof.
  unfold requests_ack. repeat case_match; simpl; try apply rtc_refl.
  apply (fold_shares_delete_steps fresh (fun item => "request:" ++ to_string item)).
  intros item. right. apply prefix_append.
Qed.

Lemma users_route_stores w st m username body :
  stores_of (users_route sha256 w st m username body).1 = stores_of st.
Proof. unfold users_route. repeat case_match; done. Qed.

Lemma shares_post_steps fresh e w st body :
  (fresh = true -> new_ids st w (ReqSharesPost body) = true) ->
  rtc (update fresh) (stores_of st) (stores_of (shares_post e w st body).1).
Proof.
  intros Hfresh.
  destruct (decide (status (shares_post e w st body).2 = 201)) as [H | H].
  2:{ rewrite shares_post_unchanged by done. apply rtc_refl. }
  destruct (shares_post_ok e w st body H)
    as (payload & ttl & _ & _ & _ & _ & _ & _ & _ & _ & ->).
  cbn zeta. cbn [fst]. apply rtc_once.
  apply (up_share fresh (SHARES_KV st) (SHARE_MANAGER st)).
  - apply (hex_id_headed 47), (generateToken_format 24).
  - intros Hf. specialize (Hfresh Hf). simpl in Hfresh.
    by apply bool_decide_eq_true in Hfresh.
Qed.

Lemma inbox_post_steps fresh e w st body :
  (fresh = true -> new_ids st w (ReqInboxPost body) = true) ->
  rtc (update fresh) (stores_of st) (stores_of (inbox_post e w st body).1).
Proof.
  intros Hfresh.
  destruct (decide (status (inbox_post e w st body).2 = 201)) as [H | H].
  2:{ rewrite inbox_post_unchanged by done. apply rtc_refl. }
  destruct (inbox_post_ok e w st body H)
    as (payload & ttl & sender & _ & _ & _ & _ & _ & _ & _ & _ & _ & ->).
  cbn zeta. cbn [fst].
  set (st1 := set_inboxKV _ st).
  assert (H1 : rtc (update fresh) (stores_of st) (stores_of st1)).
  { apply put_inbox_steps. simpl. apply prefix_append. }
  destruct (String.eqb sender "") eqn:Hs; [done |].
  etrans; [exact H1 |]. apply rtc_once. apply String.eqb_neq in Hs.
  apply (up_session fresh (SHARES_KV st1) (SHARE_MANAGER st1) (now w)
           (generateToken 20 (generateToken 20 (random w)).2).1
           (new_session body (meta_of body) (prop_opt body "recipient") payload
              sender (generateToken 20 (generateToken 20 (random w)).2).1 (now w)
              (now w + ttl * 1000)) ttl); try done.
  - apply (generateToken_format 20).
  - intros Hf. specialize (Hfresh Hf). simpl in Hfresh.
    apply bool_decide_eq_true in Hfresh. subst st1.
    rewrite shares_after_inbox_put by apply inbox_session_key_ne. done.
Qed.

Lemma rewrite_steps fresh w st sessionId session k v ttl s' :
  kv_get (now w) (session_key sessionId) (SHARES_KV st) = Some (VSession session) ->
  plain_pair k v ->
  session_id s' = session_id session -> sender s' = sender session ->
  expiresAt s' = expiresAt session ->
  expiresAt session - 1000 < now w + 1000 * ttl ->
  rtc (update fresh) (stores_of st)
    (stores_of
       (set_shares (kv_put (now w) (session_key sessionId) (VSession s') ttl)
          (set_inboxKV (kv_put (now w) k v ttl) st))).
Proof.
  intros Hget Hp H1 H2 H3 H4.
  apply kv_get_some in Hget as (e0 & He0 & _ & Hv0).
  etrans; [by apply (put_inbox_steps fresh (now w) k v ttl) |].
  apply rtc_once.
  apply (up_rewrite fresh _ _ (now w) sessionId e0 session s' ttl); try done.
  rewrite shares_after_inbox_put; [done |].
  by apply plain_not_session, (plain_pair_key _ v).
Qed.

Lemma session_revoke_steps fresh e w st sessionId body :
  rtc (update fresh) (stores_of st)
    (stores_of (session_revoke sha256 e w st sessionId body).1).
Proof.
  destruct (decide (status (session_revoke sha256 e w st sessionId body).2 = 200))
    as [H | H].
  2:{ rewrite session_revoke_unchanged by done. apply rtc_refl. }
  destruct (session_revoke_ok sha256 e w st sessionId body H)
    as (adminUser & session & Hget & _ & _ & ->).
  cbn zeta. cbn [fst].
  apply (rewrite_steps fresh w st sessionId session); try done.
  - simpl. apply prefix_append.
  - pose proof (remaining_bound w session). lia.
Qed.

Lemma session_restore_steps fresh e w st sessionId body :
  rtc (update fresh) (stores_of st)
    (stores_of (session_restore sha256 e w st sessionId body).1).
Proof.
  destruct (decide (status (session_restore sha256 e w st sessionId body).2 = 200))
    as [H | H].
  2:{ rewrite session_restore_unchanged by done. apply rtc_refl. }
  destruct (session_restore_ok sha256 e w st sessionId body H)
    as (session & Hget & _ & _ & ->).
  cbn zeta. cbn [fst].
  apply (rewrite_steps fresh w st sessionId session); try done.
  - simpl. apply prefix_append.
  - apply remaining_bound.
Qed.

Lemma session_accepted_steps fresh w st sessionId :
  rtc (update fresh) (stores_of st) (stores_of (session_accepted w st sessionId).1).
Proof.
  destruct (session_accepted_cases w st sessionId) as [-> | (session & Hget & ->)];
    [apply rtc_refl |].
  apply kv_get_some in Hget as (e0 & He0 & _ & Hv0).
  apply rtc_once.
  apply (up_rewrite fresh _ _ (now w) sessionId e0 session); try done.
  pose proof (remaining_bound w session). lia.
Qed.

Lemma session_delete_steps fresh e w st sessionId body :
  rtc (update fresh) (stores_of st)
    (stores_of (session_delete sha256 e w st sessionId body).1).
Proof.
  destruct (session_delete_cases e w st sessionId body)
    as [-> | (session & Hget & ->)]; [apply rtc_refl |].
  apply kv_get_some in Hget as (e0 & He0 & _ & Hv0).
  apply rtc_once. by apply (up_forget fresh _ _ sessionId e0 session).
Qed.

Lemma requests_post_steps fresh e w st body :
  rtc (update fresh) (stores_of st) (stores_of (requests_post sha256 e w st body).1).
Proof.
  destruct (requests_post_cases e w st body) as [-> | (rec & ->)]; [apply rtc_refl |].
  apply rtc_once, up_put. simpl. apply prefix_append.
Qed.

Lemma consume_failed tc t token :
  status (ShareManager_fetch t tc (TcConsume token)).2 <> 200 ->
  (ShareManager_fetch t tc (TcConsume token)).1 = tc.
Proof.
  simpl. destruct (tc !! token) as [te|]; [| done].
  by destruct (consumed (tc_rec te)).
Qed.

Lemma status_keeps tc t token :
  (ShareManager_fetch t tc (TcStatus token)).1 = tc.
Proof.
  simpl. destruct (tc !! token) as [te|]; [| done].
  by destruct (consumed (tc_rec te)).
Qed.

Lemma share_route_steps fresh w st m token consume_suffix :
  rtc (update fresh) (stores_of st)
    (stores_of (share_route w st m token consume_suffix).1).
Proof.
  unfold share_route. destruct (String.eqb token ""); [apply rtc_refl |].
  destruct m; try apply rtc_refl.
  - pose proof (status_keeps (SHARE_MANAGER st) (now w) token) as Hk.
    destruct (ShareManager_fetch (now w) (SHARE_MANAGER st) (TcStatus token))
      as [manager doResp]. simpl in Hk. subst manager.
    repeat case_match; apply rtc_refl.
  - destruct consume_suffix; [| apply rtc_refl].
    destruct (decide (status (ShareManager_fetch (now w) (SHARE_MANAGER st)
                                (TcConsume token)).2 = 200)) as [H | H].
    + pose proof (up_consume fresh (SHARES_KV st) (SHARE_MANAGER st) (now w) token H)
        as Hup.
      destruct (ShareManager_fetch (now w) (SHARE_MANAGER st) (TcConsume token))
        as [manager doResp]. simpl in H. rewrite H. simpl. by apply rtc_once.
    + pose proof (consume_failed _ _ _ H) as Hk.
      destruct (ShareManager_fetch (now w) (SHARE_MANAGER st) (TcConsume token))
        as [manager doResp]. simpl in *. subst manager.
      apply Z.eqb_neq in H. rewrite H. apply rtc_refl.
Qed.

(** Every request moves the stores by a sequence of updates. *)
Lemma fetch_steps fresh e w st req :
  (fresh = true -> new_ids st w req = true) ->
  rtc (update fresh) (stores_of st) (stores_of (fetch sha256 e w st req).1).
Proof.
  intros Hfresh. destruct req; simpl; try apply rtc_refl.
  - rewrite users_route_stores. apply rtc_refl.
  - by apply shares_post_steps.
  - by apply inbox_post_steps.
  - unfold inbox_poll. case_match; apply rtc_refl.
  - apply inbox_ack_steps.
  - unfold sessions_list. repeat case_match; apply rtc_refl.
  - apply session_revoke_steps.
  - apply session_restore_steps.
  - apply session_accepted_steps.
  - apply session_delete_steps.
  - apply requests_post_steps.
  - unfold requests_poll. case_match; apply rtc_refl.
  - apply requests_ack_steps.
  - apply share_route_steps.
Qed.

End Refinement.

(** ** The invariant holds in every reachable state *)

Section Reachable.

Variable sha256 : string -> string.

Lemma store_invariant_update fresh (σ σ' : stores) :
  update fresh σ σ' -> store_invariant fresh σ -> store_invariant fresh σ'.
Proof.
  intros Hup (Ht & Hs & Hty & Hf). split_and!.
  - by eapply tokens_ok_update.
  - by eapply sessions_ok_update.
  - by eapply typed_ok_update.
  - intros ->. destruct (Hf eq_refl) as [Hi Hsh]. split.
    + by eapply indexes_ok_update.
    + by eapply shares_ok_update.
Qed.

Lemma store_invariant_steps fresh (σ σ' : stores) :
  rtc (update fresh) σ σ' -> store_invariant fresh σ -> store_invariant fresh σ'.
Proof. induction 1; [done |]. intros Hinv. eauto using store_invariant_update. Qed.

Lemma store_invariant_initial fresh separate_inbox :
  store_invariant fresh (stores_of (initial separate_inbox)).
Proof.
  unfold store_invariant, stores_of, initial. simpl. split_and!.
  - intros k te Hk. by rewrite lookup_empty in Hk.
  - intros k e s Hk. by rewrite lookup_empty in Hk.
  - intros k e Hk. by rewrite lookup_empty in Hk.
  - intros _. split; [| split].
    + intros a x ie _ Hk. by rewrite lookup_empty in Hk.
    + intros k te Hk. by rewrite lookup_empty in Hk.
    + intros k e r Hk. by rewrite lookup_empty in Hk.
Qed.

Lemma reachable_invariant fresh e st :
  reachable sha256 fresh e st -> store_invariant fresh (stores_of st).
Proof.
  induction 1 as [b | st w req Hr IH Hnew].
  - apply store_invariant_initial.
  - eapply store_invariant_steps; [| exact IH]. by apply fetch_steps.
Qed.

Lemma run_reachable e reqs st :
  reachable sha256 true e st ->
  new_ids_run sha256 e st reqs = true ->
  reachable sha256 true e (run sha256 e st reqs).1.
Proof.
  revert st. induction reqs as [| [w req] reqs IH]; intros st Hr Hnew; [done |].
  simpl in *. apply andb_true_iff in Hnew as [H1 H2].
  pose proof (reachable_step sha256 true e st w req Hr (fun _ => H1)) as Hstep.
  specialize (IH _ Hstep H2).
  destruct (fetch sha256 e w st req) as [st1 r]. simpl in *.
  by destruct (run sha256 e st1 reqs).
Qed.

(** What a read finds under a key agrees with the shape of the key. *)
Lemma reachable_reads fresh e st t :
  reachable sha256 fresh e st ->
  (forall x v,
      kv_get t (session_key x) (SHARES_KV st) = Some v ->
      exists s, v = VSession s /\ session_id s = x)
  /\ (forall k v,
        String.prefix "request:" k = true ->
        kv_get t k (SHARES_KV st) = Some v -> exists r, v = VRequest r)
  /\ (forall token v,
        hex_headed token ->
        kv_get t token (SHARES_KV st) = Some v -> exists r, v = VShare r).
Proof.
  intros Hr. destruct (reachable_invariant _ _ _ Hr) as (_ & _ & Hty & _).
  cbn [stores_of fst] in Hty. split_and!.
  - intros x v (e0 & He & _ & <-)%kv_get_some.
    specialize (Hty _ _ He). destruct (kv_val e0) as [r | en | s | | r].
    + by apply session_key_not_hex in Hty.
    + exfalso. apply (plain_not_session (session_key x) x); [by left | done].
    + apply session_key_inj in Hty. eauto.
    + destruct Hty as (a & y & Hk & _). by apply session_index_key_ne in Hk.
    + exfalso. apply (plain_not_session (session_key x) x); [by right | done].
  - intros k v Hp (e0 & He & _ & <-)%kv_get_some.
    specialize (Hty _ _ He). assert (Hpl : plain_key k) by (by right).
    destruct (kv_val e0) as [r | en | s | | r]; eauto.
    + by apply plain_not_hex in Hpl.
    + simpl in Hty. apply prefix_head in Hp as [k' ->]. by rewrite prefix_cons in Hty.
    + by apply plain_not_session in Hty.
    + destruct Hty as (a & y & Hk & _). by apply plain_not_index in Hk.
  - intros token v Hh (e0 & He & _ & <-)%kv_get_some.
    specialize (Hty _ _ He).
    destruct (kv_val e0) as [r | en | s | | r]; eauto.
    + exfalso. apply (plain_not_hex token); [by left | exact Hh].
    + subst token. by apply session_key_not_hex in Hh.
    + destruct Hty as (a & y & -> & _). by apply index_key_not_hex in Hh.
    + exfalso. apply (plain_not_hex token); [by right | exact Hh].
Qed.

End Reachable.

(** ** C5: session records and their index entries *)

Section SessionIndex.

Variable sha256 : string -> string.

Lemma session_delete_ok e w st sessionId body :
  status (session_delete sha256 e w st sessionId body).2 = 200 ->
  exists session,
    kv_get (now w) (session_key sessionId) (SHARES_KV st) = Some (VSession session)
    /\ session_delete sha256 e w st sessionId body
       = (set_shares (kv_delete (index_key (sender session) sessionId))
            (set_shares (kv_delete (session_key sessionId)) st),
          send 200 BOk).
Proof.
  unfold session_delete, with_owned_session.
  repeat case_match; simpl; try done. eauto.
Qed.

Lemma rewritten_lookups t sessionId v ttl k iv ittl st :
  plain_key k ->
  let after :=
    set_shares (kv_put t (session_key sessionId) v ttl)
      (set_inboxKV (kv_put t k iv ittl) st) in
  SHARES_KV after !! session_key sessionId
  = Some {| kv_val := v; kv_ttl := ttl; kv_put_at := t |}
  /\ (forall a x, SHARES_KV after !! index_key a x = SHARES_KV st !! index_key a x).
Proof.
  intros Hp after. subst after. rewrite shares_set_shares.
  split; [apply kv_put_eq |].
  intros a x. rewrite kv_put_ne by apply session_index_key_ne.
  apply shares_after_inbox_put. by apply plain_not_index.
Qed.

(** What the invariant says of reads: a session record that can be read
    has its index entry readable exactly until the session's [expiresAt]. *)
Lemma session_read_index (m : gmap string kv_entry) t id s :
  sessions_ok m ->
  kv_get t (session_key id) m = Some (VSession s) ->
  session_id s = id /\ sender s <> ""
  /\ (kv_get t (index_key (sender s) id) m = Some VIndex <-> t < expiresAt s).
Proof.
  intros Hok (e0 & He0 & _ & Hv)%kv_get_some.
  destruct (Hok _ _ _ He0 Hv) as (Hk & _ & Hsender & _ & ie & Hie & Hvi & Hexp).
  apply session_key_inj in Hk. subst id. split; [done |]. split; [done |].
  unfold kv_get. rewrite Hie, Hvi. unfold kv_live. rewrite Hexp.
  destruct (Z.ltb_spec t (expiresAt s)); split; (done || lia).
Qed.

(** An index entry that can be read names a session record of that sender,
    readable at least until one second before its [expiresAt]. *)
Lemma index_read_session (m : gmap string kv_entry) t a x :
  sessions_ok m -> indexes_ok m -> hex_id 40 x ->
  kv_get t (index_key a x) m = Some VIndex ->
  exists s,
    sender s = a /\ session_id s = x /\ t < expiresAt s
    /\ forall t', t' <= expiresAt s - 1000 ->
          kv_get t' (session_key x) m = Some (VSession s).
Proof.
  intros Hs Hi Hx (ie & Hie & Hlive & Hvi)%kv_get_some.
  destruct (Hi a x ie Hx Hie Hvi) as (e0 & s & He0 & Hv & Ha).
  destruct (Hs _ _ _ He0 Hv) as (Hk & _ & _ & Hlate & ie' & Hie' & _ & Hexp).
  apply session_key_inj in Hk. subst a x. rewrite Hie in Hie'.
  injection Hie' as <-. exists s. split; [done |]. split; [done |].
  unfold kv_live in Hlive. apply Z.ltb_lt in Hlive. split; [lia |].
  intros t' Ht'. unfold kv_get. rewrite He0, Hv. unfold kv_live.
  destruct (Z.ltb_spec t' (kv_expires e0)); [done | lia].
Qed.

(** C5 (as amended).  In every reachable state and at every time t, a
    session record [session:<id>] that can be read has its index entry
    [sessionBySender:<sender>:<id>] readable exactly while t is before the
    session's [expiresAt]; and, in runs with new identifiers, an index
    entry that can be read names a session record of that sender, which
    can be read at least until one second before its [expiresAt].
    Creation writes both with the same TTL at the same time, so that both
    expire at the session's [expiresAt], and delete removes both.  Revoke,
    restore and accepted rewrite the session record alone, with TTL
    [ttlLeftSec] counted from the rewrite (max(60, remaining) for revoke
    and accepted, remaining > 60 for restore), and leave the index entry
    as it was written at creation: the TTLs of the pair are not kept
    equal, and the record can be read after its index entry has expired. *)
Theorem session_index_pairing :
  (forall fresh e st,
      reachable sha256 fresh e st ->
      forall t id s,
        kv_get t (session_key id) (SHARES_KV st) = Some (VSession s) ->
        session_id s = id /\ sender s <> ""
        /\ (kv_get t (index_key (sender s) id) (SHARES_KV st) = Some VIndex
            <-> t < expiresAt s))
  /\ (forall e st,
        reachable sha256 true e st ->
        forall t a x,
          hex_id 40 x ->
          kv_get t (index_key a x) (SHARES_KV st) = Some VIndex ->
          exists s,
            sender s = a /\ session_id s = x /\ t < expiresAt s
            /\ forall t', t' <= expiresAt s - 1000 ->
                  kv_get t' (session_key x) (SHARES_KV st) = Some (VSession s))
  /\ (forall e w st body who,
        status (inbox_post e w st body).2 = 201 ->
        sender_of (meta_of body) = Some who -> who <> "" ->
        let sessionId := (generateToken 20 (generateToken 20 (random w)).2).1 in
        let after := (inbox_post e w st body).1 in
        exists ttl s,
          SHARES_KV after !! session_key sessionId
          = Some {| kv_val := VSession s; kv_ttl := ttl; kv_put_at := now w |}
          /\ SHARES_KV after !! index_key who sessionId
             = Some {| kv_val := VIndex; kv_ttl := ttl; kv_put_at := now w |}
          /\ sender s = who /\ session_id s = sessionId
          /\ expiresAt s = now w + 1000 * ttl)
  /\ (forall e w st sessionId body,
        status (session_delete sha256 e w st sessionId body).2 = 200 ->
        let after := (session_delete sha256 e w st sessionId body).1 in
        exists session,
          kv_get (now w) (session_key sessionId) (SHARES_KV st)
          = Some (VSession session)
          /\ SHARES_KV after !! session_key sessionId = None
          /\ SHARES_KV after !! index_key (sender session) sessionId = None)
  /\ (forall e w st sessionId body,
        status (session_revoke sha256 e w st sessionId body).2 = 200 ->
        let after := (session_revoke sha256 e w st sessionId body).1 in
        exists session,
          kv_get (now w) (session_key sessionId) (SHARES_KV st)
          = Some (VSession session)
          /\ SHARES_KV after !! session_key sessionId
             = Some {| kv_val := VSession (set_revokedAt (now w) session);
                       kv_ttl := Z.max 60 (remaining_sec w session);
                       kv_put_at := now w |}
          /\ (forall a x,
                SHARES_KV after !! index_key a x = SHARES_KV st !! index_key a x))
  /\ (forall e w st sessionId body,
        status (session_restore sha256 e w st sessionId body).2 = 200 ->
        let after := (session_restore sha256 e w st sessionId body).1 in
        exists session,
          kv_get (now w) (session_key sessionId) (SHARES_KV st)
          = Some (VSession session)
          /\ 60 < remaining_sec w session
          /\ SHARES_KV after !! session_key sessionId
             = Some {| kv_val := VSession (set_restoredAt (now w) session);
                       kv_ttl := remaining_sec w session;
                       kv_put_at := now w |}
          /\ (forall a x,
                SHARES_KV after !! index_key a x = SHARES_KV st !! index_key a x))
  /\ (forall w st sessionId session,
        sessionId <> "" ->
        kv_get (now w) (session_key sessionId) (SHARES_KV st)
        = Some (VSession session) ->
        acceptedAt session = None ->
        let after := (session_accepted w st sessionId).1 in
        SHARES_KV after !! session_key sessionId
        = Some {| kv_val := VSession (set_acceptedAt (now w) session);
                  kv_ttl := Z.max 60 (remaining_sec w session);
                  kv_put_at := now w |}
        /\ (forall a x,
              SHARES_KV after !! index_key a x = SHARES_KV st !! index_key a x)).
Proof.
  split_and!.
  - intros fresh e st Hr t id s.
    destruct (reachable_invariant sha256 _ _ _ Hr) as (_ & Hok & _).
    by apply session_read_index.
  - intros e st Hr t a x.
    destruct (reachable_invariant sha256 _ _ _ Hr) as (_ & Hok & _ & Hf).
    destruct (Hf eq_refl) as [Hi _]. by apply index_read_session.
  - intros e w st body who H Hs Hne sessionId after. subst after.
    destruct (inbox_post_ok e w st body H)
      as (payload & ttl & who' & _ & _ & _ & _ & _ & _ & _ & Hs' & _ & ->).
    rewrite Hs in Hs'. injection Hs' as <-.
    apply String.eqb_neq in Hne. cbn zeta. cbn [fst]. rewrite Hne.
    eexists ttl, _. unfold set_shares, kv_put. simpl. split_and!.
    + rewrite lookup_insert_ne by apply index_session_key_ne.
      by rewrite lookup_insert_eq.
    + by rewrite lookup_insert_eq.
    + done.
    + done.
    + simpl. lia.
  - intros e w st sessionId body H after. subst after.
    destruct (session_delete_ok e w st sessionId body H) as (session & Hget & ->).
    exists session. unfold set_shares, kv_delete. simpl. split_and!; [done | |].
    + rewrite lookup_delete_ne by apply index_session_key_ne.
      by rewrite lookup_delete_eq.
    + by rewrite lookup_delete_eq.
  - intros e w st sessionId body H after. subst after.
    destruct (session_revoke_ok sha256 e w st sessionId body H)
      as (adminUser & session & Hget & _ & _ & ->).
    exists session. split; [done |]. cbn zeta. cbn [fst].
    apply rewritten_lookups, plain_inbox_key.
  - intros e w st sessionId body H after. subst after.
    destruct (session_restore_ok sha256 e w st sessionId body H)
      as (session & Hget & _ & Hleft & ->).
    exists session. split; [done |]. split; [done |]. cbn zeta. cbn [fst].
    apply rewritten_lookups, plain_inbox_key.
  - intros w st sessionId session Hne Hget Hacc after. subst after.
    unfold session_accepted. rewrite Hget, Hacc.
    apply String.eqb_neq in Hne. rewrite Hne. unfold set_shares, kv_put. simpl.
    split; [by rewrite lookup_insert_eq |].
    intros a x. by rewrite lookup_insert_ne by apply session_index_key_ne.
Qed.

End SessionIndex.

Lemma scenario_revoked_reachable :
  reachable Scenario.digest true Scenario.config
    (run Scenario.digest Scenario.config Scenario.empty Scenario.revoked).1.
Proof.
  apply run_reachable; [apply (reachable_initial _ _ _ false) |].
  vm_compute. reflexivity.
Qed.

(** C5, counterexample to the claim as stated: alice sends bob a share that
    lives 120 seconds and revokes it after 100 seconds.  The rewrite gives
    the session record a TTL of 60 seconds from then on, while the index
    entry keeps the 120 seconds from creation: the TTLs differ, and 130
    seconds after creation the session record is still read while its
    index entry is gone.  When bob instead accepts the share 19.5 seconds
    after creation, the record is rewritten with the 100 whole seconds that
    are left, and in the last half second of the index entry the record is
    read no more. *)
Lemma session_outlives_index_counterexample :
  let st := (run Scenario.digest Scenario.config Scenario.empty Scenario.revoked).1 in
  let st' :=
    (run Scenario.digest Scenario.config Scenario.empty
       (Scenario.delivered
        ++ [(Scenario.at_time 20500 0, ReqAccepted Scenario.session1)])%list).1 in
  reachable Scenario.digest true Scenario.config st
  /\ kv_ttl <$> SHARES_KV st !! session_key Scenario.session1 = Some 60
  /\ kv_ttl <$> SHARES_KV st !! index_key "alice" Scenario.session1 = Some 120
  /\ kv_expires <$> SHARES_KV st !! session_key Scenario.session1 = Some 161000
  /\ kv_expires <$> SHARES_KV st !! index_key "alice" Scenario.session1 = Some 121000
  /\ (exists s,
        kv_get 131000 (session_key Scenario.session1) (SHARES_KV st)
        = Some (VSession s)
        /\ sender s = "alice" /\ expiresAt s = 121000)
  /\ kv_get 131000 (index_key "alice" Scenario.session1) (SHARES_KV st) = None
  /\ kv_ttl <$> SHARES_KV st' !! session_key Scenario.session1 = Some 100
  /\ kv_get 120700 (index_key "alice" Scenario.session1) (SHARES_KV st')
     = Some VIndex
  /\ kv_get 120700 (session_key Scenario.session1) (SHARES_KV st') = None.
Proof.
  intros st st'. split; [apply scenario_revoked_reachable |].
  split_and!; try (vm_compute; reflexivity).
  eexists. split; [vm_compute; reflexivity |]. split; reflexivity.
Qed.

Lemma session_index_pairing_witness :
  let st := (run Scenario.digest Scenario.config Scenario.empty Scenario.revoked).1 in
  (exists s,
      kv_get 110000 (session_key Scenario.session1) (SHARES_KV st)
      = Some (VSession s)
      /\ (kv_get 110000 (index_key (sender s) Scenario.session1) (SHARES_KV st)
          = Some VIndex
          <-> 110000 < expiresAt s))
  /\ (exists s,
        sender s = "alice" /\ 110000 < expiresAt s
        /\ kv_get 109000 (session_key Scenario.session1) (SHARES_KV st)
           = Some (VSession s)).
Proof.
  intros st.
  destruct (session_index_pairing Scenario.digest) as (Hs & Hi & _).
  split.
  - eexists. split; [vm_compute; reflexivity |].
    refine (proj2 (proj2
      (Hs true Scenario.config st scenario_revoked_reachable 110000
         Scenario.session1 _ _))).
    vm_compute. reflexivity.
  - destruct (Hi Scenario.config st scenario_revoked_reachable 110000 "alice"
                Scenario.session1) as (s & Ha & _ & Hexp & Hread).
    + split; vm_compute; reflexivity.
    + vm_compute. reflexivity.
    + exists s. split; [exact Ha |]. split; [exact Hexp |].
      apply Hread. lia.
Defined.

(** ** C2: consuming a share *)

Section Consume.

Variable sha256 : string -> string.

Lemma consumed_update fresh (σ σ' : stores) token :
  update fresh σ σ' -> tc_consumed σ.2 token -> tc_consumed σ'.2 token.
Proof.
  intros Hup Hc. destruct Hup; cbn [fst snd] in *; try done;
    by apply tc_step_consumed.
Qed.

Lemma consumed_steps fresh (σ σ' : stores) token :
  rtc (update fresh) σ σ' -> tc_consumed σ.2 token -> tc_consumed σ'.2 token.
Proof. induction 1; [done |]. eauto using consumed_update. Qed.

Lemma consumed_run e st reqs token :
  tc_consumed (SHARE_MANAGER st) token ->
  tc_consumed (SHARE_MANAGER (run sha256 e st reqs).1) token.
Proof.
  revert st. induction reqs as [| [w req] reqs IH]; intros st Hc; [done |].
  simpl.
  pose proof (consumed_steps false _ _ token
                (fetch_steps sha256 false e w st req (fun H => False_ind _ (Bool.diff_false_true H)))
                Hc) as H1.
  destruct (fetch sha256 e w st req) as [st1 r]. specialize (IH st1 H1).
  by destruct (run sha256 e st1 reqs).
Qed.

Lemma share_route_consumed w st token m flag :
  token <> "" ->
  tc_consumed (SHARE_MANAGER st) token ->
  (m = GET \/ (m = POST /\ flag = true)) ->
  share_route w st m token flag = (st, send 410 (BError "Already consumed")).
Proof.
  intros Hne (te & Ht & Hc) Hm. unfold share_route.
  apply String.eqb_neq in Hne. rewrite Hne.
  destruct st as [users shares inbox manager]. simpl in *.
  destruct Hm as [-> | [-> ->]]; rewrite Ht, Hc; done.
Qed.

Lemma share_consume_204 w st token :
  status (share_route w st POST token true).2 = 204 ->
  token <> ""
  /\ status (ShareManager_fetch (now w) (SHARE_MANAGER st) (TcConsume token)).2 = 200
  /\ share_route w st POST token true
     = (set_shares (kv_delete token)
          (set_manager
             (ShareManager_fetch (now w) (SHARE_MANAGER st) (TcConsume token)).1 st),
        send 204 BNone).
Proof.
  unfold share_route. destruct (String.eqb token "") eqn:Hne; [done |].
  apply String.eqb_neq in Hne.
  pose proof (tc_consume_status (SHARE_MANAGER st) (now w) token) as Hst.
  destruct (ShareManager_fetch (now w) (SHARE_MANAGER st) (TcConsume token))
    as [manager doResp] eqn:Hf. simpl in Hst.
  destruct (status doResp =? 200) eqn:H200; simpl.
  - apply Z.eqb_eq in H200. intros _. split_and!; done.
  - intros H204. rewrite H204 in Hst. repeat case_match; done.
Qed.

(** C2.  When POST /v1/shares/:token/consume succeeds the answer is 204
    with an empty body and the share record is deleted from the shares
    namespace under the token, which the coordinator now holds as consumed.
    After that, whatever requests follow, a consume of the token is answered
    410 and so is GET /v1/shares/:token.  In every state reached by runs
    with new tokens, a share record is read under a token iff the
    coordinator knows the token, has not consumed it, and its [expiresAt]
    has not passed. *)
Theorem consume_deletes_share :
  (forall w st token,
      status (share_route w st POST token true).2 = 204 ->
      let after := (share_route w st POST token true).1 in
      (share_route w st POST token true).2 = send 204 BNone
      /\ SHARES_KV after = kv_delete token (SHARES_KV st)
      /\ (forall t, kv_get t token (SHARES_KV after) = None)
      /\ tc_consumed (SHARE_MANAGER after) token
      /\ (forall e later w' flag,
            let final := (run sha256 e after later).1 in
            share_route w' final POST token true
            = (final, send 410 (BError "Already consumed"))
            /\ share_route w' final GET token flag
               = (final, send 410 (BError "Already consumed"))))
  /\ (forall e st,
        reachable sha256 true e st ->
        forall token t,
          (exists r, kv_get t token (SHARES_KV st) = Some (VShare r))
          <-> (exists te,
                 SHARE_MANAGER st !! token = Some te
                 /\ consumed (tc_rec te) = false
                 /\ t < tc_expiresAt (tc_rec te))).
Proof.
  split.
  - intros w st token H after. subst after.
    destruct (share_consume_204 w st token H) as (Hne & H200 & ->).
    cbn [fst snd].
    assert (Hc : tc_consumed
              (ShareManager_fetch (now w) (SHARE_MANAGER st) (TcConsume token)).1 token)
      by (by apply tc_consume_success).
    split_and!; try done.
    + intros t. apply kv_get_none. unfold kv_delete. simpl. apply lookup_delete_eq.
    + intros e later w' flag.
      split; apply share_route_consumed; try done; try (by apply consumed_run); auto.
  - intros e st Hr token t.
    destruct (reachable_invariant sha256 _ _ _ Hr) as (_ & _ & _ & Hf).
    destruct (Hf eq_refl) as (_ & H1 & H2). cbn [stores_of fst snd] in *.
    split.
    + intros (r & (e0 & He & Hl & Hv)%kv_get_some).
      destruct (H2 _ _ _ He Hv) as [te Ht]. exists te. split; [done |].
      specialize (H1 _ _ Ht). destruct (consumed (tc_rec te)); [congruence |].
      destruct H1 as (e1 & r1 & He1 & _ & Hx). split; [done |].
      rewrite He in He1. injection He1 as <-. rewrite <- Hx.
      by apply Z.ltb_lt in Hl.
    + intros (te & Ht & Hc & Hlt). specialize (H1 _ _ Ht). rewrite Hc in H1.
      destruct H1 as (e1 & r1 & He1 & Hv & Hx). exists r1.
      unfold kv_get, kv_live. rewrite He1, Hx.
      apply Z.ltb_lt in Hlt. by rewrite Hlt, Hv.
Qed.

End Consume.

Lemma consume_deletes_share_witness :
  let st := (run Scenario.digest Scenario.config Scenario.empty Scenario.shared).1 in
  let w := Scenario.at_time 5000 0 in
  let after := (share_route w st POST Scenario.token1 true).1 in
  (share_route w st POST Scenario.token1 true).2 = send 204 BNone
  /\ (forall t, kv_get t Scenario.token1 (SHARES_KV after) = None)
  /\ share_route (Scenario.at_time 7000 0)
       (run Scenario.digest Scenario.config after
          [(Scenario.at_time 6000 7,
            ReqSharesPost
              (JObj [("recipient", JStr "bob"); ("cipher", JStr "b3RoZXI")]))]).1
       GET Scenario.token1 false
     = ((run Scenario.digest Scenario.config after
           [(Scenario.at_time 6000 7,
             ReqSharesPost
               (JObj [("recipient", JStr "bob"); ("cipher", JStr "b3RoZXI")]))]).1,
        send 410 (BError "Already consumed")).
Proof.
  intros st w after.
  destruct (consume_deletes_share Scenario.digest) as (Hconsume & _).
  destruct (Hconsume w st Scenario.token1) as (Hresp & _ & Hgone & _ & Hlater);
    [vm_compute; reflexivity |].
  split; [exact Hresp |]. split; [exact Hgone |].
  apply (Hlater Scenario.config
           [(Scenario.at_time 6000 7,
             ReqSharesPost
               (JObj [("recipient", JStr "bob"); ("cipher", JStr "b3RoZXI")]))]
           (Scenario.at_time 7000 0) false).
Defined.

(** * Further properties of the worker *)

(** ** Characters and trimming *)

Section Characters.

Lemma name_char_plain c :
  is_name_char c = true ->
  is_white c = false /\ c <> ":"%char /\ c <> ","%char /\ c <> "/"%char.
Proof.
  destruct c as [[] [] [] [] [] [] [] []]; vm_compute; intros H;
    repeat split; congruence.
Qed.

Lemma alnum_name_char c : is_alnum c = true -> is_name_char c = true.
Proof. unfold is_name_char. by intros ->. Qed.

Lemma base64_plain c :
  is_base64 c = true -> is_white c = false /\ c <> "="%char.
Proof.
  destruct c as [[] [] [] [] [] [] [] []]; vm_compute; intros H;
    repeat split; congruence.
Qed.

Lemma list_of_string_of_list l :
  list_ascii_of_string (string_of_list_ascii l) = l.
Proof. apply list_ascii_of_string_of_list_ascii. Qed.

Lemma string_of_list_of_string s :
  string_of_list_ascii (list_ascii_of_string s) = s.
Proof. apply string_of_list_ascii_of_string. Qed.

Lemma drop_space_head l :
  drop_space l = [] \/ exists c t, drop_space l = c :: t /\ is_white c = false.
Proof.
  induction l as [| c l IH]; [by left |]. simpl.
  destruct (is_white c) eqn:Hc; [done |]. right. eauto.
Qed.

Lemma drop_space_split l :
  exists ws, l = (ws ++ drop_space l)%list /\ Forall (fun c => is_white c = true) ws.
Proof.
  induction l as [| c l (ws & Hl & Hws)]; [by exists [] |]. simpl.
  destruct (is_white c) eqn:Hc.
  - exists (c :: ws). split; [simpl; congruence | by constructor].
  - by exists [].
Qed.

Lemma drop_space_keep l :
  match l with [] => True | c :: _ => is_white c = false end ->
  drop_space l = l.
Proof. destruct l as [| c l]; [done |]. simpl. by intros ->. Qed.

Lemma drop_space_all_white l :
  Forall (fun c => is_white c = true) l -> drop_space l = [].
Proof. induction 1 as [| c l Hc _ IH]; [done |]. simpl. by rewrite Hc. Qed.

Lemma drop_space_sub l c : c ∈ drop_space l -> c ∈ l.
Proof.
  destruct (drop_space_split l) as (ws & Hl & _). intros Hc.
  rewrite Hl. apply elem_of_app. by right.
Qed.

Lemma elem_of_rev {A} (l : list A) x : x ∈ rev l <-> x ∈ l.
Proof. by rewrite !list_elem_of_In, <- in_rev. Qed.

Lemma trim_sub s c :
  c ∈ list_ascii_of_string (trim s) -> c ∈ list_ascii_of_string s.
Proof.
  unfold trim. rewrite list_of_string_of_list, elem_of_rev.
  intros H%drop_space_sub. rewrite elem_of_rev in H.
  by apply drop_space_sub.
Qed.

(** A string without white space at its ends is its own trimming. *)
Lemma trim_plain s :
  Forall (fun c => is_white c = false) (list_ascii_of_string s) -> trim s = s.
Proof.
  intros Hs. unfold trim.
  rewrite (drop_space_keep (list_ascii_of_string s)).
  2:{ destruct Hs; done. }
  rewrite drop_space_keep.
  - by rewrite rev_involutive, string_of_list_of_string.
  - apply Forall_rev in Hs. destruct Hs; done.
Qed.

Lemma trim_all_white s :
  Forall (fun c => is_white c = true) (list_ascii_of_string s) -> trim s = "".
Proof.
  intros Hs. unfold trim. by rewrite (drop_space_all_white _ Hs).
Qed.

(** Trimming twice is trimming once. *)
Lemma trim_trim s : trim (trim s) = trim s.
Proof.
  unfold trim at 1. unfold trim. rewrite list_of_string_of_list.
  set (l1 := drop_space (list_ascii_of_string s)).
  set (l2 := drop_space (rev l1)).
  assert (H2 : drop_space (rev l2) = rev l2).
  { apply drop_space_keep.
    destruct (drop_space_head (rev l1)) as [Hnil | (c & t & Hl2 & Hc)];
      fold l2 in Hnil || fold l2 in Hl2.
    - by rewrite Hnil.
    - destruct (drop_space_split (rev l1)) as (ws & Hsplit & _). fold l2 in Hsplit.
      assert (Hl1 : l1 = (rev l2 ++ rev ws)%list).
      { rewrite <- (rev_involutive l1), Hsplit. by rewrite rev_app_distr. }
      destruct (rev l2) as [| c' t'] eqn:Hr.
      + done.
      + destruct (drop_space_head (list_ascii_of_string s))
          as [Hnil | (c0 & t0 & Hl1' & Hc0)]; fold l1 in Hnil || fold l1 in Hl1'.
        * rewrite Hnil in Hl1. done.
        * rewrite Hl1' in Hl1. simpl in Hl1. by injection Hl1 as <- _. }
  rewrite H2, rev_involutive.
  rewrite (drop_space_keep l2); [done |].
  destruct (drop_space_head (rev l1)) as [Hnil | (c & t & Hl2 & Hc)];
    fold l2 in Hnil || fold l2 in Hl2.
  - by rewrite Hnil.
  - by rewrite Hl2.
Qed.

End Characters.

(** ** Usernames *)

Section Usernames.

Lemma validateUsername_chars v :
  validateUsername v = true ->
  truthy v = true
  /\ exists c rest,
       to_string v = String c rest /\ is_alnum c = true
       /\ (String.length rest <= 63)%nat
       /\ forallb is_name_char (list_ascii_of_string rest) = true.
Proof.
  unfold validateUsername, or_else.
  destruct (truthy v) eqn:Ht; [| done].
  destruct (to_string v) as [| c rest]; [done |].
  intros (Hrest & Hall)%andb_true_iff. apply andb_true_iff in Hrest as [Hc Hlen].
  apply Nat.leb_le in Hlen. split; [done |]. exists c, rest. done.
Qed.

Lemma validateUsername_name_chars v :
  validateUsername v = true ->
  Forall (fun c => is_name_char c = true) (list_ascii_of_string (to_string v)).
Proof.
  intros (_ & c & rest & -> & Hc & _ & Hall)%validateUsername_chars. simpl.
  constructor; [by apply alnum_name_char |].
  apply Forall_forall. intros x Hx.
  rewrite forallb_forall in Hall. by apply Hall, list_elem_of_In.
Qed.

Lemma validateUsername_trim v :
  validateUsername v = true -> trim (to_string v) = to_string v.
Proof.
  intros Hv%validateUsername_name_chars. apply trim_plain.
  eapply Forall_impl; [exact Hv |]. intros c Hc. by apply name_char_plain.
Qed.

Lemma validateUsername_string v :
  validateUsername v = true -> validateUsername (JStr (to_string v)) = true.
Proof.
  intros Hv. destruct (validateUsername_chars v Hv) as (Ht & c & rest & Hs & _).
  unfold validateUsername, or_else in *. rewrite Ht in Hv. simpl.
  rewrite Hs in *. simpl. exact Hv.
Qed.

End Usernames.

(** X1.  A value accepted by [validateUsername] is truthy, and its
    string form has between 1 and 64 characters, all of them letters,
    digits, [_], [.] or [-]: it holds no colon, comma, slash or white
    space, so trimming leaves it as it is, and the string form is accepted
    as well. *)
Theorem valid_username_shape v :
  validateUsername v = true ->
  truthy v = true
  /\ (1 <= String.length (to_string v) <= 64)%nat
  /\ (forall c, c ∈ list_ascii_of_string (to_string v) ->
        is_name_char c = true /\ is_white c = false
        /\ c <> ":"%char /\ c <> ","%char /\ c <> "/"%char)
  /\ trim (to_string v) = to_string v
  /\ validateUsername (JStr (to_string v)) = true.
Proof.
  intros Hv. split_and!.
  - by destruct (validateUsername_chars v Hv).
  - destruct (validateUsername_chars v Hv) as (_ & c & rest & -> & _ & Hlen & _).
    simpl. lia.
  - destruct (validateUsername_chars v Hv) as (_ & c & rest & -> & _ & Hlen & _).
    simpl. lia.
  - intros c Hc. pose proof (validateUsername_name_chars v Hv) as Hall.
    rewrite Forall_forall in Hall. apply Hall in Hc.
    split; [done |]. by apply name_char_plain.
  - by apply validateUsername_trim.
  - by apply validateUsername_string.
Qed.

Lemma valid_username_shape_witness :
  trim (to_string (JArr [JStr "bob-2"])) = to_string (JArr [JStr "bob-2"])
  /\ validateUsername (JStr (to_string (JArr [JStr "bob-2"]))) = true.
Proof.
  destruct (valid_username_shape (JArr [JStr "bob-2"])) as (_ & _ & _ & Ht & Hs).
  - vm_compute. reflexivity.
  - split; [exact Ht | exact Hs].
Defined.

(** ** Comma-separated lists *)

Section Lists.

Lemma split_chars_chars sep cur l x c :
  x ∈ split_chars sep cur l ->
  c ∈ list_ascii_of_string x ->
  c ∈ cur \/ (c ∈ l /\ c <> sep).
Proof.
  revert cur. induction l as [| c0 l IH]; intros cur; simpl.
  - intros ->%list_elem_of_singleton. rewrite list_of_string_of_list, elem_of_rev.
    by left.
  - destruct (Ascii.eqb c0 sep) eqn:Hsep.
    + intros [-> | Hx]%elem_of_cons Hc.
      * rewrite list_of_string_of_list, elem_of_rev in Hc. by left.
      * destruct (IH [] Hx Hc) as [Hnil | [Hin Hne]]; [by apply elem_of_nil in Hnil |].
        right. split; [by right | done].
    + apply Ascii.eqb_neq in Hsep. intros Hx Hc.
      destruct (IH (c0 :: cur) Hx Hc) as [[-> | Hin]%elem_of_cons | [Hin Hne]].
      * right. split; [by left | done].
      * by left.
      * right. split; [by right | done].
Qed.

Lemma split_chars_sub sep s x c :
  x ∈ split sep s -> c ∈ list_ascii_of_string x ->
  c ∈ list_ascii_of_string s /\ c <> sep.
Proof.
  intros Hx Hc. destruct (split_chars_chars sep [] _ x c Hx Hc) as [Hnil | H];
    [by apply elem_of_nil in Hnil | done].
Qed.

(** The entries of a comma-separated setting, as [parseAdmins] and
    [corsHeaders] read it. *)
Lemma parseAdmins_spec s x :
  x ∈ parseAdmins s
  <-> x <> "" /\ exists raw, raw ∈ split "," s /\ x = trim raw.
Proof.
  unfold parseAdmins. rewrite list_elem_of_filter, list_elem_of_fmap.
  split; intros (Hne & raw & H1 & H2); (split; [done |]); by exists raw.
Qed.

Lemma parseAdmins_entry s x :
  x ∈ parseAdmins s ->
  x <> "" /\ trim x = x
  /\ forall c, c ∈ list_ascii_of_string x ->
       c ∈ list_ascii_of_string s /\ c <> ","%char.
Proof.
  intros (Hne & raw & Hraw & ->)%parseAdmins_spec.
  split; [done |]. split; [apply trim_trim |].
  intros c Hc%trim_sub. by apply (split_chars_sub _ _ raw).
Qed.

Lemma parseAdmins_blank s :
  (forall c, c ∈ list_ascii_of_string s -> c = ","%char \/ is_white c = true) ->
  parseAdmins s = [].
Proof.
  intros Hs. destruct (parseAdmins s) as [| x l] eqn:Hp; [done |].
  assert (Hx : x ∈ parseAdmins s) by (rewrite Hp; by left).
  apply parseAdmins_spec in Hx as (Hne & raw & Hraw & ->).
  exfalso. apply Hne, trim_all_white, Forall_forall. intros c Hc.
  destruct (split_chars_sub _ _ raw c Hraw Hc) as [Hin Hcomma].
  by destruct (Hs c Hin).
Qed.

Lemma includes_spec l x : includes l x = true <-> x ∈ l.
Proof.
  unfold includes. rewrite existsb_exists. split.
  - intros (y & Hy & ->%String.eqb_eq). by apply list_elem_of_In.
  - intros Hx. exists x. split; [by apply list_elem_of_In | apply String.eqb_refl].
Qed.

Lemma includes_false l x : includes l x = false <-> x ∉ l.
Proof. rewrite <- includes_spec. by destruct (includes l x). Qed.

End Lists.

(** X2.  [corsHeaders] returns either no header or the pair
    [Access-Control-Allow-Origin], [Access-Control-Allow-Credentials: true].
    The allowed origin is the request's own non-empty [Origin], and then
    the setting lists [*] or that very origin; or it is [*], when the
    setting lists [*] and the request has no [Origin].  Without [*] in the
    setting an origin that is not listed gets no header.  The entries of
    the setting are what stands between its commas, trimmed, the empty ones
    dropped. *)
Theorem cors_only_for_allowed allowed_origins origin :
  let allowed :=
    filter (fun o => o <> "") (map trim (split "," allowed_origins)) in
  let given := match origin with Some o => o | None => "" end in
  ((corsHeaders allowed_origins origin = []
    /\ ("*" ∉ allowed) /\ (given = "" \/ given ∉ allowed))
   \/ (exists o,
         corsHeaders allowed_origins origin
         = [("Access-Control-Allow-Origin", o);
            ("Access-Control-Allow-Credentials", "true")]
         /\ ((o = given /\ given <> "" /\ ("*" ∈ allowed \/ given ∈ allowed))
             \/ (o = "*" /\ given = "" /\ "*" ∈ allowed))))
  /\ (forall x, x ∈ allowed ->
        x <> "" /\ trim x = x
        /\ (exists raw, raw ∈ split "," allowed_origins /\ x = trim raw)
        /\ forall c, c ∈ list_ascii_of_string x -> c <> ","%char).
Proof.
  change (filter (fun o => o <> "") (map trim (split "," allowed_origins)))
    with (parseAdmins allowed_origins).
  intros allowed given. split.
  - unfold corsHeaders. fold (parseAdmins allowed_origins). fold allowed.
    destruct (includes allowed "*") eqn:Hstar.
    + apply includes_spec in Hstar. right.
      destruct origin as [o |]; simpl in *.
      * destruct (String.eqb o "") eqn:Ho.
        -- apply String.eqb_eq in Ho. subst o. exists "*".
           split; [reflexivity | right; done].
        -- apply String.eqb_neq in Ho. exists o.
           split; [reflexivity | left; auto].
      * exists "*". split; [reflexivity | right; done].
    + apply includes_false in Hstar.
      destruct origin as [o |]; simpl in *; [| left; auto].
      destruct (String.eqb o "") eqn:Ho; simpl.
      * apply String.eqb_eq in Ho. left. auto.
      * apply String.eqb_neq in Ho.
        destruct (includes allowed o) eqn:Hin.
        -- apply includes_spec in Hin. right. exists o.
           split; [reflexivity | left; auto].
        -- apply includes_false in Hin. left. auto.
  - intros x Hx. pose proof (parseAdmins_entry _ _ Hx) as (Hne & Ht & Hc).
    apply parseAdmins_spec in Hx as (_ & Hraw).
    split_and!; try done. intros c Hin. by destruct (Hc c Hin).
Qed.

(** ** Credentials *)

Section Credentials.

Variable sha256 : string -> string.

Lemma verifyAuth_spec st username secret :
  verifyAuth sha256 st username secret = true
  <-> validateUsername (JStr username) = true /\ secret <> ""
      /\ exists record,
           USERS_KV st !! username = Some record
           /\ u_authHash record <> "" /\ sha256 secret = u_authHash record.
Proof.
  unfold verifyAuth, hashSecret. simpl to_string.
  destruct (validateUsername (JStr username)) eqn:Hv; simpl.
  2:{ split; [done | by intros [? _]]. }
  destruct (String.eqb secret "") eqn:Hs.
  { apply String.eqb_eq in Hs. split; [done | by intros (_ & ? & _)]. }
  apply String.eqb_neq in Hs.
  destruct (USERS_KV st !! username) as [record |] eqn:Hu.
  2:{ split; [done | by intros (_ & _ & ? & ? & _)]. }
  destruct (String.eqb (u_authHash record) "") eqn:Hh.
  - apply String.eqb_eq in Hh. split; [done |].
    intros (_ & _ & r & [= <-] & Hne & _). done.
  - apply String.eqb_neq in Hh. rewrite String.eqb_eq. split.
    + intros Heq. split_and!; try done. by exists record.
    + by intros (_ & _ & r & [= <-] & _ & Heq).
Qed.

Lemma requireAdmin_spec e st user secret :
  requireAdmin sha256 e st user secret = true
  <-> verifyAuth sha256 st user secret = true
      /\ (parseAdmins (ADMIN_USERS e) = []
          \/ "*" ∈ parseAdmins (ADMIN_USERS e)
          \/ user ∈ parseAdmins (ADMIN_USERS e)).
Proof.
  unfold requireAdmin.
  destruct (parseAdmins (ADMIN_USERS e)) as [| a admins] eqn:Hp.
  { simpl. split; [intros ->; auto | by intros [-> _]]. }
  remember (a :: admins) as adm eqn:Hadm.
  replace (length adm =? 0)%nat with false by (by subst adm).
  rewrite orb_false_l.
  assert (Hne : adm <> []) by (by subst adm). clear Hadm.
  destruct (includes adm "*") eqn:Hstar; simpl.
  { apply includes_spec in Hstar. split; [intros ->; auto | by intros [-> _]]. }
  apply includes_false in Hstar.
  destruct (includes adm user) eqn:Huser; simpl.
  - apply includes_spec in Huser. split; [intros ->; auto | by intros [-> _]].
  - apply includes_false in Huser. split; [done |].
    intros [_ [? | [? | ?]]]; done.
Qed.

End Credentials.

(** ** Tokens are injective in the random bytes *)

Section TokenBytes.

Lemma hex_digit_code k :
  (k < 16)%N ->
  N_of_ascii (hex_digit k) = if (k <? 10)%N then (48 + k)%N else (87 + k)%N.
Proof.
  intros Hk. unfold hex_digit.
  destruct (k <? 10)%N; apply N_ascii_embedding; lia.
Qed.

Lemma hex_digit_inj a b :
  (a < 16)%N -> (b < 16)%N -> hex_digit a = hex_digit b -> a = b.
Proof.
  intros Ha Hb Heq. apply (f_equal N_of_ascii) in Heq.
  rewrite !hex_digit_code in Heq by done.
  destruct (a <? 10)%N eqn:Ea, (b <? 10)%N eqn:Eb;
    rewrite ?N.ltb_lt, ?N.ltb_ge in *; lia.
Qed.

Lemma byte_hex_digits b :
  padStart 2 "0" (toString16 b)
  = String (hex_digit (Byte.to_N b / 16)) (String (hex_digit (Byte.to_N b mod 16)) "").
Proof.
  unfold toString16, padStart.
  destruct (Byte.to_N b <? 16)%N eqn:Hlt.
  - apply N.ltb_lt in Hlt.
    rewrite N.div_small, N.mod_small by done. reflexivity.
  - reflexivity.
Qed.

Lemma byte_hex_inj b b' :
  padStart 2 "0" (toString16 b) = padStart 2 "0" (toString16 b') -> b = b'.
Proof.
  rewrite !byte_hex_digits. intros [= Hh Hl].
  pose proof (Byte.to_N_bounded b) as Hb. pose proof (Byte.to_N_bounded b') as Hb'.
  apply hex_digit_inj in Hh; [| apply N.Div0.div_lt_upper_bound; lia ..].
  apply hex_digit_inj in Hl; [| apply N.mod_lt; lia ..].
  assert (Hn : Byte.to_N b = Byte.to_N b').
  { rewrite (N.div_mod (Byte.to_N b) 16), (N.div_mod (Byte.to_N b') 16) by lia.
    by rewrite Hh, Hl. }
  apply (f_equal Byte.of_N) in Hn. rewrite !Byte.of_to_N in Hn. by injection Hn.
Qed.

Lemma hex_of_bytes_cons b bytes :
  hex_of_bytes (b :: bytes) = padStart 2 "0" (toString16 b) ++ hex_of_bytes bytes.
Proof. unfold hex_of_bytes. cbn [map]. apply join_empty_cons. Qed.

Lemma hex_of_bytes_inj bs bs' :
  hex_of_bytes bs = hex_of_bytes bs' -> bs = bs'.
Proof.
  revert bs'. induction bs as [| b bs IH]; intros [| b' bs'] Heq.
  - done.
  - apply (f_equal String.length) in Heq.
    destruct (hex_of_bytes_format (b' :: bs')) as [Hlen _].
    rewrite <- Heq in Hlen. simpl in Hlen. lia.
  - apply (f_equal String.length) in Heq.
    destruct (hex_of_bytes_format (b :: bs)) as [Hlen _].
    rewrite Heq in Hlen. simpl in Hlen. lia.
  - rewrite !hex_of_bytes_cons in Heq.
    rewrite (byte_hex_digits b), (byte_hex_digits b') in Heq.
    rewrite !append_String, !append_empty in Heq. injection Heq as Hh Hl Hrest.
    f_equal; [| by apply IH].
    apply byte_hex_inj. rewrite !byte_hex_digits. by rewrite Hh, Hl.
Qed.

End TokenBytes.

(** X3.  [generateToken(n)] renders the [n] random bytes it draws
    one to one: two tokens are equal exactly when the bytes drawn are, so
    tokens collide only when the random source repeats itself; and the
    bytes drawn are used up. *)
Theorem generateToken_injective n (e e' : entropy) :
  ((generateToken n e).1 = (generateToken n e').1
   <-> forall i, (i < n)%nat -> e i = e' i)
  /\ (forall i, (generateToken n e).2 i = e (n + i)%nat).
Proof.
  split; [| done]. unfold generateToken, getRandomValues. simpl. split.
  - intros Heq%hex_of_bytes_inj i Hi.
    apply (f_equal (fun l => l !! i)) in Heq.
    rewrite !list_lookup_fmap, !lookup_seq_lt in Heq by done.
    simpl in Heq. by injection Heq.
  - intros Heq. f_equal. apply map_ext_in. intros i Hi%in_seq. apply Heq. lia.
Qed.

(** ** The bearer secret *)

Section Secret.

Lemma list_ind3 {A} (P : list A -> Prop) :
  P [] -> (forall a, P [a]) -> (forall a b, P [a; b]) ->
  (forall a b c r, P r -> P (a :: b :: c :: r)) ->
  forall l, P l.
Proof.
  intros H0 H1 H2 H3. fix IH 1.
  intros [| a [| b [| c r]]]; [done | done | done |]. apply H3, IH.
Qed.

Lemma base64_char_ok k :
  (k < 64)%N -> is_base64 (base64_char k) = true.
Proof.
  intros Hk.
  assert (Hall : forallb (fun i => is_base64 (base64_char (N.of_nat i))) (seq 0 64) = true)
    by (vm_compute; reflexivity).
  rewrite forallb_forall in Hall.
  specialize (Hall (N.to_nat k)). rewrite N2Nat.id in Hall.
  apply Hall, in_seq. lia.
Qed.

(** The number of [=] that pad the encoding of [n] bytes. *)
Lemma btoa_shape l :
  Forall (fun a => (a < 256)%N) l ->
  exists body,
    btoa l = (body ++ repeat "="%char ((3 - length l mod 3) mod 3))%list
    /\ forallb is_base64 body = true
    /\ length body = ((4 * length l + 2) / 3)%nat.
Proof.
  induction l as [| a | a b | a b c r IH] using list_ind3; intros Hl.
  - by exists [].
  - apply Forall_cons in Hl as [Ha _].
    exists [base64_char (a / 4); base64_char ((a mod 4) * 16)]. split_and!; try done.
    simpl. rewrite !base64_char_ok; [done | |].
    + pose proof (N.mod_lt a 4). lia.
    + apply N.Div0.div_lt_upper_bound. lia.
  - apply Forall_cons in Hl as [Ha [Hb _]%Forall_cons].
    exists [base64_char (a / 4); base64_char ((a mod 4) * 16 + b / 16);
            base64_char ((b mod 16) * 4)].
    split_and!; try done.
    simpl. rewrite !base64_char_ok; [done | | |].
    + pose proof (N.mod_lt b 16). lia.
    + pose proof (N.mod_lt a 4).
      assert (b / 16 < 16)%N by (apply N.Div0.div_lt_upper_bound; lia). lia.
    + apply N.Div0.div_lt_upper_bound. lia.
  - apply Forall_cons in Hl as [Ha [Hb [Hc Hr]%Forall_cons]%Forall_cons].
    destruct (IH Hr) as (body & Hbody & Hall & Hlen).
    exists (base64_char (a / 4) :: base64_char ((a mod 4) * 16 + b / 16)
            :: base64_char ((b mod 16) * 4 + c / 64) :: base64_char (c mod 64)
            :: body).
    split_and!.
    + cbn [btoa]. rewrite Hbody. cbn [length].
      replace (S (S (S (length r))) mod 3)%nat with (length r mod 3)%nat; [done |].
      change (S (S (S (length r)))) with (3 + length r)%nat.
      rewrite <- (Nat.Div0.add_mod_idemp_l 3), Nat.Div0.mod_same. done.
    + simpl. rewrite Hall, !base64_char_ok; [done | | | |].
      * apply N.mod_lt. lia.
      * pose proof (N.mod_lt b 16).
        assert (c / 64 < 4)%N by (apply N.Div0.div_lt_upper_bound; lia). lia.
      * pose proof (N.mod_lt a 4).
        assert (b / 16 < 16)%N by (apply N.Div0.div_lt_upper_bound; lia). lia.
      * apply N.Div0.div_lt_upper_bound. lia.
    + cbn [length]. rewrite Hlen.
      replace (4 * S (S (S (length r))) + 2)%nat with ((4 * length r + 2) + 4 * 3)%nat by lia.
      rewrite Nat.div_add by done. lia.
Qed.

Lemma drop_eq_repeat n l : drop_eq (repeat "="%char n ++ l) = drop_eq l.
Proof. induction n as [| n IH]; [done |]. simpl. exact IH. Qed.

Lemma drop_eq_keep l :
  match l with [] => True | c :: _ => c <> "="%char end -> drop_eq l = l.
Proof.
  destruct l as [| c l]; [done |]. intros Hc. simpl.
  destruct c as [[] [] [] [] [] [] [] []]; done.
Qed.

Lemma rev_repeat {A} (x : A) n : rev (repeat x n) = repeat x n.
Proof.
  induction n as [| n IH]; [done |]. simpl. rewrite IH.
  clear IH. induction n as [| n IH]; [done |]. simpl. by rewrite IH.
Qed.

Lemma randomSecret_body n e :
  exists body,
    (randomSecret n e).1 = string_of_list_ascii body
    /\ forallb is_base64 body = true
    /\ length body = ((4 * n + 2) / 3)%nat.
Proof.
  unfold randomSecret, getRandomValues. cbn [fst].
  destruct (btoa_shape (map Byte.to_N (map e (seq 0 n)))) as (body & Hb & Hall & Hlen).
  { apply Forall_forall. intros a (b & -> & _)%list_elem_of_fmap.
    pose proof (Byte.to_N_bounded b). lia. }
  rewrite !length_map, length_seq in Hb, Hlen.
  exists body. split; [| done]. f_equal. rewrite Hb.
  rewrite rev_app_distr, rev_repeat, drop_eq_repeat, drop_eq_keep.
  - apply rev_involutive.
  - destruct (rev body) as [| c t] eqn:Hr; [done |].
    rewrite forallb_forall in Hall.
    assert (Hc : In c body) by (apply in_rev; rewrite Hr; by left).
    by destruct (base64_plain c (Hall c Hc)).
Qed.

Lemma randomSecret_chars n e :
  String.length (randomSecret n e).1 = ((4 * n + 2) / 3)%nat
  /\ forall c, c ∈ list_ascii_of_string (randomSecret n e).1 ->
       is_base64 c = true /\ c <> "="%char /\ is_white c = false.
Proof.
  destruct (randomSecret_body n e) as (body & -> & Hall & Hlen).
  rewrite forallb_forall in Hall. split.
  - by rewrite <- length_list_ascii, list_of_string_of_list.
  - rewrite list_of_string_of_list. intros c Hc%list_elem_of_In.
    specialize (Hall c Hc). by destruct (base64_plain c Hall).
Qed.

Lemma randomSecret_trim n e : trim (randomSecret n e).1 = (randomSecret n e).1.
Proof.
  apply trim_plain, Forall_forall. intros c Hc.
  by destruct (proj2 (randomSecret_chars n e) c Hc) as (_ & _ & ?).
Qed.

End Secret.

(** X4.  [randomSecret(n)] is the base64 rendering of the [n]
    random bytes without its padding: ceil(4n/3) characters of the base64
    alphabet, none of them [=] or white space, so that trimming leaves the
    secret as it is; the secret of a registration (32 bytes) has 43
    characters and is not empty. *)
Theorem randomSecret_format n e :
  let secret := (randomSecret n e).1 in
  String.length secret = ((4 * n + 2) / 3)%nat
  /\ (forall c, c ∈ list_ascii_of_string secret ->
        is_base64 c = true /\ c <> "="%char /\ is_white c = false)
  /\ trim secret = secret
  /\ (n = 32%nat -> String.length secret = 43%nat /\ secret <> "").
Proof.
  intros secret. subst secret.
  destruct (randomSecret_chars n e) as [Hlen Hchars].
  split; [exact Hlen |]. split; [exact Hchars |].
  split; [apply randomSecret_trim |].
  intros ->. rewrite Hlen. split; [reflexivity |].
  intros Hnil. rewrite Hnil in Hlen. discriminate Hlen.
Qed.

(** ** The user registry *)

Section Registry.

Variable sha256 : string -> string.

Lemma users_route_users w st m username body :
  USERS_KV (users_route sha256 w st m username body).1 = USERS_KV st
  \/ (m = POST
      /\ exists hash,
           USERS_KV (users_route sha256 w st m username body).1
           = <[username := {| u_username := username;
                              u_publicKey := prop_opt body "publicKey";
                              u_authHash := hash;
                              u_updatedAt := now w |}]> (USERS_KV st)
           /\ match USERS_KV st !! username with
              | Some old => hash = u_authHash old
              | None => hash = sha256 (randomSecret 32 (random w)).1
              end).
Proof.
  unfold users_route.
  destruct (negb (validateUsername (JStr username))); [by left |].
  destruct m; [left; by case_match | | by left].
  destruct (negb (truthy body) || negb (truthy (prop_opt body "publicKey")));
    [by left |].
  destruct (USERS_KV st !! username) as [old |] eqn:Hold.
  - destruct (negb (truthy (or_else (prop_opt body "authSecret") (JStr ""))));
      [by left |].
    destruct (String.eqb (hashSecret sha256 _) (u_authHash old)) eqn:Hh; simpl;
      [| by left].
    apply String.eqb_eq in Hh. right. split; [done |]. eexists. split; [done |].
    exact Hh.
  - right. split; [done |]. eexists. split; [done |]. reflexivity.
Qed.

Lemma fold_inbox_users (key : jsval -> string) ids st :
  USERS_KV (fold_left (fun acc item => set_inboxKV (kv_delete (key item)) acc) ids st)
  = USERS_KV st.
Proof.
  revert st. induction ids as [| item ids IH]; intros st; [done |].
  simpl. by rewrite IH, users_set_inboxKV.
Qed.

Lemma fold_shares_users (key : jsval -> string) ids st :
  USERS_KV (fold_left (fun acc item => set_shares (kv_delete (key item)) acc) ids st)
  = USERS_KV st.
Proof.
  revert st. induction ids as [| item ids IH]; intros st; [done |].
  simpl. by rewrite IH.
Qed.

Lemma shares_post_users e w st body :
  USERS_KV (shares_post e w st body).1 = USERS_KV st.
Proof.
  destruct (decide (status (shares_post e w st body).2 = 201)) as [H | H].
  - destruct (shares_post_ok e w st body H) as (? & ? & _ & _ & _ & _ & _ & _ & _ & _ & ->).
    reflexivity.
  - by rewrite shares_post_unchanged.
Qed.

Lemma inbox_post_users e w st body :
  USERS_KV (inbox_post e w st body).1 = USERS_KV st.
Proof.
  destruct (decide (status (inbox_post e w st body).2 = 201)) as [H | H].
  - destruct (inbox_post_ok e w st body H)
      as (? & ? & sender & _ & _ & _ & _ & _ & _ & _ & _ & _ & ->).
    cbn zeta. cbn [fst]. destruct (String.eqb sender ""); simpl;
      apply users_set_inboxKV.
  - by rewrite inbox_post_unchanged.
Qed.

Lemma session_revoke_users e w st sessionId body :
  USERS_KV (session_revoke sha256 e w st sessionId body).1 = USERS_KV st.
Proof.
  destruct (decide (status (session_revoke sha256 e w st sessionId body).2 = 200))
    as [H | H].
  - destruct (session_revoke_ok sha256 e w st sessionId body H)
      as (? & ? & _ & _ & _ & ->).
    cbn zeta. cbn [fst]. simpl. apply users_set_inboxKV.
  - by rewrite session_revoke_unchanged.
Qed.

Lemma session_restore_users e w st sessionId body :
  USERS_KV (session_restore sha256 e w st sessionId body).1 = USERS_KV st.
Proof.
  destruct (decide (status (session_restore sha256 e w st sessionId body).2 = 200))
    as [H | H].
  - destruct (session_restore_ok sha256 e w st sessionId body H)
      as (? & _ & _ & _ & ->).
    cbn zeta. cbn [fst]. simpl. apply users_set_inboxKV.
  - by rewrite session_restore_unchanged.
Qed.

Lemma fetch_users e w st req :
  (forall m username body, req <> ReqUsers m username body) ->
  USERS_KV (fetch sha256 e w st req).1 = USERS_KV st.
Proof.
  intros Hreq. destruct req
    as [| token | m username body | body | body | recipient_param limit_param
      | body | sender_param secret_param limit_param | sessionId body
      | sessionId body | sessionId | sessionId body | body
      | username_param secret_param limit_param | body
      | m token consume_suffix |];
    cbn [fetch fst]; try done.
  - exfalso. by eapply Hreq.
  - apply shares_post_users.
  - apply inbox_post_users.
  - unfold inbox_poll. by case_match.
  - unfold inbox_ack. repeat case_match; try done. apply fold_inbox_users.
  - unfold sessions_list. by repeat case_match.
  - apply session_revoke_users.
  - apply session_restore_users.
  - destruct (session_accepted_cases w st sessionId) as [-> | (? & _ & ->)]; done.
  - destruct (session_delete_cases sha256 e w st sessionId body) as [-> | (? & _ & ->)];
      done.
  - destruct (requests_post_cases sha256 e w st body) as [-> | (? & ->)]; done.
  - unfold requests_poll. by case_match.
  - unfold requests_ack. repeat case_match; try done. apply fold_shares_users.
  - unfold share_route. repeat case_match; done.
Qed.

Lemma fetch_users_step e w st req u :
  (forall record,
      USERS_KV st !! u = Some record ->
      exists record',
        USERS_KV (fetch sha256 e w st req).1 !! u = Some record'
        /\ u_authHash record' = u_authHash record)
  /\ (USERS_KV st !! u = None ->
      (forall body, req <> ReqUsers POST u body) ->
      USERS_KV (fetch sha256 e w st req).1 !! u = None).
Proof.
  assert (Hreq : (exists m username body, req = ReqUsers m username body)
                 \/ (forall m username body, req <> ReqUsers m username body)).
  { destruct req
    as [| token | m username body | body | body | recipient_param limit_param
      | body | sender_param secret_param limit_param | sessionId body
      | sessionId body | sessionId | sessionId body | body
      | username_param secret_param limit_param | body
      | m token consume_suffix |];
    eauto; right; done. }
  destruct Hreq as [(m & username & body & ->) | Hother].
  - cbn [fetch].
    destruct (users_route_users w st m username body) as [-> | (-> & hash & -> & Hh)].
    + split; [eauto | done].
    + destruct (decide (username = u)) as [-> | Hne].
      * split.
        -- intros record Hrec. rewrite Hrec in Hh. subst hash.
           rewrite lookup_insert_eq. eauto.
        -- intros _ Hreq. by destruct (Hreq body).
      * rewrite lookup_insert_ne by done. split; [eauto | done].
  - rewrite fetch_users by done. split; [eauto | done].
Qed.

Lemma run_cons e st w req rest :
  run sha256 e st ((w, req) :: rest)
  = ((run sha256 e (fetch sha256 e w st req).1 rest).1,
     (fetch sha256 e w st req).2 :: (run sha256 e (fetch sha256 e w st req).1 rest).2).
Proof.
  simpl. destruct (fetch sha256 e w st req) as [st1 r]. simpl.
  by destruct (run sha256 e st1 rest).
Qed.

End Registry.

(** X5.  Over any sequence of requests a registered user stays
    registered with the [authHash] of the first registration: no route
    removes a user record or changes its hash, so a secret that
    authenticates a user once does so in every later state.  A user
    record appears only by a POST /v1/users/:username for that name. *)
Theorem users_are_kept (sha256 : string -> string) e reqs :
  forall st u,
    (forall record,
        USERS_KV st !! u = Some record ->
        (exists record',
            USERS_KV (run sha256 e st reqs).1 !! u = Some record'
            /\ u_authHash record' = u_authHash record)
        /\ forall secret,
             verifyAuth sha256 st u secret = true ->
             verifyAuth sha256 (run sha256 e st reqs).1 u secret = true)
    /\ (USERS_KV st !! u = None ->
        (forall w body, (w, ReqUsers POST u body) ∉ reqs) ->
        USERS_KV (run sha256 e st reqs).1 !! u = None).
Proof.
  induction reqs as [| [w req] reqs IH]; intros st u.
  - split; [| done]. intros record Hrec. split; [eauto | done].
  - rewrite run_cons. cbn [fst].
    destruct (fetch_users_step sha256 e w st req u) as [Hkeep Hnew].
    destruct (IH (fetch sha256 e w st req).1 u) as [IHkeep IHnew].
    split.
    + intros record Hrec.
      destruct (Hkeep record Hrec) as (r1 & Hr1 & Hh1).
      destruct (IHkeep r1 Hr1) as [(r2 & Hr2 & Hh2) _].
      split; [exists r2; split; [done | congruence] |].
      intros secret (Hv & Hs & r & Hr & Hne & Hsha)%verifyAuth_spec.
      apply verifyAuth_spec. split_and!; try done.
      exists r2. rewrite Hrec in Hr. injection Hr as <-.
      split_and!; [done | congruence | congruence].
    + intros Hnone Hreqs. apply IHnew.
      * apply Hnew; [done |]. intros body ->. apply (Hreqs w body). by left.
      * intros w' body Hin. apply (Hreqs w' body). by right.
Qed.

Lemma users_are_kept_witness :
  verifyAuth Scenario.digest
    (run Scenario.digest Scenario.config
       (run Scenario.digest Scenario.config Scenario.empty
          [Scenario.register "alice" 0]).1
       [Scenario.register "bob" 100;
        (Scenario.at_time 5000 9,
         ReqUsers POST "alice"
           (JObj [("publicKey", JStr "PUBK2");
                  ("authSecret", JStr Scenario.alice_secret)]))]).1
    "alice" Scenario.alice_secret = true.
Proof.
  destruct (users_are_kept Scenario.digest Scenario.config
              [Scenario.register "bob" 100;
               (Scenario.at_time 5000 9,
                ReqUsers POST "alice"
                  (JObj [("publicKey", JStr "PUBK2");
                         ("authSecret", JStr Scenario.alice_secret)]))]
              (run Scenario.digest Scenario.config Scenario.empty
                 [Scenario.register "alice" 0]).1 "alice") as [Hkeep _].
  destruct (Hkeep {| u_username := "alice"; u_publicKey := JStr "PUBK-alice";
                     u_authHash := Scenario.digest Scenario.alice_secret;
                     u_updatedAt := 0 |}) as [_ Hauth]; [vm_compute; reflexivity |].
  apply Hauth. vm_compute. reflexivity.
Defined.

(** X6.  The first POST /v1/users/:username for a valid name
    with a [publicKey] answers 200 with a new secret (43 base64 characters,
    whatever [authSecret] the body proposed) and stores the key with the
    SHA-256 of that secret.  From then on GET /v1/users/:username returns
    the key, the secret disclosed authenticates the user (also after the
    trimming the routes apply), and a secret with another hash does not. *)
Theorem registration_round_trip (sha256 : string -> string) w st username body :
  validateUsername (JStr username) = true ->
  USERS_KV st !! username = None ->
  truthy body = true -> truthy (prop_opt body "publicKey") = true ->
  let secret := (randomSecret 32 (random w)).1 in
  let after := (users_route sha256 w st POST username body).1 in
  (users_route sha256 w st POST username body).2
  = send 200 (BRegistered username (Some secret))
  /\ String.length secret = 43%nat
  /\ USERS_KV after !! username
     = Some {| u_username := username;
               u_publicKey := prop_opt body "publicKey";
               u_authHash := sha256 secret;
               u_updatedAt := now w |}
  /\ (forall w' any,
        users_route sha256 w' after GET username any
        = (after, send 200 (BUser username (prop_opt body "publicKey"))))
  /\ (sha256 secret <> "" ->
      verifyAuth sha256 after username (trim secret) = true)
  /\ (forall other,
        sha256 other <> sha256 secret ->
        verifyAuth sha256 after username other = false).
Proof.
  intros Hv Hnew Hb Hp secret after.
  assert (Hrun : users_route sha256 w st POST username body
                 = (set_users
                      (insert username
                         {| u_username := username;
                            u_publicKey := prop_opt body "publicKey";
                            u_authHash := sha256 secret;
                            u_updatedAt := now w |}) st,
                    send 200 (BRegistered username (Some secret)))).
  { unfold users_route. rewrite Hv, Hnew, Hb, Hp. reflexivity. }
  assert (Hrec : USERS_KV after !! username
                 = Some {| u_username := username;
                           u_publicKey := prop_opt body "publicKey";
                           u_authHash := sha256 secret;
                           u_updatedAt := now w |}).
  { subst after. rewrite Hrun. simpl. apply lookup_insert_eq. }
  pose proof (randomSecret_trim 32 (random w)) as Htrim.
  destruct (randomSecret_chars 32 (random w)) as [H43 _].
  fold secret in Htrim, H43. change ((4 * 32 + 2) / 3)%nat with 43%nat in H43.
  assert (Hne : secret <> "").
  { intros Hnil. rewrite Hnil in H43. discriminate H43. }
  split_and!.
  - by rewrite Hrun.
  - done.
  - done.
  - intros w' any. unfold users_route. by rewrite Hv, Hrec.
  - intros Hsha. rewrite Htrim. apply verifyAuth_spec. split_and!; try done.
    eexists. split; [exact Hrec |]. done.
  - intros other Hother. apply not_true_iff_false.
    intros (_ & _ & r & Hr & _ & Heq)%verifyAuth_spec.
    rewrite Hrec in Hr. injection Hr as <-. done.
Qed.

Lemma registration_round_trip_witness :
  verifyAuth Scenario.digest
    (users_route Scenario.digest (Scenario.at_time 0 0) Scenario.empty POST "alice"
       (JObj [("publicKey", JStr "PUBK-alice"); ("authSecret", JStr "mine")])).1
    "alice" (trim Scenario.alice_secret) = true
  /\ verifyAuth Scenario.digest
       (users_route Scenario.digest (Scenario.at_time 0 0) Scenario.empty POST "alice"
          (JObj [("publicKey", JStr "PUBK-alice"); ("authSecret", JStr "mine")])).1
       "alice" "mine" = false.
Proof.
  destruct (registration_round_trip Scenario.digest (Scenario.at_time 0 0)
              Scenario.empty "alice"
              (JObj [("publicKey", JStr "PUBK-alice"); ("authSecret", JStr "mine")]))
    as (_ & _ & _ & _ & Hok & Hwrong); try (vm_compute; reflexivity).
  split.
  - apply Hok. vm_compute. discriminate.
  - apply Hwrong. vm_compute. discriminate.
Defined.

(** ** Requests without effect *)

Section SideEffects.

Variable sha256 : string -> string.

Lemma set_manager_same st : set_manager (SHARE_MANAGER st) st = st.
Proof. by destruct st. Qed.

Lemma share_get_state w st token flag : (share_route w st GET token flag).1 = st.
Proof.
  unfold share_route. destruct (String.eqb token ""); [done |].
  pose proof (status_keeps (SHARE_MANAGER st) (now w) token) as Hk.
  destruct (ShareManager_fetch (now w) (SHARE_MANAGER st) (TcStatus token))
    as [manager doResp]. simpl in Hk. subst manager.
  rewrite set_manager_same. repeat case_match; done.
Qed.

Lemma share_route_failed w st m token flag :
  400 <= status (share_route w st m token flag).2 ->
  (share_route w st m token flag).1 = st.
Proof.
  destruct m; [intros _; apply share_get_state | | unfold share_route; by repeat case_match].
  unfold share_route. destruct (String.eqb token ""); [done |].
  destruct flag; [| done].
  destruct (decide (status (ShareManager_fetch (now w) (SHARE_MANAGER st)
                              (TcConsume token)).2 = 200)) as [H | H].
  - destruct (ShareManager_fetch (now w) (SHARE_MANAGER st) (TcConsume token))
      as [manager doResp]. simpl in H. rewrite H. simpl. lia.
  - pose proof (consume_failed _ _ _ H) as Hk.
    destruct (ShareManager_fetch (now w) (SHARE_MANAGER st) (TcConsume token))
      as [manager doResp]. simpl in *. subst manager.
    apply Z.eqb_neq in H. rewrite H. simpl. intros _. apply set_manager_same.
Qed.

Lemma users_route_failed w st m username body :
  400 <= status (users_route sha256 w st m username body).2 ->
  (users_route sha256 w st m username body).1 = st.
Proof. unfold users_route. repeat case_match; simpl; try done; lia. Qed.

Lemma inbox_ack_failed st body :
  400 <= status (inbox_ack st body).2 -> (inbox_ack st body).1 = st.
Proof. unfold inbox_ack. repeat case_match; simpl; try done; lia. Qed.

Lemma requests_ack_failed e st body :
  400 <= status (requests_ack sha256 e st body).2 ->
  (requests_ack sha256 e st body).1 = st.
Proof. unfold requests_ack. repeat case_match; simpl; try done; lia. Qed.

Lemma session_accepted_failed w st sessionId :
  400 <= status (session_accepted w st sessionId).2 ->
  (session_accepted w st sessionId).1 = st.
Proof. unfold session_accepted. repeat case_match; simpl; try done; lia. Qed.

Lemma session_delete_failed e w st sessionId body :
  400 <= status (session_delete sha256 e w st sessionId body).2 ->
  (session_delete sha256 e w st sessionId body).1 = st.
Proof.
  unfold session_delete, with_owned_session.
  repeat case_match; simpl; try done; lia.
Qed.

Lemma requests_post_failed e w st body :
  400 <= status (requests_post sha256 e w st body).2 ->
  (requests_post sha256 e w st body).1 = st.
Proof. unfold requests_post. repeat case_match; simpl; try done; lia. Qed.

End SideEffects.

(** X7.  A request answered with an error (a status of 400 or
    more) leaves every store as it was, and so does every GET route, the
    landing page and the preflight answer: the stores change only by a POST
    that is answered 200, 201 or 204. *)
Theorem errors_and_reads_change_nothing (sha256 : string -> string) e w st :
  (forall req,
      400 <= status (fetch sha256 e w st req).2 ->
      (fetch sha256 e w st req).1 = st)
  /\ (forall username any,
        (fetch sha256 e w st (ReqUsers GET username any)).1 = st)
  /\ (forall recipient_param limit_param,
        (fetch sha256 e w st (ReqInboxPoll recipient_param limit_param)).1 = st)
  /\ (forall sender_param secret_param limit_param,
        (fetch sha256 e w st
           (ReqSessionsList sender_param secret_param limit_param)).1 = st)
  /\ (forall username_param secret_param limit_param,
        (fetch sha256 e w st
           (ReqRequestsPoll username_param secret_param limit_param)).1 = st)
  /\ (forall token flag, (fetch sha256 e w st (ReqShare GET token flag)).1 = st)
  /\ (forall token, (fetch sha256 e w st (ReqLanding token)).1 = st)
  /\ (fetch sha256 e w st ReqOptions).1 = st.
Proof.
  split_and!.
  - intros req. destruct req
    as [| token | m username body | body | body | recipient_param limit_param
      | body | sender_param secret_param limit_param | sessionId body
      | sessionId body | sessionId | sessionId body | body
      | username_param secret_param limit_param | body
      | m token consume_suffix |];
    cbn [fetch]; try done.
    + apply users_route_failed.
    + intros H. apply shares_post_unchanged. lia.
    + intros H. apply inbox_post_unchanged. lia.
    + unfold inbox_poll. by case_match.
    + apply inbox_ack_failed.
    + unfold sessions_list. by repeat case_match.
    + intros H. apply session_revoke_unchanged. lia.
    + intros H. apply session_restore_unchanged. lia.
    + apply session_accepted_failed.
    + apply session_delete_failed.
    + apply requests_post_failed.
    + unfold requests_poll. by case_match.
    + apply requests_ack_failed.
    + apply share_route_failed.
  - intros username any. cbn [fetch]. unfold users_route. by repeat case_match.
  - intros r l. cbn [fetch]. unfold inbox_poll. by case_match.
  - intros a b c. cbn [fetch]. unfold sessions_list. by repeat case_match.
  - intros a b c. cbn [fetch]. unfold requests_poll. by case_match.
  - intros token flag. apply share_get_state.
  - done.
  - done.
Qed.

Lemma errors_and_reads_change_nothing_witness :
  let st := (run Scenario.digest Scenario.config Scenario.empty Scenario.delivered).1 in
  (fetch Scenario.digest Scenario.config (Scenario.at_time 2000 0) st
     (ReqRevoke Scenario.session1
        (Scenario.credentials "dave" Scenario.dave_secret))).1 = st.
Proof.
  intros st.
  destruct (errors_and_reads_change_nothing Scenario.digest Scenario.config
              (Scenario.at_time 2000 0) st) as [Herr _].
  apply Herr. vm_compute. discriminate.
Defined.

(** ** Routes for admins *)

Section Gates.

Variable sha256 : string -> string.

Lemma with_owned_session_ok e w st sessionId body k :
  status (with_owned_session sha256 e w st sessionId body k).2 = 200 ->
  exists user secret session,
    trim_field (prop_opt body "username") = Some user
    /\ trim_field (prop_opt body "authSecret") = Some secret
    /\ sessionId <> "" /\ validateUsername (JStr user) = true
    /\ requireAdmin sha256 e st user secret = true
    /\ kv_get (now w) (session_key sessionId) (SHARES_KV st) = Some (VSession session)
    /\ sender session = user
    /\ with_owned_session sha256 e w st sessionId body k = k user session.
Proof.
  unfold with_owned_session.
  destruct (trim_field (prop_opt body "username")) as [user |]; [| done].
  destruct (trim_field (prop_opt body "authSecret")) as [secret |]; [| done].
  destruct (String.eqb sessionId "") eqn:Hid; [done |]. apply String.eqb_neq in Hid.
  destruct (validateUsername (JStr user)) eqn:Hv; [| done]. simpl.
  destruct (requireAdmin sha256 e st user secret) eqn:Ha; [| done]. simpl.
  destruct (kv_get (now w) (session_key sessionId) (SHARES_KV st))
    as [[| | session | |] |]; try done.
  destruct (String.eqb (sender session) user) eqn:Hs; [| done].
  apply String.eqb_eq in Hs. simpl. intros _. exists user, secret, session. done.
Qed.

End Gates.

(** X8.  The routes for admins answer 200 only to a caller whom
    [requireAdmin] accepts, with the username and the secret of the request
    trimmed: the session list, the poll and the acknowledgement of access
    requests, and revoke, restore and delete, which moreover act only on a
    stored session whose [sender] is the caller.  [requireAdmin] accepts
    exactly a valid username with a non-empty secret whose SHA-256 is the
    non-empty [authHash] stored for that username, and which is listed in
    [ADMIN_USERS], unless the list is empty or holds [*]; a setting of
    commas and white space only is an empty list, so that every registered
    user who presents the secret is an admin then. *)
Theorem admin_routes_need_admin (sha256 : string -> string) e w st :
  (forall sender_param secret_param limit_param,
      status (sessions_list sha256 e w st sender_param secret_param limit_param).2
      = 200 ->
      requireAdmin sha256 e st (trim sender_param) (trim secret_param) = true)
  /\ (forall username_param secret_param limit_param,
        status
          (requests_poll sha256 e w st username_param secret_param limit_param).2
        = 200 ->
        requireAdmin sha256 e st (trim username_param) (trim secret_param) = true)
  /\ (forall body,
        status (requests_ack sha256 e st body).2 = 200 ->
        exists user secret,
          trim_field (prop_opt body "username") = Some user
          /\ trim_field (prop_opt body "authSecret") = Some secret
          /\ requireAdmin sha256 e st user secret = true)
  /\ (forall handler,
        handler ∈ [session_revoke sha256; session_restore sha256;
                   session_delete sha256] ->
        forall sessionId body,
          status (handler e w st sessionId body).2 = 200 ->
          exists user secret session,
            trim_field (prop_opt body "username") = Some user
            /\ trim_field (prop_opt body "authSecret") = Some secret
            /\ requireAdmin sha256 e st user secret = true
            /\ kv_get (now w) (session_key sessionId) (SHARES_KV st)
               = Some (VSession session)
            /\ sender session = user)
  /\ (forall user secret,
        requireAdmin sha256 e st user secret = true
        <-> (validateUsername (JStr user) = true /\ secret <> ""
             /\ exists record,
                  USERS_KV st !! user = Some record
                  /\ u_authHash record <> "" /\ sha256 secret = u_authHash record)
            /\ (parseAdmins (ADMIN_USERS e) = []
                \/ "*" ∈ parseAdmins (ADMIN_USERS e)
                \/ user ∈ parseAdmins (ADMIN_USERS e)))
  /\ ((forall c, c ∈ list_ascii_of_string (ADMIN_USERS e) ->
          c = ","%char \/ is_white c = true) ->
      parseAdmins (ADMIN_USERS e) = []).
Proof.
  split_and!.
  - intros sp cp lp. unfold sessions_list.
    destruct (validateUsername (JStr (trim sp))); [| done]. simpl.
    by destruct (requireAdmin sha256 e st (trim sp) (trim cp)).
  - intros up cp lp. unfold requests_poll.
    by destruct (requireAdmin sha256 e st (trim up) (trim cp)).
  - intros body. unfold requests_ack.
    destruct (trim_field (prop_opt body "username")) as [user |]; [| done].
    destruct (trim_field (prop_opt body "authSecret")) as [secret |]; [| done].
    destruct (requireAdmin sha256 e st user secret) eqn:Ha; [| done].
    intros _. by exists user, secret.
  - intros handler Hin sessionId body H.
    assert (Hh : exists k, handler e w st sessionId body
                 = with_owned_session sha256 e w st sessionId body k).
    { rewrite !elem_of_cons in Hin.
      destruct Hin as [-> | [-> | [-> | Hin]]]; [by eexists .. |].
      by apply elem_of_nil in Hin. }
    destruct Hh as (k & Hk). rewrite Hk in H.
    destruct (with_owned_session_ok sha256 e w st sessionId body k H)
      as (user & secret & session & ? & ? & _ & _ & ? & ? & ? & _).
    by exists user, secret, session.
  - intros user secret. rewrite requireAdmin_spec, verifyAuth_spec. done.
  - apply parseAdmins_blank.
Qed.

Lemma admin_routes_need_admin_witness :
  let st := (run Scenario.digest Scenario.config Scenario.empty Scenario.delivered).1 in
  requireAdmin Scenario.digest Scenario.config st
    (trim " alice ") (trim Scenario.alice_secret) = true
  /\ exists record,
       USERS_KV st !! "alice" = Some record
       /\ Scenario.digest Scenario.alice_secret = u_authHash record.
Proof.
  intros st.
  destruct (admin_routes_need_admin Scenario.digest Scenario.config
              (Scenario.at_time 2000 0) st) as (Hlist & _ & _ & _ & Hspec & _).
  assert (Ha : requireAdmin Scenario.digest Scenario.config st
                 (trim " alice ") (trim Scenario.alice_secret) = true).
  { apply (Hlist " alice " Scenario.alice_secret ""). vm_compute. reflexivity. }
  split; [exact Ha |].
  apply Hspec in Ha as [(_ & _ & record & Hrec & _ & Hsha) _].
  exists record. split; [exact Hrec | exact Hsha].
Defined.

(** ** The inbox *)

Section Inbox.

Lemma substring_all s : String.substring 0 (String.length s) s = s.
Proof. induction s as [| c s IH]; [done |]. simpl. by rewrite IH. Qed.

Lemma substring_from_app p s : substring_from (String.length p) (p ++ s) = s.
Proof.
  unfold substring_from. induction p as [| c p IH].
  - rewrite append_empty. simpl. rewrite Nat.sub_0_r. apply substring_all.
  - rewrite append_String. simpl. exact IH.
Qed.

Lemma prefix_split p k :
  String.prefix p k = true -> k = p ++ substring_from (String.length p) k.
Proof.
  revert k. induction p as [| a p IH]; intros k Hp.
  - rewrite append_empty. unfold substring_from. simpl.
    rewrite Nat.sub_0_r. by rewrite substring_all.
  - destruct (prefix_head a p k Hp) as [k' ->].
    rewrite prefix_cons in Hp. destruct (ascii_dec a a); [| done].
    rewrite append_String. f_equal.
    rewrite (IH k' Hp) at 1. f_equal.
Qed.

Lemma inbox_key_prefix R x : ("inbox:" ++ R ++ ":") ++ x = inbox_key (JStr R) x.
Proof. unfold inbox_key. simpl to_string. by rewrite !append_assoc. Qed.

(** A prefix made for one colon-free name matches the keys of that name
    only. *)
Lemma name_prefix_same R S rest :
  ":"%char ∉ list_ascii_of_string R ->
  ":"%char ∉ list_ascii_of_string S ->
  String.prefix (R ++ ":") (S ++ ":" ++ rest) = true -> S = R.
Proof.
  revert S. induction R as [| a R IH]; intros S HR HS Hp.
  - destruct S as [| c S]; [done |]. exfalso.
    rewrite append_empty, append_String, prefix_cons in Hp.
    destruct (ascii_dec ":" c) as [<- |]; [| done].
    apply HS. simpl. by left.
  - destruct S as [| c S].
    + exfalso. rewrite append_empty, !append_String, prefix_cons in Hp.
      destruct (ascii_dec a ":") as [-> |]; [| done].
      apply HR. simpl. by left.
    + rewrite !append_String, prefix_cons in Hp.
      destruct (ascii_dec a c) as [-> |]; [| done].
      f_equal. apply IH; [| | done].
      * intros Hin. apply HR. simpl. by right.
      * intros Hin. apply HS. simpl. by right.
Qed.

Lemma valid_no_colon v :
  validateUsername v = true -> ":"%char ∉ list_ascii_of_string (to_string v).
Proof.
  intros Hv Hin. pose proof (validateUsername_name_chars v Hv) as Hall.
  rewrite Forall_forall in Hall.
  by destruct (name_char_plain _ (Hall _ Hin)) as (_ & ? & _).
Qed.

Lemma inbox_prefix_owner r R item :
  validateUsername r = true -> validateUsername (JStr R) = true ->
  String.prefix ("inbox:" ++ R ++ ":") (inbox_key r item) = true ->
  to_string r = R.
Proof.
  intros Hr HR Hp. unfold inbox_key in Hp.
  assert (Hp' : String.prefix (R ++ ":") (to_string r ++ ":" ++ item) = true).
  { revert Hp. generalize (R ++ ":") (to_string r ++ ":" ++ item). intros p k.
    rewrite !append_String, !append_empty, !prefix_cons.
    repeat (destruct (ascii_dec _ _); [| done]). done. }
  apply (name_prefix_same R (to_string r) item); try done.
  - by apply (valid_no_colon (JStr R)).
  - by apply valid_no_colon.
Qed.

Lemma inbox_poll_items w st recipient_param limit_param items it :
  (inbox_poll w st recipient_param limit_param).2 = send 200 (BItems items) ->
  it ∈ items ->
  exists e entry,
    inboxKV st !! inbox_key (JStr (trim recipient_param)) (it_id it) = Some e
    /\ kv_live (now w) e = true /\ kv_val e = VInbox entry
    /\ it = {| it_id := it_id it; it_cipher := in_cipher entry;
               it_alg := in_alg entry; it_cmp := in_cmp entry;
               it_meta := in_meta entry; it_expiresAt := in_expiresAt entry |}.
Proof.
  unfold inbox_poll.
  destruct (negb (validateUsername (JStr (trim recipient_param)))); [done |].
  rewrite <- inbox_key_prefix.
  remember ("inbox:" ++ trim recipient_param ++ ":") as prefix eqn:Hpre.
  unfold snd. intros [= <-] (k & Hk & Hit)%list_elem_of_omap.
  apply kv_list_sub, matching_keys_spec in Hk as (Hp & e & He & Hl).
  unfold kv_get in Hit. rewrite He, Hl in Hit.
  destruct (kv_val e) as [| entry | | |] eqn:Hv; try done.
  injection Hit as <-. unfold it_id at 1 2.
  exists e, entry. rewrite <- (prefix_split _ _ Hp). done.
Qed.

Lemma inbox_poll_listed w st R limit_param k e entry :
  validateUsername (JStr R) = true ->
  (length (matching_keys (now w) ("inbox:" ++ R ++ ":") (inboxKV st))
   <= list_limit (clamp_limit 1 25 10 limit_param))%nat ->
  inboxKV st !! inbox_key (JStr R) k = Some e ->
  kv_live (now w) e = true -> kv_val e = VInbox entry ->
  exists items,
    inbox_poll w st R limit_param = (st, send 200 (BItems items))
    /\ {| it_id := k; it_cipher := in_cipher entry;
          it_alg := in_alg entry; it_cmp := in_cmp entry;
          it_meta := in_meta entry; it_expiresAt := in_expiresAt entry |} ∈ items.
Proof.
  intros HR Hlen He Hl Hv. unfold inbox_poll.
  pose proof (validateUsername_trim (JStr R) HR) as Ht. cbn [to_string] in Ht.
  rewrite Ht, HR. unfold negb. eexists. split; [done |].
  apply list_elem_of_omap. exists (inbox_key (JStr R) k). split.
  - apply kv_list_all; [done |]. apply matching_keys_spec. split; [| eauto].
    rewrite <- inbox_key_prefix. apply prefix_append.
  - unfold kv_get. rewrite He, Hl, Hv. f_equal.
    rewrite <- inbox_key_prefix. by rewrite substring_from_app.
Qed.

Lemma fold_inbox_delete_lookup (key : jsval -> string) ids st k :
  inboxKV (fold_left (fun acc item => set_inboxKV (kv_delete (key item)) acc) ids st)
    !! k
  = if bool_decide (k ∈ map key ids) then None else inboxKV st !! k.
Proof.
  revert st. induction ids as [| item ids IH]; intros st.
  - cbn [fold_left map]. by rewrite bool_decide_eq_false_2 by apply not_elem_of_nil.
  - cbn [fold_left map]. rewrite IH, inboxKV_set_inboxKV. unfold kv_delete.
    destruct (decide (key item = k)) as [<- | Hne].
    + rewrite lookup_delete_eq.
      rewrite (bool_decide_eq_true_2 (key item ∈ key item :: map key ids))
        by (by left).
      by case_bool_decide.
    + rewrite lookup_delete_ne by done.
      rewrite (bool_decide_ext (k ∈ key item :: map key ids) (k ∈ map key ids));
        [done |].
      rewrite elem_of_cons. split; [intros [? | ?]; [congruence | done] | by right].
Qed.

Lemma fold_inbox_rest (key : jsval -> string) ids st :
  let after :=
    fold_left (fun acc item => set_inboxKV (kv_delete (key item)) acc) ids st in
  SHARE_MANAGER after = SHARE_MANAGER st
  /\ (INBOX_KV st <> None -> SHARES_KV after = SHARES_KV st).
Proof.
  revert st. induction ids as [| item ids IH]; intros st; [done |].
  cbn [fold_left]. cbn zeta in *.
  destruct (IH (set_inboxKV (kv_delete (key item)) st)) as [H1 H2].
  rewrite H1, manager_set_inboxKV. split; [done |]. intros Hsep.
  rewrite H2.
  - rewrite shares_set_inboxKV. by destruct (INBOX_KV st).
  - unfold set_inboxKV. by destruct (INBOX_KV st).
Qed.

End Inbox.

(** X9.  GET /v1/inbox/poll answers 200 only for a valid recipient R
    (the parameter trimmed), with at most [limit] items: each of them is a
    stored inbox entry that has not expired, under the key
    [inbox:R:<id>] of the id returned, with the fields of that entry.  The
    keys under the prefix of R are the keys made for R: an item addressed
    to another valid recipient is never returned. *)
Theorem inbox_poll_sound w st recipient_param limit_param items :
  (inbox_poll w st recipient_param limit_param).2 = send 200 (BItems items) ->
  let R := trim recipient_param in
  validateUsername (JStr R) = true
  /\ (length items <= list_limit (clamp_limit 1 25 10 limit_param))%nat
  /\ (forall n, clamp_limit 1 25 10 limit_param = Num n -> 1 <= n <= 25)
  /\ (forall it, it ∈ items ->
        exists e entry,
          inboxKV st !! inbox_key (JStr R) (it_id it) = Some e
          /\ kv_live (now w) e = true /\ kv_val e = VInbox entry
          /\ it = {| it_id := it_id it; it_cipher := in_cipher entry;
                     it_alg := in_alg entry; it_cmp := in_cmp entry;
                     it_meta := in_meta entry;
                     it_expiresAt := in_expiresAt entry |})
  /\ (forall r item,
        validateUsername r = true ->
        String.prefix ("inbox:" ++ R ++ ":") (inbox_key r item) = true ->
        to_string r = R).
Proof.
  intros H R.
  assert (HR : validateUsername (JStr R) = true).
  { unfold inbox_poll in H. fold R in H.
    by destruct (validateUsername (JStr R)). }
  split_and!.
  - done.
  - unfold inbox_poll in H. fold R in H. rewrite HR in H. injection H as <-.
    etrans; [apply omap_length_le |]. apply kv_list_length.
  - intros n Hn.
    destruct (clamp_limit_range 1 25
                (Number (or_else (JStr limit_param) (JNum (Num 10)))))
      as (Hnan & Hrange & _); [lia |].
    fold (clamp_limit 1 25 10 limit_param) in Hnan, Hrange.
    rewrite Hn in Hnan, Hrange.
    assert (Hx : Number (or_else (JStr limit_param) (JNum (Num 10))) <> NaN).
    { intros Hx. by specialize (Hnan Hx). }
    specialize (Hrange Hx). cbn in Hrange. lia.
  - intros it Hit. by apply (inbox_poll_items w st recipient_param limit_param items).
  - intros r item Hr Hp. by apply (inbox_prefix_owner r R item).
Qed.

Lemma inbox_poll_sound_witness :
  exists items,
    (inbox_poll (Scenario.at_time 2000 0)
       (run Scenario.digest Scenario.config Scenario.empty Scenario.delivered).1
       " bob " "").2 = send 200 (BItems items)
    /\ (length items <= 10)%nat
    /\ forall it, it ∈ items ->
         exists e,
           inboxKV (run Scenario.digest Scenario.config Scenario.empty
                      Scenario.delivered).1
             !! inbox_key (JStr "bob") (it_id it) = Some e
           /\ kv_live 2000 e = true.
Proof.
  eexists. split; [vm_compute; reflexivity |].
  destruct (inbox_poll_sound (Scenario.at_time 2000 0)
              (run Scenario.digest Scenario.config Scenario.empty Scenario.delivered).1
              " bob " "" _ eq_refl) as (_ & Hlen & _ & Hitems & _).
  split; [exact Hlen |].
  intros it Hit. destruct (Hitems it Hit) as (e & entry & He & Hl & _).
  exists e. split; [exact He | exact Hl].
Defined.

Section InboxDelivery.

Lemma inbox_post_stored e w st body :
  status (inbox_post e w st body).2 = 201 ->
  exists payload ttl sender,
    prop_opt body "cipher" = JStr payload /\ payload <> ""
    /\ clamp_ttl e (prop_opt body "ttlSec") = Num ttl
    /\ sender_of (meta_of body) = Some sender
    /\ validateUsername (prop_opt body "recipient") = true
    /\ inboxKV (inbox_post e w st body).1
         !! inbox_key (prop_opt body "recipient") (generateToken 20 (random w)).1
       = Some {| kv_val :=
                   VInbox (share_entry body (meta_of body) payload sender
                             (generateToken 20 (generateToken 20 (random w)).2).1
                             (now w) (now w + ttl * 1000));
                 kv_ttl := ttl; kv_put_at := now w |}.
Proof.
  intros H.
  destruct (inbox_post_ok e w st body H)
    as (payload & ttl & sender & _ & Hv & Hc & Hp & _ & _ & Ht & Hs & _ & ->).
  exists payload, ttl, sender. split_and!; try done.
  cbn zeta. cbn [fst].
  destruct (String.eqb sender ""); [by rewrite inboxKV_put_eq |].
  rewrite !inboxKV_put_shares_ne, inboxKV_put_eq; [done | |].
  - apply not_eq_sym, inbox_session_key_ne.
  - apply not_eq_sym, inbox_index_key_ne.
Qed.

Lemma inbox_key_string r x : inbox_key (JStr (to_string r)) x = inbox_key r x.
Proof. reflexivity. Qed.

End InboxDelivery.

(** X10.  After POST /v1/inbox has answered 201 with an item id, a
    poll for the recipient made before the TTL has run out, when the
    recipient has no more live items than the poll lists, returns an item
    with that id, the cipher posted, the algorithm and compression of the
    body (or their defaults), the session id and the expiry time.  Once the
    TTL has run out no poll returns an item with that id. *)
Theorem inbox_post_then_poll e w st body w' limit_param :
  status (inbox_post e w st body).2 = 201 ->
  let after := (inbox_post e w st body).1 in
  let R := to_string (prop_opt body "recipient") in
  let item_id := (generateToken 20 (random w)).1 in
  let sessionId := (generateToken 20 (generateToken 20 (random w)).2).1 in
  exists payload ttl,
    prop_opt body "cipher" = JStr payload
    /\ clamp_ttl e (prop_opt body "ttlSec") = Num ttl
    /\ (now w' < now w + 1000 * ttl ->
        (length (matching_keys (now w') ("inbox:" ++ R ++ ":") (inboxKV after))
         <= list_limit (clamp_limit 1 25 10 limit_param))%nat ->
        exists items it,
          inbox_poll w' after R limit_param = (after, send 200 (BItems items))
          /\ it ∈ items
          /\ it_id it = item_id /\ it_cipher it = payload
          /\ it_alg it = default_alg (prop_opt body "alg")
          /\ it_cmp it = or_else (prop_opt body "cmp") JNull
          /\ prop_opt (it_meta it) "sessionId" = JStr sessionId
          /\ prop_opt (it_meta it) "type" = JStr "share"
          /\ it_expiresAt it = now w + 1000 * ttl)
    /\ (now w + 1000 * ttl <= now w' ->
        forall items it,
          (inbox_poll w' after R limit_param).2 = send 200 (BItems items) ->
          it ∈ items -> it_id it <> item_id).
Proof.
  intros H after R item_id sessionId.
  destruct (inbox_post_stored e w st body H)
    as (payload & ttl & sender & Hc & _ & Ht & _ & Hv & Hstored).
  fold after item_id sessionId in Hstored.
  pose proof (validateUsername_string _ Hv) as HR. fold R in HR.
  pose proof (validateUsername_trim _ Hv) as Htrim. fold R in Htrim.
  exists payload, ttl. split; [done |]. split; [done |]. split.
  - intros Hlive Hlen.
    edestruct (inbox_poll_listed w' after R limit_param item_id)
      as (items & Hpoll & Hin); [exact HR | exact Hlen | exact Hstored | | |].
    { unfold kv_live, kv_expires. simpl. apply Z.ltb_lt. lia. }
    { reflexivity. }
    eexists items, _. split; [exact Hpoll |]. split; [exact Hin |].
    simpl. split_and!; try done. lia.
  - intros Hdead items it Hpoll Hit Hid.
    destruct (inbox_poll_items w' after R limit_param items it Hpoll Hit)
      as (e0 & entry & He0 & Hl & _).
    rewrite Htrim, Hid in He0. unfold R in He0. rewrite inbox_key_string in He0.
    rewrite Hstored in He0. injection He0 as <-.
    unfold kv_live, kv_expires in Hl. simpl in Hl. apply Z.ltb_lt in Hl. lia.
Qed.

Lemma inbox_post_then_poll_witness :
  exists items it,
    inbox_poll (Scenario.at_time 60000 0)
      (run Scenario.digest Scenario.config Scenario.empty Scenario.delivered).1
      "bob" "" =
    ((run Scenario.digest Scenario.config Scenario.empty Scenario.delivered).1,
     send 200 (BItems items))
    /\ it ∈ items /\ it_cipher it = "Y2lwaA"
    /\ it_expiresAt it = 121000.
Proof.
  pose (st := (run Scenario.digest Scenario.config Scenario.empty
                 [Scenario.register "alice" 0; Scenario.register "bob" 100]).1).
  pose (body := JObj [("recipient", JStr "bob"); ("cipher", JStr "Y2lwaA");
                      ("meta", JObj [("sender", JStr " alice ")]);
                      ("ttlSec", JNum (Num 120))]).
  destruct (inbox_post_then_poll Scenario.config (Scenario.at_time 1000 7) st body
              (Scenario.at_time 60000 0) "")
    as (payload & ttl & Hc & Ht & Hpoll & _); [vm_compute; reflexivity |].
  vm_compute in Hc, Ht. injection Hc as <-. injection Ht as <-.
  destruct Hpoll as (items & it & Hp & Hin & _ & Hcipher & _ & _ & _ & _ & Hexp).
  - vm_compute. reflexivity.
  - vm_compute. lia.
  - exists items, it. split; [exact Hp |]. split; [exact Hin |].
    split; [exact Hcipher | exact Hexp].
Defined.

(** X11.  POST /v1/inbox/ack answers 200 only for a valid recipient R
    and a non-empty array of ids, and reports as deleted the number of ids
    given, stored or not.  It removes the keys [inbox:R:<id>] of those ids
    and nothing else: every other key of the inbox namespace, the users
    and the coordinator keep their values.  No later poll for R returns an
    item with an acknowledged id. *)
Theorem inbox_ack_removes st body :
  status (inbox_ack st body).2 = 200 ->
  let after := (inbox_ack st body).1 in
  exists R ids,
    trim_field (prop_opt body "recipient") = Some R
    /\ validateUsername (JStr R) = true
    /\ prop_opt body "ids" = JArr ids /\ ids <> []
    /\ (inbox_ack st body).2 = send 200 (BDeleted (length ids))
    /\ (forall item, item ∈ ids ->
          inboxKV after !! inbox_key (JStr R) (to_string item) = None)
    /\ (forall k,
          (forall item, item ∈ ids -> k <> inbox_key (JStr R) (to_string item)) ->
          inboxKV after !! k = inboxKV st !! k)
    /\ USERS_KV after = USERS_KV st
    /\ SHARE_MANAGER after = SHARE_MANAGER st
    /\ (INBOX_KV st <> None -> SHARES_KV after = SHARES_KV st)
    /\ (forall w limit_param items it item,
          (inbox_poll w after R limit_param).2 = send 200 (BItems items) ->
          it ∈ items -> item ∈ ids -> it_id it <> to_string item).
Proof.
  intros H after. subst after. unfold inbox_ack in *.
  destruct (trim_field (prop_opt body "recipient")) as [R |]; [| done].
  destruct (validateUsername (JStr R)) eqn:HR; [| done]. cbn [negb] in *.
  destruct (prop_opt body "ids") as [| | | | | ids |] eqn:Hids; try done.
  cbn [array_or_empty] in *.
  destruct ids as [| i0 ids]; [done |].
  remember (i0 :: ids) as all eqn:Hall.
  replace (length all =? 0)%nat with false in * by (by subst all).
  cbn [fst snd] in *.
  set (key := fun item : jsval => ("inbox:" ++ R ++ ":") ++ to_string item).
  assert (Hkey : forall item, key item = inbox_key (JStr R) (to_string item)).
  { intros item. apply inbox_key_prefix. }
  assert (Hgone : forall item, item ∈ all ->
            inboxKV (fold_left (fun acc item => set_inboxKV (kv_delete (key item)) acc)
                       all st) !! inbox_key (JStr R) (to_string item) = None).
  { intros item Hin. rewrite fold_inbox_delete_lookup, bool_decide_eq_true_2; [done |].
    rewrite <- Hkey. apply list_elem_of_fmap. by exists item. }
  exists R, all. split_and!; try done.
  - by subst all.
  - intros k Hk. rewrite fold_inbox_delete_lookup, bool_decide_eq_false_2; [done |].
    intros (item & -> & Hin)%list_elem_of_fmap. exact (Hk item Hin (Hkey item)).
  - apply fold_inbox_users.
  - apply (fold_inbox_rest key all st).
  - apply (fold_inbox_rest key all st).
  - intros w limit_param items it item Hpoll Hit Hin Hid.
    destruct (inbox_poll_items _ _ _ _ _ _ Hpoll Hit) as (e0 & _ & He0 & _).
    pose proof (validateUsername_trim (JStr R) HR) as Ht. cbn [to_string] in Ht.
    rewrite Ht, Hid in He0. specialize (Hgone item Hin). unfold key in Hgone.
    congruence.
Qed.

Lemma inbox_ack_removes_witness :
  let st := (run Scenario.digest Scenario.config Scenario.empty Scenario.delivered).1 in
  let body :=
    JObj [("recipient", JStr "bob");
          ("ids", JArr [JStr "0708090a0b0c0d0e0f101112131415161718191a";
                        JStr "never-stored"])] in
  (inbox_ack st body).2 = send 200 (BDeleted 2)
  /\ inboxKV (inbox_ack st body).1
       !! inbox_key (JStr "bob") "0708090a0b0c0d0e0f101112131415161718191a" = None
  /\ is_Some (inboxKV st
                !! inbox_key (JStr "bob") "0708090a0b0c0d0e0f101112131415161718191a").
Proof.
  intros st body.
  destruct (inbox_ack_removes st body) as (R & ids & HR & _ & Hids & _ & Hresp & Hgone & _);
    [vm_compute; reflexivity |].
  vm_compute in HR, Hids. injection HR as <-. injection Hids as <-.
  split; [exact Hresp |]. split.
  - apply (Hgone (JStr "0708090a0b0c0d0e0f101112131415161718191a")). by left.
  - vm_compute. eauto.
Defined.

(** ** Reads in reachable states *)

Section ReachableReads.

Variable sha256 : string -> string.

Lemma index_key_prefix A x : ("sessionBySender:" ++ A ++ ":") ++ x = index_key A x.
Proof. unfold index_key. by rewrite !append_assoc. Qed.

Lemma typed_index_entry m k e :
  typed_ok m -> m !! k = Some e ->
  String.prefix "sessionBySender:" k = true ->
  kv_val e = VIndex /\ exists a x, k = index_key a x /\ hex_id 40 x.
Proof.
  intros Hty He Hp. specialize (Hty k e He).
  apply prefix_split in Hp as Hk. set (rest := substring_from _ k) in Hk.
  assert (Hnot : ~ plain_key k).
  { rewrite Hk. intros [H | H]; apply prefix_head in H as [k' H];
      rewrite append_String in H; done. }
  destruct (kv_val e) as [r | en | s | | r].
  - exfalso. rewrite Hk in Hty. by rewrite append_String in Hty.
  - exfalso. apply Hnot. by left.
  - exfalso. rewrite Hk in Hty. unfold session_key in Hty.
    rewrite !append_String in Hty. done.
  - done.
  - exfalso. apply Hnot. by right.
Qed.

Lemma sessions_list_items e w st sender_param secret_param limit_param sessions s :
  (sessions_list sha256 e w st sender_param secret_param limit_param).2
  = send 200 (BSessions sessions) ->
  s ∈ sessions ->
  exists x ie e0,
    SHARES_KV st !! index_key (trim sender_param) x = Some ie
    /\ kv_live (now w) ie = true
    /\ SHARES_KV st !! session_key x = Some e0
    /\ kv_live (now w) e0 = true /\ kv_val e0 = VSession s.
Proof.
  unfold sessions_list.
  destruct (negb (validateUsername (JStr (trim sender_param)))); [done |].
  destruct (negb (requireAdmin sha256 e st (trim sender_param) (trim secret_param)));
    [done |].
  remember ("sessionBySender:" ++ trim sender_param ++ ":") as prefix eqn:Hpre.
  unfold snd. intros [= <-] (k & Hk & Hs)%list_elem_of_omap.
  apply kv_list_sub, matching_keys_spec in Hk as (Hp & ie & Hie & Hl).
  destruct (kv_get (now w) (session_key (substring_from (String.length prefix) k))
              (SHARES_KV st)) as [v |] eqn:Hget; [| done].
  destruct v as [| | s' | |]; try done. injection Hs as ->.
  apply kv_get_some in Hget as (e0 & He0 & Hl0 & Hv0).
  exists (substring_from (String.length prefix) k), ie, e0.
  rewrite <- index_key_prefix, <- Hpre, <- (prefix_split _ _ Hp). done.
Qed.

End ReachableReads.

(** X12.  In every state reached by runs with new identifiers,
    GET /v1/sessions answers an authenticated admin with sessions of which
    that admin is the [sender], and with no others: each session returned is
    stored and live under the key of its own 40-character id, and the index
    entry of the caller for that id is stored and live. *)
Theorem sessions_list_own (sha256 : string -> string) e st w
    sender_param secret_param limit_param sessions :
  reachable sha256 true e st ->
  (sessions_list sha256 e w st sender_param secret_param limit_param).2
  = send 200 (BSessions sessions) ->
  requireAdmin sha256 e st (trim sender_param) (trim secret_param) = true
  /\ forall s, s ∈ sessions ->
       sender s = trim sender_param
       /\ hex_id 40 (session_id s)
       /\ kv_get (now w) (session_key (session_id s)) (SHARES_KV st)
          = Some (VSession s)
       /\ exists ie,
            SHARES_KV st !! index_key (trim sender_param) (session_id s) = Some ie
            /\ kv_live (now w) ie = true.
Proof.
  intros Hr Hlist. split.
  { unfold sessions_list in Hlist.
    destruct (negb (validateUsername (JStr (trim sender_param)))); [done |].
    by destruct (requireAdmin sha256 e st (trim sender_param) (trim secret_param)). }
  intros s Hs.
  destruct (reachable_invariant sha256 _ _ _ Hr) as (_ & Hsess & Hty & Hf).
  destruct (Hf eq_refl) as [Hidx _]. cbn [stores_of fst snd] in *.
  destruct (sessions_list_items sha256 e w st _ _ _ _ s Hlist Hs)
    as (x & ie & e0 & Hie & Hlie & He0 & Hl0 & Hv0).
  destruct (Hsess _ _ _ He0 Hv0) as (Hkey & Hhex & _).
  apply session_key_inj in Hkey. subst x.
  destruct (typed_index_entry _ _ _ Hty Hie) as (Hvi & a & y & Hk & Hy).
  { unfold index_key. apply prefix_append. }
  apply index_key_inj in Hk as [<- <-].
  2:{ destruct Hhex as [-> _]. by destruct Hy as [-> _]. }
  destruct (Hidx _ _ _ Hhex Hie Hvi) as (e1 & s1 & He1 & Hv1 & Hsender).
  rewrite He0 in He1. injection He1 as <-. rewrite Hv0 in Hv1. injection Hv1 as <-.
  split_and!; try done.
  - unfold kv_get. by rewrite He0, Hl0, Hv0.
  - by exists ie.
Qed.

Lemma sessions_list_own_witness :
  exists sessions,
    (sessions_list Scenario.digest Scenario.config (Scenario.at_time 2000 0)
       (run Scenario.digest Scenario.config Scenario.empty Scenario.delivered).1
       "alice" Scenario.alice_secret "").2 = send 200 (BSessions sessions)
    /\ sessions <> []
    /\ forall s, s ∈ sessions -> sender s = "alice".
Proof.
  eexists. split; [vm_compute; reflexivity |]. split; [done |].
  intros s Hs.
  assert (Hr : reachable Scenario.digest true Scenario.config
                 (run Scenario.digest Scenario.config Scenario.empty
                    Scenario.delivered).1).
  { apply run_reachable; [apply reachable_initial | vm_compute; reflexivity]. }
  destruct (sessions_list_own Scenario.digest Scenario.config _
              (Scenario.at_time 2000 0) "alice" Scenario.alice_secret "" _ Hr eq_refl)
    as [_ Hown].
  by destruct (Hown s Hs) as [-> _].
Defined.

(** X13.  In every reachable state the shares namespace keeps its
    kinds of values apart: a share record sits under a key that starts
    with a hexadecimal character, an inbox entry under an [inbox:] key, an
    access request under a [request:] key, a session record under the
    [session:] key of its own id, and an index entry under a
    [sessionBySender:] key with a 40-character id.  So what is read under a
    session key is a session with that id, under a [request:] key a
    request, under a token a share, under an inbox key an inbox entry. *)
Theorem keys_hold_their_kind (sha256 : string -> string) fresh e st :
  reachable sha256 fresh e st ->
  typed_ok (SHARES_KV st)
  /\ forall t,
       (forall x v,
           kv_get t (session_key x) (SHARES_KV st) = Some v ->
           exists s, v = VSession s /\ session_id s = x)
       /\ (forall k v,
             String.prefix "request:" k = true ->
             kv_get t k (SHARES_KV st) = Some v -> exists r, v = VRequest r)
       /\ (forall token v,
             hex_headed token ->
             kv_get t token (SHARES_KV st) = Some v -> exists r, v = VShare r)
       /\ (forall r item v,
             kv_get t (inbox_key r item) (SHARES_KV st) = Some v ->
             exists entry, v = VInbox entry).
Proof.
  intros Hr. destruct (reachable_invariant sha256 _ _ _ Hr) as (_ & _ & Hty & _).
  cbn [stores_of fst] in Hty. split; [done |]. intros t.
  destruct (reachable_reads sha256 fresh e st t Hr) as (H1 & H2 & H3).
  split_and!; try done.
  intros r item v (e0 & He & _ & <-)%kv_get_some.
  specialize (Hty _ _ He). pose proof (plain_inbox_key r item) as Hpl.
  destruct (kv_val e0) as [sr | en | s | | rq]; eauto.
  - by apply plain_not_hex in Hpl.
  - by apply plain_not_session in Hty.
  - destruct Hty as (a & y & Hk & _). by apply plain_not_index in Hk.
  - exfalso. cbn [plain_pair] in Hty. unfold inbox_key in Hty.
    rewrite append_String, prefix_cons in Hty. done.
Qed.

Lemma keys_hold_their_kind_witness :
  exists s,
    kv_get 2000 (session_key Scenario.session1)
      (SHARES_KV (run Scenario.digest Scenario.config Scenario.empty
                    Scenario.delivered).1) = Some (VSession s)
    /\ session_id s = Scenario.session1.
Proof.
  assert (Hr : reachable Scenario.digest true Scenario.config
                 (run Scenario.digest Scenario.config Scenario.empty
                    Scenario.delivered).1).
  { apply run_reachable; [apply reachable_initial | vm_compute; reflexivity]. }
  destruct (keys_hold_their_kind Scenario.digest true Scenario.config _ Hr)
    as [_ Hreads].
  destruct (Hreads 2000) as (Hsession & _).
  destruct (kv_get 2000 (session_key Scenario.session1)
              (SHARES_KV (run Scenario.digest Scenario.config Scenario.empty
                            Scenario.delivered).1)) as [v |] eqn:Hget.
  - destruct (Hsession _ _ Hget) as (s & -> & Hid). by exists s.
  - vm_compute in Hget. discriminate.
Defined.

(** ** Share links *)

(** X14.  After POST /v1/shares has answered 201 with a token that
    the coordinator did not know, GET /v1/shares/:token returns the record
    stored (the cipher posted, the algorithm and compression of the body or
    their defaults, and the meta) as long as the TTL has not run out, and
    404 from then on; the read changes nothing. *)
Theorem share_post_then_get e w st body w' flag :
  status (shares_post e w st body).2 = 201 ->
  let token := (generateToken 24 (random w)).1 in
  SHARE_MANAGER st !! token = None ->
  let after := (shares_post e w st body).1 in
  exists payload ttl,
    prop_opt body "cipher" = JStr payload
    /\ clamp_ttl e (prop_opt body "ttlSec") = Num ttl
    /\ (now w' < now w + 1000 * ttl ->
        share_route w' after GET token flag
        = (after,
           send 200
             (BShare token
                {| sh_cipher := payload;
                   sh_alg := default_alg (prop_opt body "alg");
                   sh_cmp := or_else (prop_opt body "cmp") JNull;
                   sh_meta := sh_meta (stored_share body (meta_of body) payload) |})))
    /\ (now w + 1000 * ttl <= now w' ->
        share_route w' after GET token flag
        = (after, send 404 (BError "Not found"))).
Proof.
  intros H token Hnew after.
  destruct (shares_post_ok e w st body H)
    as (payload & ttl & _ & _ & Hc & _ & _ & _ & Ht & _ & Heq).
  exists payload, ttl. split; [done |]. split; [done |].
  assert (Htok : String.eqb token "" = false).
  { apply String.eqb_neq. intros Hnil.
    destruct (generateToken_format 24 (random w)) as [Hlen _].
    fold token in Hlen. by rewrite Hnil in Hlen. }
  assert (Hm : SHARE_MANAGER after !! token
               = Some {| tc_rec := {| consumed := false;
                                      tc_expiresAt := now w + ttl * 1000;
                                      tc_recipient := prop_opt body "recipient" |};
                         tc_expiration :=
                           Some (floor_div (now w) 1000
                                 + (if ttl =? 0 then DEFAULT_TTL else ttl)) |}).
  { subst after. rewrite Heq. cbn zeta. cbn [fst]. fold token.
    unfold set_manager, set_shares. cbn [SHARE_MANAGER ShareManager_fetch].
    rewrite Hnew. cbn [fst]. by rewrite lookup_insert_eq. }
  assert (Hs : SHARES_KV after !! token
               = Some {| kv_val := VShare (stored_share body (meta_of body) payload);
                         kv_ttl := ttl; kv_put_at := now w |}).
  { subst after. rewrite Heq. cbn zeta. cbn [fst]. fold token.
    unfold set_manager, set_shares. cbn [SHARES_KV]. apply kv_put_eq. }
  assert (Hget : share_route w' after GET token flag
                 = (after,
                    match kv_get (now w') token (SHARES_KV after) with
                    | Some (VShare stored) => send 200 (BShare token stored)
                    | _ => send 404 (BError "Not found")
                    end)).
  { unfold share_route. rewrite Htok. cbn [ShareManager_fetch]. rewrite Hm.
    cbn [tc_rec consumed]. cbn [status send Z.eqb negb].
    rewrite set_manager_same.
    by destruct (kv_get (now w') token (SHARES_KV after)) as [[] |]. }
  rewrite Hget. unfold kv_get, kv_live, kv_expires. rewrite Hs. cbn [kv_put_at kv_ttl kv_val].
  split; intros Htime.
  - apply Z.ltb_lt in Htime. by rewrite Htime.
  - apply Z.ltb_ge in Htime. by rewrite Htime.
Qed.

Lemma share_post_then_get_witness :
  let after := (run Scenario.digest Scenario.config Scenario.empty Scenario.shared).1 in
  (exists r,
      share_route (Scenario.at_time 120999 0) after GET Scenario.token1 false
      = (after, send 200 (BShare Scenario.token1 r))
      /\ sh_cipher r = "Y2lwaA")
  /\ share_route (Scenario.at_time 121000 0) after GET Scenario.token1 false
     = (after, send 404 (BError "Not found")).
Proof.
  intros after.
  pose (st := (run Scenario.digest Scenario.config Scenario.empty
                 [Scenario.register "bob" 100]).1).
  pose (body := JObj [("recipient", JStr "bob"); ("cipher", JStr "Y2lwaA");
                      ("ttlSec", JNum (Num 120))]).
  split.
  - destruct (share_post_then_get Scenario.config (Scenario.at_time 1000 7) st body
                (Scenario.at_time 120999 0) false)
      as (payload & ttl & Hc & Ht & Hlive & _);
      [vm_compute; reflexivity | vm_compute; reflexivity |].
    vm_compute in Hc, Ht. injection Hc as <-. injection Ht as <-.
    eexists. split; [apply Hlive; vm_compute; reflexivity | reflexivity].
  - destruct (share_post_then_get Scenario.config (Scenario.at_time 1000 7) st body
                (Scenario.at_time 121000 0) false)
      as (payload & ttl & Hc & Ht & _ & Hdead);
      [vm_compute; reflexivity | vm_compute; reflexivity |].
    vm_compute in Ht. injection Ht as <-.
    apply Hdead. vm_compute. discriminate.
Defined.

(** ** The coordinator's records *)

Section CoordinatorRecords.

Lemma tc_run_keeps (storage : gmap string tc_entry) calls token e :
  storage !! token = Some e ->
  exists e',
    (tc_run storage calls).1 !! token = Some e'
    /\ tc_expiresAt (tc_rec e') = tc_expiresAt (tc_rec e)
    /\ tc_recipient (tc_rec e') = tc_recipient (tc_rec e).
Proof.
  revert storage e. induction calls as [| [t req] rest IH]; intros storage e He.
  - simpl. eauto.
  - simpl. destruct (tc_step_keeps storage t req token e He) as (e1 & He1 & Hx & Hr & _).
    destruct (ShareManager_fetch t storage req) as [s1 r]. simpl in He1.
    destruct (IH s1 e1 He1) as (e2 & He2 & Hx2 & Hr2).
    destruct (tc_run s1 rest) as [s2 rs]. simpl in *.
    exists e2. split; [done |]. split; congruence.
Qed.

End CoordinatorRecords.

(** X15.  The coordinator keeps the first record of a token:
    over any sequence of calls a known token stays known with the
    [expiresAt] and the recipient it was initialised with, and an init of
    a known token is answered 409 and changes nothing.  A status call never
    changes the storage, and it answers with the status that a consume
    would be given at that moment (200, 404 or 410); after the init of an
    unknown token it is 200 with the recipient. *)
Theorem coordinator_keeps_first_record (storage : gmap string tc_entry) token :
  (forall calls e,
      storage !! token = Some e ->
      exists e',
        (tc_run storage calls).1 !! token = Some e'
        /\ tc_expiresAt (tc_rec e') = tc_expiresAt (tc_rec e)
        /\ tc_recipient (tc_rec e') = tc_recipient (tc_rec e))
  /\ (forall t expires recip ttl,
        is_Some (storage !! token) ->
        ShareManager_fetch t storage (TcInit token expires recip ttl)
        = (storage, send 409 (BError "Token already exists")))
  /\ (forall t,
        (ShareManager_fetch t storage (TcStatus token)).1 = storage
        /\ status (ShareManager_fetch t storage (TcStatus token)).2
           = status (ShareManager_fetch t storage (TcConsume token)).2)
  /\ (forall t expires recip ttl t',
        storage !! token = None ->
        (ShareManager_fetch t'
           (ShareManager_fetch t storage (TcInit token expires recip ttl)).1
           (TcStatus token)).2
        = send 200 (BStatus recip)).
Proof.
  split_and!.
  - intros calls e He. by apply tc_run_keeps.
  - intros t expires recip ttl [e He]. simpl. by rewrite He.
  - intros t. split; [apply status_keeps |].
    simpl. destruct (storage !! token) as [e |]; [| done].
    by destruct (consumed (tc_rec e)).
  - intros t expires recip ttl t' Hnew. simpl. rewrite Hnew. simpl.
    by rewrite lookup_insert_eq.
Qed.

(** ** Restoring a revoked session *)

Section Restore.

Variable sha256 : string -> string.

Lemma or_else_idem a b : or_else (or_else a b) b = or_else a b.
Proof.
  unfold or_else. destruct (truthy a) eqn:Ha; [by rewrite Ha |].
  by destruct (truthy b).
Qed.

Lemma number_or_zero_num z : number_or_zero (JNum (Num z)) = Num z.
Proof.
  unfold number_or_zero, or_else. simpl.
  destruct (z =? 0) eqn:Hz; simpl; [| done]. apply Z.eqb_eq in Hz. by subst.
Qed.

(** Reading a stored duration again: a whole number is kept, [null] reads
    as 0. *)
Lemma stored_duration_stored v :
  stored_duration (stored_duration v)
  = or_else (stored_duration v) (JNum (Num 0)).
Proof.
  unfold stored_duration at 2 3.
  destruct (number_or_zero v) as [z | q | negative |]; cbn [json_number].
  - unfold stored_duration. rewrite number_or_zero_num. cbn.
    unfold or_else. cbn. destruct (z =? 0) eqn:Hz; cbn; [| done].
    apply Z.eqb_eq in Hz. by subst.
  - reflexivity.
  - reflexivity.
  - reflexivity.
Qed.

(** A duration is stored as [null] exactly when it reads as an infinity. *)
Lemma stored_duration_null v d :
  json_number (number_or_zero v) = Some d ->
  stored_duration v = d
  /\ (d = JNull
      <-> exists negative,
            Number (or_else v (JNum (Num 0))) = Infinite negative).
Proof.
  unfold stored_duration. intros Hd. rewrite Hd. split; [done |].
  unfold number_or_zero in Hd.
  destruct (Number (or_else v (JNum (Num 0)))) as [z | q | negative |];
    cbn in Hd; try done; injection Hd as <-.
  - split; [done | by intros [negative ?]].
  - split; [eauto | done].
  - split; [done | by intros [negative ?]].
Qed.

Lemma inbox_post_duration e w st body :
  status (inbox_post e w st body).2 = 201 ->
  exists d,
    json_number (number_or_zero (prop_opt (meta_of body) "sessionDurationSec"))
    = Some d.
Proof.
  unfold inbox_post. repeat case_match; simpl; try done; eauto.
Qed.

Lemma inbox_post_session e w st body who :
  status (inbox_post e w st body).2 = 201 ->
  sender_of (meta_of body) = Some who -> who <> "" ->
  exists payload ttl,
    prop_opt body "cipher" = JStr payload
    /\ clamp_ttl e (prop_opt body "ttlSec") = Num ttl
    /\ SHARES_KV (inbox_post e w st body).1
         !! session_key (generateToken 20 (generateToken 20 (random w)).2).1
       = Some {| kv_val :=
                   VSession
                     (new_session body (meta_of body) (prop_opt body "recipient")
                        payload who
                        (generateToken 20 (generateToken 20 (random w)).2).1
                        (now w) (now w + ttl * 1000));
                 kv_ttl := ttl; kv_put_at := now w |}.
Proof.
  intros H Hs Hne.
  destruct (inbox_post_ok e w st body H)
    as (payload & ttl & who' & _ & _ & Hc & _ & _ & _ & Ht & Hs' & _ & ->).
  rewrite Hs in Hs'. injection Hs' as <-.
  exists payload, ttl. split; [done |]. split; [done |].
  apply String.eqb_neq in Hne. cbn zeta. cbn [fst]. rewrite Hne.
  unfold set_shares, kv_put. cbn [SHARES_KV].
  rewrite lookup_insert_ne by apply index_session_key_ne.
  by rewrite lookup_insert_eq.
Qed.

Lemma kv_get_lookup t k (m : gmap string kv_entry) v e :
  kv_get t k m = Some v -> m !! k = Some e -> kv_val e = v /\ kv_live t e = true.
Proof.
  intros (e' & He' & Hl & Hv)%kv_get_some He. rewrite He in He'.
  injection He' as <-. done.
Qed.

End Restore.

(** X16.  When a share sent through POST /v1/inbox with a sender
    is revoked and then restored, restore enqueues for the recipient, under
    a new id, a copy of the inbox entry of the share: the same cipher, the
    same compression, the same expiry time and the same target origin,
    sender, session id and type [share]; the comment is dropped; the
    algorithm, the target path and the duration are the stored ones with
    their defaults applied once more ([stored || default]).  For the
    duration this makes a difference in one case: a duration that read as
    an infinity was stored as [null] and comes back as 0.  The TTL of the
    copy is the time left, more than 60 seconds.  The session record then
    carries the times of the revoke and of the restore. *)
Theorem restore_redelivers_original (sha256 : string -> string)
    e w st body who e2 w2 body2 e3 w3 body3 :
  status (inbox_post e w st body).2 = 201 ->
  sender_of (meta_of body) = Some who -> who <> "" ->
  let sid := (generateToken 20 (generateToken 20 (random w)).2).1 in
  let after1 := (inbox_post e w st body).1 in
  status (session_revoke sha256 e2 w2 after1 sid body2).2 = 200 ->
  let after2 := (session_revoke sha256 e2 w2 after1 sid body2).1 in
  status (session_restore sha256 e3 w3 after2 sid body3).2 = 200 ->
  let after3 := (session_restore sha256 e3 w3 after2 sid body3).1 in
  exists payload ttl original item left session,
    prop_opt body "cipher" = JStr payload
    /\ inboxKV after1
         !! inbox_key (prop_opt body "recipient") (generateToken 20 (random w)).1
       = Some {| kv_val := VInbox original; kv_ttl := ttl; kv_put_at := now w |}
    /\ inboxKV after3
         !! inbox_key (prop_opt body "recipient") (generateToken 16 (random w3)).1
       = Some {| kv_val := VInbox item; kv_ttl := left; kv_put_at := now w3 |}
    /\ left = floor_div (now w + ttl * 1000 - now w3) 1000 /\ 60 < left
    /\ in_cipher item = payload /\ in_cipher original = payload
    /\ in_alg item = default_alg (in_alg original)
    /\ in_cmp item = in_cmp original
    /\ in_expiresAt item = in_expiresAt original
    /\ in_createdAt item = now w3
    /\ prop_opt (in_meta item) "comment" = JNull
    /\ prop_opt (in_meta item) "sessionDurationSec"
       = or_else (prop_opt (in_meta original) "sessionDurationSec") (JNum (Num 0))
    /\ (prop_opt (in_meta original) "sessionDurationSec" = JNull
        <-> exists negative,
              Number (or_else (prop_opt (meta_of body) "sessionDurationSec")
                        (JNum (Num 0)))
              = Infinite negative)
    /\ prop_opt (in_meta item) "targetPath"
       = or_else (prop_opt (in_meta original) "targetPath") (JStr "/")
    /\ (forall name,
          name <> "comment" -> name <> "sessionDurationSec" ->
          name <> "targetPath" ->
          prop_opt (in_meta item) name = prop_opt (in_meta original) name)
    /\ kv_val <$> SHARES_KV after3 !! session_key sid = Some (VSession session)
    /\ revokedAt session = Some (now w2) /\ restoredAt session = Some (now w3)
    /\ sender session = who /\ cipher session = payload.
Proof.
  intros H1 Hs Hne sid after1 H2 after2 H3 after3.
  destruct (inbox_post_stored e w st body H1)
    as (payload & ttl & who' & Hc & _ & Ht & Hs' & _ & Horig).
  rewrite Hs in Hs'. injection Hs' as <-.
  destruct (inbox_post_session e w st body who H1 Hs Hne)
    as (payload' & ttl' & Hc' & Ht' & Hsess).
  rewrite Hc in Hc'. injection Hc' as <-. rewrite Ht in Ht'. injection Ht' as <-.
  fold sid after1 in Hsess, Horig.
  set (s0 := new_session body (meta_of body) (prop_opt body "recipient") payload who
               sid (now w) (now w + ttl * 1000)) in *.
  (* the revoke *)
  destruct (session_revoke_ok sha256 e2 w2 after1 sid body2 H2)
    as (admin2 & session2 & Hget2 & _ & _ & Heq2).
  destruct (kv_get_lookup _ _ _ _ _ Hget2 Hsess) as [Hv2 _]. cbn [kv_val] in Hv2.
  injection Hv2 as <-.
  assert (Hsess2 : SHARES_KV after2 !! session_key sid
                   = Some {| kv_val := VSession (set_revokedAt (now w2) s0);
                             kv_ttl := Z.max 60 (remaining_sec w2 s0);
                             kv_put_at := now w2 |}).
  { subst after2. rewrite Heq2. cbn zeta. cbn [fst].
    rewrite shares_set_shares. apply kv_put_eq. }
  (* the restore *)
  destruct (session_restore_ok sha256 e3 w3 after2 sid body3 H3)
    as (session3 & Hget3 & _ & Hleft & Heq3).
  destruct (kv_get_lookup _ _ _ _ _ Hget3 Hsess2) as [Hv3 _]. cbn [kv_val] in Hv3.
  injection Hv3 as <-.
  set (s2 := set_revokedAt (now w2) s0) in *.
  eexists payload, ttl, _, (restore_entry s2 (now w3)), (remaining_sec w3 s2),
    (set_restoredAt (now w3) s2).
  split; [done |]. split; [exact Horig |]. split.
  { subst after3. rewrite Heq3. cbn zeta. cbn [fst].
    apply (inbox_lookup_after_rewrite (now w3)), inbox_session_key_ne. }
  split; [reflexivity |]. split; [exact Hleft |].
  split; [reflexivity |]. split; [reflexivity |].
  split; [reflexivity |]. split; [apply or_else_idem |].
  split; [reflexivity |]. split; [reflexivity |]. split; [reflexivity |].
  destruct (inbox_post_duration e w st body H1) as (d & Hd).
  destruct (stored_duration_null _ _ Hd) as [Hstored Hnull].
  split; [apply stored_duration_stored |].
  split.
  { cbn [in_meta share_entry prop_opt prop assoc String.eqb Ascii.eqb Bool.eqb].
    by rewrite Hstored. }
  split; [reflexivity |].
  split.
  { intros name Hname Hduration Hpath. apply String.eqb_neq in Hname.
    apply String.eqb_neq in Hduration. apply String.eqb_neq in Hpath.
    apply String.eqb_neq in Hne.
    cbn [in_meta restore_entry share_entry prop_opt prop assoc
         s2 s0 set_revokedAt new_session targetOrigin targetPath sender
         durationSec session_id].
    rewrite Hne, !or_else_idem.
    rewrite String.eqb_sym in Hname. rewrite String.eqb_sym in Hduration.
    rewrite String.eqb_sym in Hpath.
    by rewrite Hname, Hduration, Hpath. }
  split.
  { subst after3. rewrite Heq3. cbn zeta. cbn [fst].
    unfold set_shares. cbn [SHARES_KV]. by rewrite kv_put_eq. }
  done.
Qed.


Lemma restore_redelivers_original_witness :
  let st := (run Scenario.digest Scenario.config Scenario.empty
               [Scenario.register "alice" 0; Scenario.register "bob" 100]).1 in
  let body := JObj [("recipient", JStr "bob"); ("cipher", JStr "Y2lwaA");
                    ("meta", JObj [("sender", JStr " alice ")]);
                    ("ttlSec", JNum (Num 120))] in
  let w := Scenario.at_time 1000 7 in
  let sid := (generateToken 20 (generateToken 20 (random w)).2).1 in
  let me := Scenario.credentials "alice" Scenario.alice_secret in
  let after1 := (inbox_post Scenario.config w st body).1 in
  let after2 :=
    (session_revoke Scenario.digest Scenario.config (Scenario.at_time 20000 50)
       after1 sid me).1 in
  let after3 :=
    (session_restore Scenario.digest Scenario.config (Scenario.at_time 30000 9)
       after2 sid me).1 in
  exists item left,
    inboxKV after3
      !! inbox_key (prop_opt body "recipient")
           (generateToken 16 (random (Scenario.at_time 30000 9))).1
    = Some {| kv_val := VInbox item; kv_ttl := left;
              kv_put_at := now (Scenario.at_time 30000 9) |}
    /\ in_cipher item = "Y2lwaA" /\ 60 < left.
Proof.
  intros st body w sid me after1 after2 after3.
  destruct (restore_redelivers_original Scenario.digest
              Scenario.config w st body "alice"
              Scenario.config (Scenario.at_time 20000 50) me
              Scenario.config (Scenario.at_time 30000 9) me)
    as (payload & ttl & original & item & left & session & Hc & _ & Hitem & _ & Hleft
        & Hcipher & _); try (vm_compute; reflexivity).
  { vm_compute. discriminate. }
  vm_compute in Hc. injection Hc as <-.
  exists item, left. split; [exact Hitem |]. split; [exact Hcipher | exact Hleft].
Defined.

(** ** Access requests *)

Section Requests.

Variable sha256 : string -> string.

Lemma requests_post_ok e w st body :
  status (requests_post sha256 e w st body).2 = 201 ->
  exists requester secret origin pageUrl target,
    trim_field (prop_opt body "username") = Some requester
    /\ trim_field (prop_opt body "authSecret") = Some secret
    /\ trim_field (prop_opt body "origin") = Some origin
    /\ trim_field (prop_opt body "url") = Some pageUrl
    /\ trim_field (prop_opt body "targetAdmin") = Some target
    /\ validateUsername (JStr requester) = true /\ origin <> ""
    /\ validateUsername (JStr target) = true
    /\ (parseAdmins (ADMIN_USERS e) = []
        \/ "*" ∈ parseAdmins (ADMIN_USERS e)
        \/ target ∈ parseAdmins (ADMIN_USERS e))
    /\ verifyAuth sha256 st requester secret = true
    /\ requests_post sha256 e w st body =
       (let request_id := (generateToken 16 (random w)).1 in
        (set_shares
           (kv_put (now w) (request_key request_id)
              (VRequest {| rq_id := request_id;
                           rq_requester := requester;
                           rq_origin := origin;
                           rq_url := or_else (JStr pageUrl) JNull;
                           rq_createdAt := now w;
                           rq_targetAdmin := or_else (JStr target) JNull |})
              (15 * 60)) st,
         send 201 (BRequestCreated request_id))).
Proof.
  unfold requests_post.
  destruct (trim_field (prop_opt body "username")) as [requester |]; [| done].
  destruct (trim_field (prop_opt body "authSecret")) as [secret |]; [| done].
  destruct (trim_field (prop_opt body "origin")) as [origin |]; [| done].
  destruct (trim_field (prop_opt body "url")) as [pageUrl |]; [| done].
  destruct (trim_field (prop_opt body "targetAdmin")) as [target |]; [| done].
  destruct (validateUsername (JStr requester)) eqn:Hr; [| done].
  destruct (String.eqb origin "") eqn:Ho; [done |]. apply String.eqb_neq in Ho.
  destruct (validateUsername (JStr target)) eqn:Ht; [| done]. cbn [negb orb].
  set (admins := parseAdmins (ADMIN_USERS e)).
  destruct (negb ((length admins =? 0)%nat || includes admins "*")
            && negb (includes admins target)) eqn:Hadm; [done |].
  destruct (verifyAuth sha256 st requester secret) eqn:Hv; [| done]. cbn [negb].
  intros _. exists requester, secret, origin, pageUrl, target.
  split_and!; try done.
  apply andb_false_iff in Hadm as [Hw | Hin].
  - apply negb_false_iff, orb_true_iff in Hw as [Hlen | Hstar].
    + left. apply Nat.eqb_eq in Hlen. by destruct admins.
    + right. left. by apply includes_spec.
  - right. right. by apply includes_spec, negb_false_iff.
Qed.

Lemma fold_shares_delete_lookup (key : jsval -> string) ids st k :
  SHARES_KV (fold_left (fun acc item => set_shares (kv_delete (key item)) acc) ids st)
    !! k
  = if bool_decide (k ∈ map key ids) then None else SHARES_KV st !! k.
Proof.
  revert st. induction ids as [| item ids IH]; intros st.
  - cbn [fold_left map]. by rewrite bool_decide_eq_false_2 by apply not_elem_of_nil.
  - cbn [fold_left map]. rewrite IH, shares_set_shares. unfold kv_delete.
    destruct (decide (key item = k)) as [<- | Hne].
    + rewrite lookup_delete_eq.
      rewrite (bool_decide_eq_true_2 (key item ∈ key item :: map key ids))
        by (by left).
      by case_bool_decide.
    + rewrite lookup_delete_ne by done.
      rewrite (bool_decide_ext (k ∈ key item :: map key ids) (k ∈ map key ids));
        [done |].
      rewrite elem_of_cons. split; [intros [? | ?]; [congruence | done] | by right].
Qed.

Lemma fold_shares_rest (key : jsval -> string) ids st :
  let after :=
    fold_left (fun acc item => set_shares (kv_delete (key item)) acc) ids st in
  SHARE_MANAGER after = SHARE_MANAGER st /\ INBOX_KV after = INBOX_KV st.
Proof.
  revert st. induction ids as [| item ids IH]; intros st; [done |].
  cbn [fold_left]. cbn zeta in *.
  destruct (IH (set_shares (kv_delete (key item)) st)) as [H1 H2].
  by rewrite H1, H2.
Qed.

End Requests.

(** X17.  POST /v1/requests answers 201 only to a requester whom
    [verifyAuth] accepts, for a non-empty origin and a valid target admin
    who is on the list of admins (or the list is empty or holds [*]).  It
    stores one record under [request:<id>], with the requester, the origin
    and the target admin of the body, for 15 minutes, and changes no other
    key.  Until then a poll by the target admin, when no more requests are
    stored than the poll lists, returns the record; after 15 minutes the
    record is read no more. *)
Theorem request_post_then_poll (sha256 : string -> string) e w st body :
  status (requests_post sha256 e w st body).2 = 201 ->
  let after := (requests_post sha256 e w st body).1 in
  let request_id := (generateToken 16 (random w)).1 in
  exists requester secret origin target rec,
    trim_field (prop_opt body "username") = Some requester
    /\ trim_field (prop_opt body "authSecret") = Some secret
    /\ trim_field (prop_opt body "origin") = Some origin
    /\ trim_field (prop_opt body "targetAdmin") = Some target
    /\ verifyAuth sha256 st requester secret = true
    /\ origin <> "" /\ validateUsername (JStr target) = true
    /\ (parseAdmins (ADMIN_USERS e) = []
        \/ "*" ∈ parseAdmins (ADMIN_USERS e)
        \/ target ∈ parseAdmins (ADMIN_USERS e))
    /\ (requests_post sha256 e w st body).2 = send 201 (BRequestCreated request_id)
    /\ SHARES_KV after !! request_key request_id
       = Some {| kv_val := VRequest rec; kv_ttl := 900; kv_put_at := now w |}
    /\ rq_id rec = request_id /\ rq_requester rec = requester
    /\ rq_origin rec = origin /\ rq_targetAdmin rec = JStr target
    /\ rq_createdAt rec = now w
    /\ (forall k, k <> request_key request_id ->
          SHARES_KV after !! k = SHARES_KV st !! k)
    /\ USERS_KV after = USERS_KV st /\ INBOX_KV after = INBOX_KV st
    /\ SHARE_MANAGER after = SHARE_MANAGER st
    /\ (forall w' secret_param limit_param,
          now w' < now w + 900000 ->
          requireAdmin sha256 e after target (trim secret_param) = true ->
          (length (matching_keys (now w') "request:" (SHARES_KV after))
           <= list_limit (clamp_limit 1 100 25 limit_param))%nat ->
          exists items,
            requests_poll sha256 e w' after target secret_param limit_param
            = (after, send 200 (BRequests items))
            /\ rec ∈ items)
    /\ (forall w',
          now w + 900000 <= now w' ->
          kv_get (now w') (request_key request_id) (SHARES_KV after) = None).
Proof.
  intros H after request_id.
  destruct (requests_post_ok sha256 e w st body H)
    as (requester & secret & origin & pageUrl & target & Hu & Hsec & Ho & _ & Hta
        & _ & Hone & Hvt & Hadm & Hauth & Heq).
  assert (Htruthy : or_else (JStr target) JNull = JStr target).
  { unfold or_else. simpl. destruct (String.eqb target "") eqn:Hnil; [| done].
    apply String.eqb_eq in Hnil. by subst target. }
  rewrite Htruthy in Heq.
  set (rec := {| rq_id := request_id; rq_requester := requester; rq_origin := origin;
                 rq_url := or_else (JStr pageUrl) JNull; rq_createdAt := now w;
                 rq_targetAdmin := JStr target |}) in *.
  assert (Hstored : SHARES_KV after !! request_key request_id
                    = Some {| kv_val := VRequest rec; kv_ttl := 900;
                              kv_put_at := now w |}).
  { subst after. rewrite Heq. cbn zeta. cbn [fst]. rewrite shares_set_shares.
    apply kv_put_eq. }
  exists requester, secret, origin, target, rec.
  split_and!; try done.
  - by rewrite Heq.
  - intros k Hk. subst after. rewrite Heq. cbn zeta. cbn [fst].
    rewrite shares_set_shares. by apply kv_put_ne.
  - subst after. by rewrite Heq.
  - subst after. by rewrite Heq.
  - subst after. by rewrite Heq.
  - intros w' secret_param limit_param Hlive Hadmin Hlen.
    unfold requests_poll.
    pose proof (validateUsername_trim (JStr target) Hvt) as Htrim.
    cbn [to_string] in Htrim. rewrite Htrim, Hadmin. cbn [negb].
    eexists. split; [done |].
    apply list_elem_of_filter. split.
    + apply hidden_from_false. by right.
    + apply stored_are_listed; [done |].
      eexists (request_key request_id), _. split; [apply prefix_append |].
      split; [exact Hstored |]. split; [| done].
      unfold kv_live, kv_expires. simpl. apply Z.ltb_lt. lia.
  - intros w' Hdead. unfold kv_get. rewrite Hstored.
    unfold kv_live, kv_expires. cbn [kv_put_at kv_ttl kv_val].
    replace (now w' <? now w + 1000 * 900) with false; [done |].
    symmetry. apply Z.ltb_ge. lia.
Qed.

Lemma request_post_then_poll_witness :
  let after := (run Scenario.digest Scenario.config Scenario.empty
                  [Scenario.register "alice" 0; Scenario.register "dave" 64;
                   Scenario.register "carol" 150; Scenario.ask 1000 10]).1 in
  exists items rec,
    requests_poll Scenario.digest Scenario.config (Scenario.at_time 5000 0) after
      "alice" Scenario.alice_secret ""
    = (after, send 200 (BRequests items))
    /\ rec ∈ items /\ rq_requester rec = "carol"
    /\ rq_targetAdmin rec = JStr "alice".
Proof.
  intros after.
  pose (st := (run Scenario.digest Scenario.config Scenario.empty
                 [Scenario.register "alice" 0; Scenario.register "dave" 64;
                  Scenario.register "carol" 150]).1).
  destruct (request_post_then_poll Scenario.digest Scenario.config
              (Scenario.at_time 1000 10) st
              (JObj [("username", JStr "carol");
                     ("authSecret", JStr Scenario.carol_secret);
                     ("origin", JStr "https://bank.example");
                     ("targetAdmin", JStr "alice")]))
    as (requester & secret & origin & target & rec & Hu & _ & _ & Hta & _ & _ & _ & _
        & _ & _ & _ & Hreq & _ & Htarget & _ & _ & _ & _ & _ & Hpoll & _);
    [vm_compute; reflexivity |].
  vm_compute in Hu, Hta. injection Hu as <-. injection Hta as <-.
  destruct (Hpoll (Scenario.at_time 5000 0) Scenario.alice_secret "")
    as (items & Hp & Hin).
  - vm_compute. reflexivity.
  - vm_compute. reflexivity.
  - vm_compute. lia.
  - exists items, rec. split; [exact Hp |]. split; [exact Hin |].
    split; [exact Hreq | exact Htarget].
Defined.

(** X18.  POST /v1/requests/ack answers 200 only to a caller
    whom [requireAdmin] accepts, for a non-empty array of ids, and reports
    as deleted the number of ids given, stored or not.  It removes the keys
    [request:<id>] of those ids, whoever the requests were addressed to,
    and nothing else. *)
Theorem requests_ack_removes (sha256 : string -> string) e st body :
  status (requests_ack sha256 e st body).2 = 200 ->
  let after := (requests_ack sha256 e st body).1 in
  exists user secret ids,
    trim_field (prop_opt body "username") = Some user
    /\ trim_field (prop_opt body "authSecret") = Some secret
    /\ requireAdmin sha256 e st user secret = true
    /\ prop_opt body "ids" = JArr ids /\ ids <> []
    /\ (requests_ack sha256 e st body).2 = send 200 (BDeleted (length ids))
    /\ (forall item, item ∈ ids ->
          SHARES_KV after !! request_key (to_string item) = None)
    /\ (forall k,
          (forall item, item ∈ ids -> k <> request_key (to_string item)) ->
          SHARES_KV after !! k = SHARES_KV st !! k)
    /\ USERS_KV after = USERS_KV st /\ INBOX_KV after = INBOX_KV st
    /\ SHARE_MANAGER after = SHARE_MANAGER st.
Proof.
  intros H after. subst after. unfold requests_ack in *.
  destruct (trim_field (prop_opt body "username")) as [user |]; [| done].
  destruct (trim_field (prop_opt body "authSecret")) as [secret |]; [| done].
  destruct (requireAdmin sha256 e st user secret) eqn:Ha; [| done]. cbn [negb] in *.
  destruct (prop_opt body "ids") as [| | | | | ids |] eqn:Hids; try done.
  cbn [array_or_empty] in *.
  destruct ids as [| i0 ids]; [done |].
  remember (i0 :: ids) as all eqn:Hall.
  replace (length all =? 0)%nat with false in * by (by subst all).
  cbn [fst snd] in *.
  set (key := fun item : jsval => "request:" ++ to_string item).
  exists user, secret, all. split_and!; try done.
  - by subst all.
  - intros item Hin. rewrite fold_shares_delete_lookup, bool_decide_eq_true_2; [done |].
    apply list_elem_of_fmap. by exists item.
  - intros k Hk. rewrite fold_shares_delete_lookup, bool_decide_eq_false_2; [done |].
    intros (item & -> & Hin)%list_elem_of_fmap. by apply (Hk item Hin).
  - apply fold_shares_users.
  - apply (fold_shares_rest key all st).
  - apply (fold_shares_rest key all st).
Qed.

Lemma requests_ack_removes_witness :
  let st := (run Scenario.digest Scenario.config Scenario.empty Scenario.asked).1 in
  let body :=
    JObj [("username", JStr "dave"); ("authSecret", JStr Scenario.dave_secret);
          ("ids", JArr [JStr (generateToken 16 (Scenario.counting 10)).1])] in
  (requests_ack Scenario.digest Scenario.config st body).2 = send 200 (BDeleted 1)
  /\ SHARES_KV (requests_ack Scenario.digest Scenario.config st body).1
       !! request_key (generateToken 16 (Scenario.counting 10)).1 = None
  /\ is_Some (SHARES_KV st !! request_key (generateToken 16 (Scenario.counting 10)).1).
Proof.
  intros st body.
  destruct (requests_ack_removes Scenario.digest Scenario.config st body)
    as (user & secret & ids & _ & _ & _ & Hids & _ & Hresp & Hgone & _);
    [vm_compute; reflexivity |].
  vm_compute in Hids. injection Hids as <-.
  split; [exact Hresp |]. split.
  - apply (Hgone (JStr (generateToken 16 (Scenario.counting 10)).1)). by left.
  - vm_compute. eauto.
Defined.

(** ** The landing page *)

Section Landing.

Lemma substring_prefix n s : String.prefix (String.substring 0 n s) s = true.
Proof.
  revert s. induction n as [| n IH]; intros s; [by destruct s |].
  destruct s as [| c s]; [done |]. simpl String.substring.
  rewrite prefix_cons. destruct (ascii_dec c c); [apply IH | done].
Qed.

Lemma substring_length n s :
  String.length (String.substring 0 n s) = Nat.min n (String.length s).
Proof.
  revert s. induction n as [| n IH]; intros s; [by destruct s |].
  destruct s as [| c s]; [done |]. simpl. by rewrite IH.
Qed.

End Landing.

(** X19.  The landing page of a share link shows the first eight
    characters of the token at most, followed by an ellipsis, and
    [unknown] when the path has no token. *)
Theorem landing_shows_eight token :
  (token = "" -> landing_hint token = "unknown")
  /\ (token <> "" ->
      exists shown,
        landing_hint token = shown ++ "…"
        /\ String.prefix shown token = true
        /\ String.length shown = Nat.min 8 (String.length token)).
Proof.
  unfold landing_hint. split.
  - by intros ->.
  - intros Hne%String.eqb_neq. rewrite Hne.
    exists (String.substring 0 8 token).
    split; [done |]. split; [apply substring_prefix | apply substring_length].
Qed.

(** ** The life of a delivered session *)

Section SessionLife.

Variable sha256 : string -> string.

Lemma kv_get_put_live t k v ttl (m : gmap string kv_entry) t' :
  t' < t + 1000 * ttl -> kv_get t' k (kv_put t k v ttl m) = Some v.
Proof.
  intros Hl. unfold kv_get. rewrite kv_put_eq. unfold kv_live, kv_expires.
  cbn [kv_put_at kv_ttl kv_val]. apply Z.ltb_lt in Hl. by rewrite Hl.
Qed.

Lemma kv_get_entry t k (m : gmap string kv_entry) e :
  m !! k = Some e ->
  kv_get t k m = if t <? kv_expires e then Some (kv_val e) else None.
Proof. intros He. unfold kv_get, kv_live. by rewrite He. Qed.

Lemma with_owned_session_run e w st sessionId body k user secret session :
  trim_field (prop_opt body "username") = Some user ->
  trim_field (prop_opt body "authSecret") = Some secret ->
  sessionId <> "" ->
  validateUsername (JStr user) = true ->
  requireAdmin sha256 e st user secret = true ->
  kv_get (now w) (session_key sessionId) (SHARES_KV st) = Some (VSession session) ->
  with_owned_session sha256 e w st sessionId body k
  = if String.eqb (sender session) user then k user session
    else (st, send 403 (BError "Forbidden")).
Proof.
  intros Hu Hs Hid Hv Ha Hget. unfold with_owned_session.
  apply String.eqb_neq in Hid. rewrite Hu, Hs, Hid, Hv, Ha, Hget. cbn [negb orb].
  by destruct (String.eqb (sender session) user).
Qed.

End SessionLife.





(** ** Listing the sessions sent *)

Section Listing.

Variable sha256 : string -> string.

Lemma inbox_post_index e w st body who :
  status (inbox_post e w st body).2 = 201 ->
  sender_of (meta_of body) = Some who -> who <> "" ->
  exists ttl,
    clamp_ttl e (prop_opt body "ttlSec") = Num ttl
    /\ SHARES_KV (inbox_post e w st body).1
         !! index_key who (generateToken 20 (generateToken 20 (random w)).2).1
       = Some {| kv_val := VIndex; kv_ttl := ttl; kv_put_at := now w |}.
Proof.
  intros H Hs Hne.
  destruct (inbox_post_ok e w st body H)
    as (payload & ttl & who' & _ & _ & Hc & _ & _ & _ & Ht & Hs' & _ & ->).
  rewrite Hs in Hs'. injection Hs' as <-.
  exists ttl. split; [done |].
  apply String.eqb_neq in Hne. cbn zeta. cbn [fst]. rewrite Hne.
  rewrite shares_set_shares. apply kv_put_eq.
Qed.

Lemma sessions_list_listed e w st who secret_param limit_param x ie e0 s :
  validateUsername (JStr who) = true ->
  requireAdmin sha256 e st who (trim secret_param) = true ->
  (length (matching_keys (now w) ("sessionBySender:" ++ who ++ ":") (SHARES_KV st))
   <= list_limit (clamp_limit 1 100 50 limit_param))%nat ->
  SHARES_KV st !! index_key who x = Some ie -> kv_live (now w) ie = true ->
  SHARES_KV st !! session_key x = Some e0 -> kv_live (now w) e0 = true ->
  kv_val e0 = VSession s ->
  exists sessions,
    sessions_list sha256 e w st who secret_param limit_param
    = (st, send 200 (BSessions sessions))
    /\ s ∈ sessions.
Proof.
  intros Hv Ha Hlen Hie Hlie He0 Hl0 Hv0. unfold sessions_list.
  pose proof (validateUsername_trim (JStr who) Hv) as Ht. cbn [to_string] in Ht.
  rewrite Ht, Hv, Ha. unfold negb. eexists. split; [done |].
  apply list_elem_of_omap. exists (index_key who x). split.
  - apply kv_list_all; [done |]. apply matching_keys_spec. split; [| eauto].
    rewrite <- index_key_prefix. apply prefix_append.
  - rewrite <- index_key_prefix, substring_from_app.
    unfold kv_get. by rewrite He0, Hl0, Hv0.
Qed.

End Listing.

(** X22.  After POST /v1/inbox has answered 201 for a share with a
    sender, the sender, when a valid username and an authenticated admin,
    finds the session in GET /v1/sessions until the TTL runs out, provided
    the sender has no more live index entries than the list reads: the
    session has the id returned, the recipient and the cipher of the share,
    and is neither accepted nor revoked.  The sender of a share is not
    validated: when it is not a valid username the session is stored all
    the same (the record and its index entry are read until the TTL runs
    out, whatever the sender), and then no caller is ever answered 200 by
    the list for that sender or by revoke, restore or delete of that
    session. *)
Theorem session_post_then_list (sha256 : string -> string) e w st body who :
  status (inbox_post e w st body).2 = 201 ->
  sender_of (meta_of body) = Some who -> who <> "" ->
  let sid := (generateToken 20 (generateToken 20 (random w)).2).1 in
  let after := (inbox_post e w st body).1 in
  exists payload ttl,
    prop_opt body "cipher" = JStr payload
    /\ clamp_ttl e (prop_opt body "ttlSec") = Num ttl
    /\ (forall e' w' secret_param limit_param,
          validateUsername (JStr who) = true ->
          requireAdmin sha256 e' after who (trim secret_param) = true ->
          now w' < now w + 1000 * ttl ->
          (length (matching_keys (now w') ("sessionBySender:" ++ who ++ ":")
                     (SHARES_KV after))
           <= list_limit (clamp_limit 1 100 50 limit_param))%nat ->
          exists sessions s,
            sessions_list sha256 e' w' after who secret_param limit_param
            = (after, send 200 (BSessions sessions))
            /\ s ∈ sessions
            /\ session_id s = sid /\ sender s = who
            /\ recipient s = prop_opt body "recipient" /\ cipher s = payload
            /\ expiresAt s = now w + ttl * 1000
            /\ acceptedAt s = None /\ revokedAt s = None /\ restoredAt s = None)
    /\ (forall t,
          t < now w + 1000 * ttl ->
          exists s,
            kv_get t (session_key sid) (SHARES_KV after) = Some (VSession s)
            /\ session_id s = sid /\ sender s = who /\ cipher s = payload
            /\ kv_get t (index_key who sid) (SHARES_KV after) = Some VIndex)
    /\ (validateUsername (JStr who) = false ->
        forall e' w',
          (forall sender_param secret_param limit_param,
              trim sender_param = who ->
              status (sessions_list sha256 e' w' after sender_param secret_param
                        limit_param).2 <> 200)
          /\ (forall handler body',
                handler ∈ [session_revoke sha256; session_restore sha256;
                           session_delete sha256] ->
                status (handler e' w' after sid body').2 <> 200)).
Proof.
  intros H Hs Hne sid after.
  destruct (inbox_post_session e w st body who H Hs Hne)
    as (payload & ttl & Hc & Ht & Hsess).
  destruct (inbox_post_index e w st body who H Hs Hne) as (ttl' & Ht' & Hidx).
  rewrite Ht in Ht'. injection Ht' as <-.
  fold sid after in Hsess, Hidx.
  exists payload, ttl. split; [done |]. split; [done |]. split; [| split].
  - intros e' w' secret_param limit_param Hv Ha Hlive Hlen.
    assert (Hl : forall v, kv_live (now w')
                   {| kv_val := v; kv_ttl := ttl; kv_put_at := now w |} = true).
    { intros v. unfold kv_live, kv_expires. simpl. apply Z.ltb_lt. lia. }
    edestruct (sessions_list_listed sha256 e' w' after who secret_param limit_param sid)
      as (sessions & Hlist & Hin);
      [exact Hv | exact Ha | exact Hlen | exact Hidx | apply Hl | exact Hsess
      | apply Hl | reflexivity |].
    eexists sessions, _. split; [exact Hlist |]. split; [exact Hin |]. done.
  - intros t Hlive. eexists. unfold kv_get. rewrite Hsess, Hidx.
    unfold kv_live, kv_expires. cbn [kv_put_at kv_ttl kv_val].
    destruct (Z.ltb_spec t (now w + 1000 * ttl)); [done | lia].
  - intros Hinvalid e' w'. split.
    + intros sender_param secret_param limit_param <-. unfold sessions_list.
      by rewrite Hinvalid.
    + intros handler body' Hin H200.
      assert (Hh : exists k, handler e' w' after sid body'
                   = with_owned_session sha256 e' w' after sid body' k).
      { rewrite !elem_of_cons in Hin.
        destruct Hin as [-> | [-> | [-> | Hin]]]; [by eexists .. |].
        by apply elem_of_nil in Hin. }
      destruct Hh as (k & Hk). rewrite Hk in H200.
      destruct (with_owned_session_ok sha256 e' w' after sid body' k H200)
        as (user & secret & session & _ & _ & _ & Hv & _ & Hget & Hsender & _).
      destruct (kv_get_lookup _ _ _ _ _ Hget Hsess) as [Hval _].
      cbn [kv_val] in Hval. injection Hval as <-.
      cbn [sender new_session] in Hsender. subst user. congruence.
Qed.

Lemma session_post_then_list_witness :
  let st := (run Scenario.digest Scenario.config Scenario.empty
               [Scenario.register "alice" 0; Scenario.register "bob" 100]).1 in
  let w := Scenario.at_time 1000 7 in
  let sid := (generateToken 20 (generateToken 20 (random w)).2).1 in
  let listed :=
    JObj [("recipient", JStr "bob"); ("cipher", JStr "Y2lwaA");
          ("meta", JObj [("sender", JStr " alice ")]);
          ("ttlSec", JNum (Num 120))] in
  let lost :=
    JObj [("recipient", JStr "bob"); ("cipher", JStr "Y2lwaA");
          ("meta", JObj [("sender", JStr "not a name")])] in
  (exists sessions s,
      sessions_list Scenario.digest Scenario.config (Scenario.at_time 2000 0)
        (inbox_post Scenario.config w st listed).1 "alice" Scenario.alice_secret ""
      = ((inbox_post Scenario.config w st listed).1, send 200 (BSessions sessions))
      /\ s ∈ sessions /\ session_id s = sid)
  /\ (exists s,
        kv_get 2000 (session_key sid)
          (SHARES_KV (inbox_post Scenario.config w st lost).1)
        = Some (VSession s)
        /\ sender s = "not a name")
  /\ status (session_revoke Scenario.digest Scenario.config (Scenario.at_time 2000 0)
               (inbox_post Scenario.config w st lost).1 sid
               (Scenario.credentials "alice" Scenario.alice_secret)).2 <> 200.
Proof.
  intros st w sid listed lost. split.
  - destruct (session_post_then_list Scenario.digest Scenario.config w st listed "alice")
      as (payload & ttl & _ & Ht & Hlist & _ & _);
      [vm_compute; reflexivity | vm_compute; reflexivity | vm_compute; discriminate |].
    vm_compute in Ht. injection Ht as <-.
    destruct (Hlist Scenario.config (Scenario.at_time 2000 0) Scenario.alice_secret "")
      as (sessions & s & Hl & Hin & Hid & _);
      [vm_compute; reflexivity | vm_compute; reflexivity | vm_compute; reflexivity
      | vm_compute; lia |].
    exists sessions, s. split; [exact Hl |]. split; [exact Hin | exact Hid].
  - destruct (session_post_then_list Scenario.digest Scenario.config w st lost
                "not a name")
      as (payload & ttl & _ & Ht & _ & Hstored & Hlost);
      [vm_compute; reflexivity | vm_compute; reflexivity | vm_compute; discriminate |].
    vm_compute in Ht. injection Ht as <-. split.
    + destruct (Hstored 2000) as (s & Hget & _ & Hsender & _); [vm_compute; reflexivity |].
      exists s. split; [exact Hget | exact Hsender].
    + destruct (Hlost eq_refl Scenario.config (Scenario.at_time 2000 0)) as [_ Hnever].
      apply Hnever. by left.
Defined.

(** ** What a write leaves alone *)

Section Frames.

Variable sha256 : string -> string.

Lemma rewrite_frame t sk v ttl ik iv ittl st k :
  k <> sk -> k <> ik ->
  let after := set_shares (kv_put t sk v ttl) (set_inboxKV (kv_put t ik iv ittl) st) in
  SHARES_KV after !! k = SHARES_KV st !! k
  /\ inboxKV after !! k = inboxKV st !! k.
Proof.
  intros Hsk Hik after. subst after. split.
  - rewrite shares_set_shares, kv_put_ne by done. by apply shares_after_inbox_put.
  - rewrite inboxKV_put_shares_ne by done.
    rewrite inboxKV_set_inboxKV. by apply kv_put_ne.
Qed.

End Frames.

(** X23.  A write stays within the keys of what it writes.
    POST /v1/shares changes the key of the new token in the shares namespace
    and in the coordinator; POST /v1/inbox the key of the new inbox item
    and, for a share with a sender, the session key and the index key of
    the new session id; revoke and restore the key of the session and the
    key of the one inbox item they add, so that what was delivered before
    stays in the inbox; accepted the key of the session; delete the key of
    the session and index keys of that id, and nothing in the inbox.  None
    of them touches the users, and only POST /v1/shares the coordinator. *)
Theorem writes_stay_in_their_keys (sha256 : string -> string) e w st :
  (forall body,
      let after := (shares_post e w st body).1 in
      let token := (generateToken 24 (random w)).1 in
      USERS_KV after = USERS_KV st /\ INBOX_KV after = INBOX_KV st
      /\ (forall k, k <> token ->
            SHARES_KV after !! k = SHARES_KV st !! k
            /\ SHARE_MANAGER after !! k = SHARE_MANAGER st !! k))
  /\ (forall body,
        let after := (inbox_post e w st body).1 in
        let item_id := (generateToken 20 (random w)).1 in
        let sid := (generateToken 20 (generateToken 20 (random w)).2).1 in
        USERS_KV after = USERS_KV st /\ SHARE_MANAGER after = SHARE_MANAGER st
        /\ (forall k,
              k <> inbox_key (prop_opt body "recipient") item_id ->
              k <> session_key sid -> (forall a, k <> index_key a sid) ->
              SHARES_KV after !! k = SHARES_KV st !! k
              /\ inboxKV after !! k = inboxKV st !! k))
  /\ (forall handler,
        handler ∈ [session_revoke sha256; session_restore sha256] ->
        forall sessionId body,
          let after := (handler e w st sessionId body).1 in
          let inboxId := (generateToken 16 (random w)).1 in
          USERS_KV after = USERS_KV st /\ SHARE_MANAGER after = SHARE_MANAGER st
          /\ (forall k,
                k <> session_key sessionId -> (forall r, k <> inbox_key r inboxId) ->
                SHARES_KV after !! k = SHARES_KV st !! k
                /\ inboxKV after !! k = inboxKV st !! k))
  /\ (forall sessionId,
        let after := (session_accepted w st sessionId).1 in
        USERS_KV after = USERS_KV st /\ SHARE_MANAGER after = SHARE_MANAGER st
        /\ INBOX_KV after = INBOX_KV st
        /\ (forall k, k <> session_key sessionId ->
              SHARES_KV after !! k = SHARES_KV st !! k))
  /\ (forall sessionId body,
        let after := (session_delete sha256 e w st sessionId body).1 in
        USERS_KV after = USERS_KV st /\ SHARE_MANAGER after = SHARE_MANAGER st
        /\ INBOX_KV after = INBOX_KV st
        /\ (forall k,
              k <> session_key sessionId -> (forall a, k <> index_key a sessionId) ->
              SHARES_KV after !! k = SHARES_KV st !! k)).
Proof.
  split_and!.
  - intros body after token. subst after.
    destruct (decide (status (shares_post e w st body).2 = 201)) as [H | H].
    + destruct (shares_post_ok e w st body H)
        as (payload & ttl & _ & _ & _ & _ & _ & _ & _ & _ & ->).
      cbn zeta. cbn [fst]. fold token. split; [done |]. split; [done |].
      intros k Hk. unfold set_manager, set_shares. cbn [SHARES_KV SHARE_MANAGER].
      split; [by apply kv_put_ne |].
      cbn [ShareManager_fetch].
      destruct (SHARE_MANAGER st !! token); [done |]. cbn [fst].
      by rewrite lookup_insert_ne.
    + by rewrite shares_post_unchanged.
  - intros body after item_id sid. subst after.
    destruct (decide (status (inbox_post e w st body).2 = 201)) as [H | H].
    + destruct (inbox_post_ok e w st body H)
        as (payload & ttl & who & _ & _ & _ & _ & _ & _ & _ & _ & _ & ->).
      cbn zeta. cbn [fst]. fold item_id sid.
      destruct (String.eqb who "").
      * split; [apply users_set_inboxKV |]. split; [apply manager_set_inboxKV |].
        intros k Hk _ _. split.
        -- by apply shares_after_inbox_put.
        -- rewrite inboxKV_set_inboxKV. by apply kv_put_ne.
      * split; [apply users_set_inboxKV |]. split; [apply manager_set_inboxKV |].
        intros k Hk Hsk Hik. split.
        -- rewrite !shares_set_shares, !kv_put_ne; [| done | apply not_eq_sym, Hik].
           by apply shares_after_inbox_put.
        -- rewrite !inboxKV_put_shares_ne; [| done | apply not_eq_sym, Hik].
           rewrite inboxKV_set_inboxKV. by apply kv_put_ne.
    + by rewrite inbox_post_unchanged.
  - intros handler Hin sessionId body after inboxId. subst after.
    rewrite !elem_of_cons in Hin.
    destruct Hin as [-> | [-> | Hin]]; [| | by apply elem_of_nil in Hin].
    + destruct (decide (status (session_revoke sha256 e w st sessionId body).2 = 200))
        as [H | H].
      * destruct (session_revoke_ok sha256 e w st sessionId body H)
          as (admin & session & _ & _ & _ & ->).
        cbn zeta. cbn [fst]. fold inboxId.
        split; [apply users_set_inboxKV |]. split; [apply manager_set_inboxKV |].
        intros k Hsk Hik. apply rewrite_frame; [done | apply Hik].
      * by rewrite session_revoke_unchanged.
    + destruct (decide (status (session_restore sha256 e w st sessionId body).2 = 200))
        as [H | H].
      * destruct (session_restore_ok sha256 e w st sessionId body H)
          as (session & _ & _ & _ & ->).
        cbn zeta. cbn [fst]. fold inboxId.
        split; [apply users_set_inboxKV |]. split; [apply manager_set_inboxKV |].
        intros k Hsk Hik. apply rewrite_frame; [done | apply Hik].
      * by rewrite session_restore_unchanged.
  - intros sessionId after. subst after.
    destruct (session_accepted_cases w st sessionId) as [-> | (session & _ & ->)];
      [done |].
    split_and!; try done. intros k Hk. rewrite shares_set_shares. by apply kv_put_ne.
  - intros sessionId body after. subst after.
    destruct (session_delete_cases sha256 e w st sessionId body)
      as [-> | (session & _ & ->)]; [done |].
    split_and!; try done. intros k Hk Hik. rewrite !shares_set_shares.
    unfold kv_delete. rewrite !lookup_delete_ne; [done | done | apply not_eq_sym, Hik].
Qed.

(** ** Base64 in the extensions *)

Section Base64.

Lemma b64_value_char k : (k < 64)%N -> b64_value (base64_char k) = Some k.
Proof.
  intros Hk.
  assert (Hall : forallb (fun i => bool_decide
                           (b64_value (base64_char (N.of_nat i)) = Some (N.of_nat i)))
                   (seq 0 64) = true) by (vm_compute; reflexivity).
  rewrite forallb_forall in Hall.
  specialize (Hall (N.to_nat k)). rewrite N2Nat.id in Hall.
  assert (Hin : In (N.to_nat k) (seq 0 64)) by (apply in_seq; lia).
  apply Hall in Hin. by apply bool_decide_eq_true in Hin.
Qed.

Lemma base64_not_space c : is_base64 c = true -> is_ascii_space c = false.
Proof.
  destruct c as [[] [] [] [] [] [] [] []]; vm_compute; congruence.
Qed.

(** The 6-bit values that [btoa] writes, and the bytes they decode to. *)
Lemma btoa_sextets l :
  Forall (fun a => (a < 256)%N) l ->
  exists sx,
    btoa l = (map base64_char sx ++ repeat "="%char ((3 - length l mod 3) mod 3))%list
    /\ Forall (fun k => (k < 64)%N) sx
    /\ b64_bytes sx = l
    /\ (length sx mod 4)%nat <> 1%nat.
Proof.
  induction l as [| a | a b | a b c r IH] using list_ind3; intros Hl.
  - exists []. done.
  - apply Forall_cons in Hl as [Ha _].
    exists [a / 4; (a mod 4) * 16]%N. split_and!; try done.
    + repeat constructor.
      * apply N.Div0.div_lt_upper_bound. lia.
      * pose proof (N.mod_lt a 4). lia.
    + cbn [b64_bytes]. f_equal.
      rewrite N.div_mul by done. rewrite N.mul_comm, <- N.div_mod by done. done.
  - apply Forall_cons in Hl as [Ha [Hb _]%Forall_cons].
    assert (Hb16 : (b / 16 < 16)%N) by (apply N.Div0.div_lt_upper_bound; lia).
    pose proof (N.mod_lt a 4) as Ha4. pose proof (N.mod_lt b 16) as Hm16.
    exists [a / 4; (a mod 4) * 16 + b / 16; (b mod 16) * 4]%N.
    split_and!; try done.
    + repeat constructor; [apply N.Div0.div_lt_upper_bound; lia | lia | lia].
    + cbn [b64_bytes].
      rewrite N.div_add_l, (N.div_small (b / 16)) by (done || lia).
      rewrite N.add_0_r, (N.mul_comm (a / 4)), <- N.div_mod by done.
      rewrite (N.add_comm (a mod 4 * 16)), N.Div0.mod_add, (N.mod_small (b / 16)) by lia.
      rewrite N.div_mul by done.
      rewrite (N.mul_comm (b / 16)), <- N.div_mod by done. done.
  - apply Forall_cons in Hl as [Ha [Hb [Hc Hr]%Forall_cons]%Forall_cons].
    destruct (IH Hr) as (sx & Hbody & Hsx & Hdec & Hlen).
    assert (Hb16 : (b / 16 < 16)%N) by (apply N.Div0.div_lt_upper_bound; lia).
    assert (Hc64 : (c / 64 < 4)%N) by (apply N.Div0.div_lt_upper_bound; lia).
    pose proof (N.mod_lt a 4) as Ha4. pose proof (N.mod_lt b 16) as Hm16.
    pose proof (N.mod_lt c 64) as Hm64.
    exists (a / 4 :: (a mod 4) * 16 + b / 16 :: (b mod 16) * 4 + c / 64 :: c mod 64
            :: sx)%N.
    split_and!.
    + cbn [btoa map]. rewrite Hbody. cbn [length].
      replace (S (S (S (length r))) mod 3)%nat with (length r mod 3)%nat; [done |].
      change (S (S (S (length r)))) with (3 + length r)%nat.
      rewrite <- (Nat.Div0.add_mod_idemp_l 3), Nat.Div0.mod_same. done.
    + repeat constructor; [apply N.Div0.div_lt_upper_bound; lia | lia | lia | lia | done].
    + cbn [b64_bytes]. rewrite Hdec.
      rewrite N.div_add_l, (N.div_small (b / 16)) by (done || lia).
      rewrite N.add_0_r, (N.mul_comm (a / 4)), <- N.div_mod by done.
      rewrite (N.add_comm (a mod 4 * 16)), N.Div0.mod_add, (N.mod_small (b / 16)) by lia.
      rewrite N.div_add_l, (N.div_small (c / 64)) by (done || lia).
      rewrite N.add_0_r, (N.mul_comm (b / 16)), <- N.div_mod by done.
      rewrite (N.add_comm (b mod 16 * 4)), N.Div0.mod_add, (N.mod_small (c / 64)) by lia.
      rewrite (N.mul_comm (c / 64)), <- N.div_mod by done. done.
    + cbn [length]. change (S (S (S (S (length sx))))) with (4 + length sx)%nat.
      rewrite <- (Nat.Div0.add_mod_idemp_l 4), Nat.Div0.mod_same. done.
Qed.

Lemma strip_padding_keep data :
  match rev data with [] => True | c :: _ => c <> "="%char end ->
  strip_padding data = data.
Proof.
  unfold strip_padding. destruct (rev data) as [| c r]; [done |]. intros Hc.
  destruct c as [[] [] [] [] [] [] [] []]; done.
Qed.

Lemma filter_all {A} (f : A -> bool) l :
  Forall (fun x => f x = true) l -> List.filter f l = l.
Proof. induction 1 as [| x l Hx _ IH]; [done |]. simpl. by rewrite Hx, IH. Qed.

Lemma mapM_b64_value sx :
  Forall (fun k => (k < 64)%N) sx -> mapM b64_value (map base64_char sx) = Some sx.
Proof.
  intros Hsx. apply mapM_Some, Forall2_fmap_l, Forall_Forall2_diag.
  eapply Forall_impl; [exact Hsx |]. intros k Hk. by apply b64_value_char.
Qed.

Lemma bufferToBase64_body bytes :
  exists sx,
    bufferToBase64 bytes = string_of_list_ascii (map base64_char sx)
    /\ Forall (fun k => (k < 64)%N) sx
    /\ b64_bytes sx = map Byte.to_N bytes
    /\ (length sx mod 4)%nat <> 1%nat.
Proof.
  destruct (btoa_sextets (map Byte.to_N bytes)) as (sx & Hb & Hsx & Hdec & Hlen).
  { apply Forall_forall. intros a (b & -> & _)%list_elem_of_fmap.
    pose proof (Byte.to_N_bounded b). lia. }
  exists sx. split_and!; try done.
  unfold bufferToBase64. f_equal. rewrite Hb.
  rewrite rev_app_distr, rev_repeat, drop_eq_repeat, drop_eq_keep.
  - apply rev_involutive.
  - destruct (rev (map base64_char sx)) as [| c t] eqn:Hr; [done |].
    assert (Hc : c ∈ map base64_char sx).
    { apply elem_of_rev. rewrite Hr. by left. }
    apply list_elem_of_fmap in Hc as (k & -> & Hk).
    rewrite Forall_forall in Hsx.
    by destruct (base64_plain _ (base64_char_ok k (Hsx k Hk))).
Qed.

End Base64.

(** X24.  [base64ToUint8] undoes [bufferToBase64]: whatever the
    bytes, decoding their unpadded base64 text does not fail and gives the
    bytes back, so the encoding is one to one.  The secret of a
    registration is this encoding of the random bytes drawn. *)
Theorem base64_round_trip :
  (forall bytes, base64ToUint8 (bufferToBase64 bytes) = Some bytes)
  /\ (forall bytes bytes',
        bufferToBase64 bytes = bufferToBase64 bytes' -> bytes = bytes')
  /\ (forall n e,
        (randomSecret n e).1 = bufferToBase64 (getRandomValues n e).1
        /\ base64ToUint8 (randomSecret n e).1 = Some (getRandomValues n e).1).
Proof.
  assert (Hround : forall bytes, base64ToUint8 (bufferToBase64 bytes) = Some bytes).
  { intros bytes.
    destruct (bufferToBase64_body bytes) as (sx & -> & Hsx & Hdec & Hlen).
    assert (Hchars : Forall (fun c => is_base64 c = true) (map base64_char sx)).
    { apply Forall_fmap. eapply Forall_impl; [exact Hsx |].
      intros k Hk. by apply base64_char_ok. }
    unfold base64ToUint8, atob. rewrite list_of_string_of_list.
    rewrite filter_all.
    2:{ eapply Forall_impl; [exact Hchars |]. intros c Hc.
        by rewrite (base64_not_space c Hc). }
    rewrite strip_padding_keep.
    2:{ destruct (rev (map base64_char sx)) as [| c t] eqn:Hr; [done |].
        assert (Hc : c ∈ map base64_char sx).
        { apply elem_of_rev. rewrite Hr. by left. }
        rewrite Forall_forall in Hchars.
        by destruct (base64_plain c (Hchars c Hc)). }
    rewrite Tauto.if_same, length_map.
    apply Nat.eqb_neq in Hlen. rewrite Hlen.
    rewrite (mapM_b64_value sx Hsx), Hdec. f_equal.
    rewrite map_map. rewrite <- (map_id bytes) at 2. apply map_ext.
    intros b. pose proof (Byte.to_N_bounded b).
    rewrite N.mod_small by lia. by rewrite Byte.of_to_N. }
  split; [exact Hround |]. split.
  - intros bytes bytes' Heq. apply (f_equal base64ToUint8) in Heq.
    rewrite !Hround in Heq. by injection Heq.
  - intros n e. unfold randomSecret, getRandomValues. cbn [fst].
    split; [reflexivity |]. apply Hround.
Qed.

(** ** Stored payloads are never empty *)

Section Payloads.

Variable sha256 : string -> string.

Lemma payloads_ok_put t k v ttl m :
  payloads_ok m -> payload_ok v -> payloads_ok (kv_put t k v ttl m).
Proof.
  intros Hm Hv k' e'. destruct (decide (k = k')) as [<- | Hne].
  - rewrite kv_put_eq. by intros [= <-].
  - rewrite kv_put_ne by done. apply Hm.
Qed.

Lemma payloads_ok_delete k m : payloads_ok m -> payloads_ok (kv_delete k m).
Proof.
  intros Hm k' e'. unfold kv_delete. intros [_ He]%lookup_delete_Some. by apply (Hm k').
Qed.

Lemma payloads_ok_inbox f st :
  payloads_ok (SHARES_KV st) ->
  (forall m, payloads_ok m -> payloads_ok (f m)) ->
  payloads_ok (SHARES_KV (set_inboxKV f st)).
Proof.
  intros Hm Hf. rewrite shares_set_inboxKV. destruct (INBOX_KV st); [done |].
  by apply Hf.
Qed.

Lemma payloads_ok_fold_inbox (key : jsval -> string) ids st :
  payloads_ok (SHARES_KV st) ->
  payloads_ok
    (SHARES_KV (fold_left (fun acc item => set_inboxKV (kv_delete (key item)) acc)
                  ids st)).
Proof.
  revert st. induction ids as [| item ids IH]; intros st Hm; [done |].
  cbn [fold_left]. apply IH, payloads_ok_inbox; [done |].
  intros m. apply payloads_ok_delete.
Qed.

Lemma payloads_ok_fold_shares (key : jsval -> string) ids st :
  payloads_ok (SHARES_KV st) ->
  payloads_ok
    (SHARES_KV (fold_left (fun acc item => set_shares (kv_delete (key item)) acc)
                  ids st)).
Proof.
  revert st. induction ids as [| item ids IH]; intros st Hm; [done |].
  cbn [fold_left]. apply IH. rewrite shares_set_shares. by apply payloads_ok_delete.
Qed.

Lemma payloads_ok_read t k m v :
  payloads_ok m -> kv_get t k m = Some v -> payload_ok v.
Proof.
  intros Hm (e & He & _ & Hv)%kv_get_some. specialize (Hm k e He).
  by rewrite Hv in Hm.
Qed.

Lemma payloads_ok_fetch e w st req :
  payloads_ok (SHARES_KV st) -> payloads_ok (SHARES_KV (fetch sha256 e w st req).1).
Proof.
  intros Hm. destruct req
    as [| token | m username body | body | body | recipient_param limit_param
      | body | sender_param secret_param limit_param | sessionId body
      | sessionId body | sessionId | sessionId body | body
      | username_param secret_param limit_param | body
      | m token consume_suffix |];
    cbn [fetch]; try done.
  - pose proof (users_route_stores sha256 w st m username body) as Hs.
    apply (f_equal fst) in Hs. cbn [stores_of fst] in Hs. by rewrite Hs.
  - destruct (decide (status (shares_post e w st body).2 = 201)) as [H | H].
    + destruct (shares_post_ok e w st body H)
        as (payload & ttl & _ & _ & _ & Hp & _ & _ & _ & _ & ->).
      cbn zeta. cbn [fst]. unfold set_manager. cbn [SHARES_KV].
      by apply payloads_ok_put.
    + by rewrite shares_post_unchanged.
  - destruct (decide (status (inbox_post e w st body).2 = 201)) as [H | H].
    + destruct (inbox_post_ok e w st body H)
        as (payload & ttl & who & _ & Hv & _ & Hp & _ & _ & _ & _ & _ & ->).
      cbn zeta. cbn [fst].
      assert (Hinbox : payloads_ok
                (SHARES_KV
                   (set_inboxKV
                      (kv_put (now w)
                         (inbox_key (prop_opt body "recipient")
                            (generateToken 20 (random w)).1)
                         (VInbox
                            (share_entry body (meta_of body) payload who
                               (generateToken 20 (generateToken 20 (random w)).2).1
                               (now w) (now w + ttl * 1000))) ttl) st))).
      { apply payloads_ok_inbox; [done |]. intros m0 Hm0. by apply payloads_ok_put. }
      destruct (String.eqb who ""); [done |].
      rewrite !shares_set_shares.
      apply payloads_ok_put; [| done]. by apply payloads_ok_put.
    + by rewrite inbox_post_unchanged.
  - unfold inbox_poll. by case_match.
  - unfold inbox_ack. repeat case_match; try done. by apply payloads_ok_fold_inbox.
  - unfold sessions_list. by repeat case_match.
  - destruct (decide (status (session_revoke sha256 e w st sessionId body).2 = 200))
      as [H | H].
    + destruct (session_revoke_ok sha256 e w st sessionId body H)
        as (admin & session & Hget & _ & _ & ->).
      cbn zeta. cbn [fst]. rewrite shares_set_shares.
      apply payloads_ok_put.
      * apply payloads_ok_inbox; [done |]. intros m0 Hm0. by apply payloads_ok_put.
      * exact (payloads_ok_read _ _ _ _ Hm Hget).
    + by rewrite session_revoke_unchanged.
  - destruct (decide (status (session_restore sha256 e w st sessionId body).2 = 200))
      as [H | H].
    + destruct (session_restore_ok sha256 e w st sessionId body H)
        as (session & Hget & _ & _ & ->).
      cbn zeta. cbn [fst]. rewrite shares_set_shares.
      apply payloads_ok_put.
      * apply payloads_ok_inbox; [done |]. intros m0 Hm0. by apply payloads_ok_put.
      * exact (payloads_ok_read _ _ _ _ Hm Hget).
    + by rewrite session_restore_unchanged.
  - destruct (session_accepted_cases w st sessionId) as [-> | (session & Hget & ->)];
      [done |].
    rewrite shares_set_shares. apply payloads_ok_put; [done |].
    exact (payloads_ok_read _ _ _ _ Hm Hget).
  - destruct (session_delete_cases sha256 e w st sessionId body)
      as [-> | (session & _ & ->)]; [done |].
    rewrite !shares_set_shares. by apply payloads_ok_delete, payloads_ok_delete.
  - destruct (requests_post_cases sha256 e w st body) as [-> | (rec & ->)]; [done |].
    rewrite shares_set_shares. by apply payloads_ok_put.
  - unfold requests_poll. by case_match.
  - unfold requests_ack. repeat case_match; try done. by apply payloads_ok_fold_shares.
  - unfold share_route. destruct (String.eqb token ""); [done |].
    destruct m; try done.
    + destruct (ShareManager_fetch _ _ _) as [manager doResp].
      by repeat case_match.
    + destruct consume_suffix; [| done].
      destruct (ShareManager_fetch _ _ _) as [manager doResp].
      case_match; [done |]. cbn [fst]. rewrite shares_set_shares.
      by apply payloads_ok_delete.
Qed.

Lemma payloads_ok_reachable fresh e st :
  reachable sha256 fresh e st -> payloads_ok (SHARES_KV st).
Proof.
  induction 1 as [b | st w req Hr IH Hnew].
  - intros k e0 Hk. change ((∅ : gmap string kv_entry) !! k = Some e0) in Hk.
    by rewrite lookup_empty in Hk.
  - by apply payloads_ok_fetch.
Qed.

End Payloads.

(** X25.  In every reachable state every share record and every session
    record that can be read holds a cipher that is not empty.  So
    GET /v1/shares/:token never returns an empty cipher, and restore never
    answers 409. *)
Theorem stored_payloads_never_empty (sha256 : string -> string) fresh e st :
  reachable sha256 fresh e st ->
  (forall t k r,
      kv_get t k (SHARES_KV st) = Some (VShare r) -> sh_cipher r <> "")
  /\ (forall t k session,
        kv_get t k (SHARES_KV st) = Some (VSession session) ->
        cipher session <> "")
  /\ (forall w token flag stored,
        (share_route w st GET token flag).2 = send 200 (BShare token stored) ->
        sh_cipher stored <> "")
  /\ (forall e' w sessionId body,
        status (session_restore sha256 e' w st sessionId body).2 <> 409).
Proof.
  intros Hr. pose proof (payloads_ok_reachable sha256 fresh e st Hr) as Hm.
  split_and!.
  - intros t k r Hget. exact (payloads_ok_read _ _ _ _ Hm Hget).
  - intros t k session Hget. exact (payloads_ok_read _ _ _ _ Hm Hget).
  - intros w token flag stored. unfold share_route.
    destruct (String.eqb token ""); [done |].
    pose proof (status_keeps (SHARE_MANAGER st) (now w) token) as Hk.
    destruct (ShareManager_fetch (now w) (SHARE_MANAGER st) (TcStatus token))
      as [manager doResp] eqn:Hf. cbn [fst] in Hk. subst manager.
    rewrite set_manager_same.
    destruct (negb (status doResp =? 200)) eqn:Hs.
    + cbn [snd]. intros [= Hst Hb].
      simpl in Hf. destruct (SHARE_MANAGER st !! token) as [te |];
        [destruct (consumed (tc_rec te)) |]; injection Hf as <-; done.
    + destruct (kv_get (now w) token (SHARES_KV st)) as [v |] eqn:Hget; [| done].
      destruct v as [r | | | |]; try done. cbn [snd]. intros [= <-].
      exact (payloads_ok_read _ _ _ _ Hm Hget).
  - intros e' w sessionId body. unfold session_restore, with_owned_session.
    destruct (trim_field (prop_opt body "username")) as [user |]; [| done].
    destruct (trim_field (prop_opt body "authSecret")) as [secret |]; [| done].
    destruct (String.eqb sessionId "" || negb (validateUsername (JStr user)));
      [done |].
    destruct (negb (requireAdmin sha256 e' st user secret)); [done |].
    destruct (kv_get (now w) (session_key sessionId) (SHARES_KV st))
      as [v |] eqn:Hget; [| done].
    destruct v as [| | session | |]; try done.
    destruct (negb (String.eqb (sender session) user)); [done |].
    destruct (negb (60 <? remaining_sec w session)); [done |].
    pose proof (payloads_ok_read _ _ _ _ Hm Hget) as Hc. cbn [payload_ok] in Hc.
    apply String.eqb_neq in Hc. by rewrite Hc.
Qed.

Lemma stored_payloads_never_empty_witness :
  exists session,
    kv_get 2000 (session_key Scenario.session1)
      (SHARES_KV (run Scenario.digest Scenario.config Scenario.empty
                    Scenario.revoked).1) = Some (VSession session)
    /\ cipher session <> "".
Proof.
  assert (Hr : reachable Scenario.digest true Scenario.config
                 (run Scenario.digest Scenario.config Scenario.empty
                    Scenario.revoked).1).
  { apply run_reachable; [apply reachable_initial | vm_compute; reflexivity]. }
  destruct (stored_payloads_never_empty Scenario.digest true Scenario.config _ Hr)
    as (_ & Hread & _).
  destruct (kv_get 2000 (session_key Scenario.session1)
              (SHARES_KV (run Scenario.digest Scenario.config Scenario.empty
                            Scenario.revoked).1)) as [[| | session | |] |] eqn:Hget;
    try (vm_compute in Hget; discriminate).
  exists session. split; [reflexivity |].
  exact (Hread 2000 (session_key Scenario.session1) session Hget).
Defined.
